(** * Draft reconciliation of the recipe edit page

    A shallow embedding of the second script of
    [src/backend/web/webapp/edit-description.js] (the title/category editor,
    lines 189-535): the two local storage tiers, the draft read/merge/write
    functions, the overlays of a draft onto the form, and the asynchronous
    [load], [save] and event handlers.
    The theme functions, which both scripts of the file share, and the
    [save] and the way back of the first script (the description editor,
    lines 1-188) are embedded after them.

    Conventions of the embedding.
    - JavaScript values are the inductive [jsval]; numbers are [number]:
      the integers (record ids, millisecond time stamps), the two infinities
      and NaN.  [Int z] stands for the double [z]: [Number] rounds what it
      reads to a double ([round_double]), and [String] prints a double as
      JavaScript does, with an exponent from 10^21 on.  Fractional doubles
      are outside the model, and negative zero is not told from zero (the
      script cannot tell them apart).  A string is converted as [Number]
      converts it whenever it denotes no number or an integer;
      [Number_in_model] says that it does.
    - JavaScript strings are [string], read as UTF-8; where the script
      counts or cuts UTF-16 code units, [code_units] gives them.
    - A string that is handed to [JSON.parse] or comes out of
      [JSON.stringify] is a [text]: either the serialisation of a value or a
      string that is not JSON.
    - Synchronous code is a function from the page state to a result and a
      new state ([sync]); [async] functions are resumptions ([task]) that
      stop at each network exchange and continue from the state the page
      has when the answer arrives.
    - The HTML page is taken to declare every element the script looks up by
      id, and its title field to store an assigned string unchanged. *)

From Stdlib Require Import ZArith String Ascii List Bool Lia.
From Stdlib Require Import Decimal DecimalString DecimalPos DecimalZ.
From stdpp Require Import gmap strings.

Import ListNotations.
Local Open Scope string_scope.
Local Open Scope Z_scope.

(** ** JavaScript values *)

Module JS.

Inductive number : Type :=
| NaN
| Infinity (negative : bool)
| Int (z : Z).

#[warnings="-register-all"]
Inductive jsval : Type :=
| VUndefined
| VNull
| VBool (b : bool)
| VNum (n : number)
| VStr (s : string)
| VArr (items : list jsval)
| VObj (props : list (string * jsval)).

Definition str_empty (s : string) : bool :=
  match s with EmptyString => true | _ => false end.

Definition num_truthy (n : number) : bool :=
  match n with
  | NaN => false
  | Infinity _ => true
  | Int z => negb (z =? 0)
  end.

(** [Number.isFinite] *)
Definition Number_isFinite (n : number) : bool :=
  match n with Int _ => true | _ => false end.

(** ToBoolean: what [if (v)], [!v], [v || w] and [v && w] test. *)
Definition truthy (v : jsval) : bool :=
  match v with
  | VUndefined | VNull => false
  | VBool b => b
  | VNum n => num_truthy n
  | VStr s => negb (str_empty s)
  | VArr _ | VObj _ => true
  end.

(** [a || b] *)
Definition js_or (a b : jsval) : jsval := if truthy a then a else b.

Inductive jstype : Type :=
| TUndefined | TObject | TBoolean | TNumber | TString.

(** [typeof v]; [typeof null] is ["object"], as is an array's. *)
Definition typeof (v : jsval) : jstype :=
  match v with
  | VUndefined => TUndefined
  | VNull | VArr _ | VObj _ => TObject
  | VBool _ => TBoolean
  | VNum _ => TNumber
  | VStr _ => TString
  end.

Definition is_string (v : jsval) : bool :=
  match v with VStr _ => true | _ => false end.

Definition is_object (v : jsval) : bool :=
  match typeof v with TObject => true | _ => false end.

(** ** White space and [trim]

    The white space and line terminator characters of ECMAScript, as UTF-8
    byte sequences. *)

Definition bytes (l : list nat) : list ascii := map ascii_of_nat l.

Definition white_space : list (list ascii) :=
  map bytes
    [ [9]; [10]; [11]; [12]; [13]; [32];
      [194; 160];
      [225; 154; 128];
      [226; 128; 128]; [226; 128; 129]; [226; 128; 130]; [226; 128; 131];
      [226; 128; 132]; [226; 128; 133]; [226; 128; 134]; [226; 128; 135];
      [226; 128; 136]; [226; 128; 137]; [226; 128; 138];
      [226; 128; 168]; [226; 128; 169]; [226; 128; 175];
      [226; 129; 159];
      [227; 128; 128];
      [239; 187; 191] ]%nat.

Fixpoint strip_prefix (p l : list ascii) : option (list ascii) :=
  match p, l with
  | [], _ => Some l
  | a :: p', b :: l' => if Ascii.eqb a b then strip_prefix p' l' else None
  | _ :: _, [] => None
  end.

Fixpoint strip_any (ps : list (list ascii)) (l : list ascii)
  : option (list ascii) :=
  match ps with
  | [] => None
  | p :: ps' =>
      match strip_prefix p l with
      | Some r => Some r
      | None => strip_any ps' l
      end
  end.

(** Drops leading occurrences of the sequences [ps]; every sequence has at
    least one byte, so [n] = length of [l] steps are enough. *)
Fixpoint strip_all (n : nat) (ps : list (list ascii)) (l : list ascii)
  : list ascii :=
  match n with
  | O => l
  | S n' =>
      match strip_any ps l with
      | Some r => strip_all n' ps r
      | None => l
      end
  end.

Definition trim_start (l : list ascii) : list ascii :=
  strip_all (List.length l) white_space l.

Definition trim_end (l : list ascii) : list ascii :=
  rev (strip_all (List.length l) (map (@rev ascii) white_space) (rev l)).

(** [s.trim()] *)
Definition trim (s : string) : string :=
  string_of_list_ascii (trim_end (trim_start (list_ascii_of_string s))).

(** [!s.trim()] *)
Definition blank (s : string) : bool := str_empty (trim s).

(** ** Conversions *)

(** The double next to an integer, ties to the even one: the integer
    itself below 2^53, Infinity from 2^1024 - 2^970 on. *)
Definition round_double (z : Z) : number :=
  let a := Z.abs z in
  if a <? 2 ^ 53 then Int z
  else
    let k := Z.log2 a - 52 in
    let q := a / 2 ^ k in
    let r := a mod 2 ^ k in
    let half := 2 ^ (k - 1) in
    let q' :=
      if r <? half then q
      else if half <? r then q + 1
      else if Z.even q then q else q + 1 in
    let v := q' * 2 ^ k in
    if 2 ^ 1024 <=? v then Infinity (z <? 0) else Int (Z.sgn z * v).

(** An integer that is a double. *)
Definition is_double (z : Z) : bool :=
  match round_double z with
  | Int v => v =? z
  | _ => false
  end.

(** An integer in decimal digits. *)
Definition decimal_string (z : Z) : string := NilZero.string_of_int (Z.to_int z).

(** [s * 10 ^ e] is a decimal form of the double [a]: it rounds to it. *)
Definition rounds_to (s e a : Z) : bool :=
  match round_double (s * 10 ^ e) with
  | Int v => v =? a
  | _ => false
  end.

(** The shortest decimal form of the double [a], which has [n] digits:
    the fewest digits [s], from [k] digits on, such that [s * 10 ^ e]
    rounds to [a]; of two such [s] the one next to [a], and the even one
    when they are as near.  Seventeen digits tell every double from the
    others. *)
Fixpoint shortest_digits (fuel : nat) (k a n : Z) : option (Z * Z) :=
  match fuel with
  | O => None
  | S fuel' =>
      let e := n - k in
      let lo := a / 10 ^ e in
      let hi := lo + 1 in
      let pick :=
        if rounds_to lo e a && rounds_to hi e a then
          if a - lo * 10 ^ e <? hi * 10 ^ e - a then Some lo
          else if hi * 10 ^ e - a <? a - lo * 10 ^ e then Some hi
          else if Z.even lo then Some lo else Some hi
        else if rounds_to lo e a then Some lo
        else if rounds_to hi e a then Some hi
        else None in
      match pick with
      | Some s => Some (if s =? 10 ^ k then (1, n) else (s, e))
      | None => shortest_digits fuel' (k + 1) a n
      end
  end.

(** The digits with a point after the first one *)
Definition mantissa (ds : string) : string :=
  match ds with
  | String c (String d rest) => String c (String "." (String d rest))
  | short => short
  end.

(** [s * 10 ^ e] written with an exponent: [d.ddde+x] *)
Definition exponent_form (s e : Z) : string :=
  let ds := decimal_string s in
  mantissa ds +:+ "e+" +:+ decimal_string (e + Z.of_nat (String.length ds) - 1).

(** [String(n)] for a number: decimal digits below 10^21, the shortest
    decimal form with an exponent from there on ([1e+21]).  (An integer
    that is not a double is no number of JavaScript; it is printed in
    decimal digits.) *)
Definition NumberToString (n : number) : string :=
  match n with
  | NaN => "NaN"
  | Infinity false => "Infinity"
  | Infinity true => "-Infinity"
  | Int z =>
      if Z.abs z <? 10 ^ 21 then decimal_string z
      else if is_double z then
        let a := Z.abs z in
        match
          shortest_digits 17 1 a (Z.of_nat (String.length (decimal_string a)))
        with
        | Some (s, e) => (if z <? 0 then "-" else "") +:+ exponent_form s e
        | None => decimal_string z
        end
      else decimal_string z
  end.


(** The characters [encodeURIComponent] keeps: letters, digits and
    [- _ . ! ~ * ' ( )]. *)
Definition unreserved (c : ascii) : bool :=
  let n := nat_of_ascii c in
  (Nat.leb 65 n && Nat.leb n 90) || (Nat.leb 97 n && Nat.leb n 122) ||
  (Nat.leb 48 n && Nat.leb n 57) ||
  existsb (Ascii.eqb c) ["-"; "_"; "."; "!"; "~"; "*"; "'"; "("; ")"]%char.

Definition percent_digit (n : nat) : ascii :=
  if Nat.ltb n 10 then ascii_of_nat (48 + n) else ascii_of_nat (55 + n).

(** [encodeURIComponent]: every other byte of the UTF-8 form becomes [%]
    and its two upper-case hexadecimal digits. *)
Fixpoint encodeURIComponent (s : string) : string :=
  match s with
  | EmptyString => EmptyString
  | String c rest =>
      if unreserved c then String c (encodeURIComponent rest)
      else
        String "%"
          (String (percent_digit (Nat.div (nat_of_ascii c) 16))
             (String (percent_digit (Nat.modulo (nat_of_ascii c) 16))
                (encodeURIComponent rest)))
  end.

Definition byte_value (c : ascii) : Z := Z.of_nat (nat_of_ascii c).

(** The value of a character as a digit of a base up to 36. *)
Definition digit_in (base : Z) (c : ascii) : option Z :=
  let n := byte_value c in
  let d :=
    if (48 <=? n) && (n <=? 57) then n - 48
    else if (97 <=? n) && (n <=? 122) then n - 87
    else if (65 <=? n) && (n <=? 90) then n - 55
    else 36 in
  if d <? base then Some d else None.

Fixpoint digits_in (base acc : Z) (l : list ascii) : option Z :=
  match l with
  | [] => Some acc
  | c :: rest =>
      match digit_in base c with
      | Some d => digits_in base (base * acc + d) rest
      | None => None
      end
  end.

(** One digit or more of the base, and nothing else. *)
Definition integer_in (base : Z) (l : list ascii) : option Z :=
  match l with
  | [] => None
  | _ => digits_in base 0 l
  end.

Definition is_decimal_digit (c : ascii) : bool :=
  match digit_in 10 c with Some _ => true | None => false end.

(** The decimal digits a list starts with, and what follows them. *)
Fixpoint span_digits (l : list ascii) : list ascii * list ascii :=
  match l with
  | [] => ([], [])
  | c :: rest =>
      if is_decimal_digit c
      then let (ds, r) := span_digits rest in (c :: ds, r)
      else ([], l)
  end.

(** The number a run of decimal digits denotes; 0 for the empty run. *)
Definition decimal (ds : list ascii) : Z :=
  match NilEmpty.uint_of_string (string_of_list_ascii ds) with
  | Some d => Z.of_uint d
  | None => 0
  end.

(** What a string denotes as a StringNumericLiteral. *)
Inductive numeral : Type :=
| Whole (z : Z)                 (* an integer *)
| Unbounded (negative : bool)   (* Infinity, or a number beyond every double *)
| Fraction                      (* a number that is not an integer *)
| NoNumeral.                    (* no number: NaN *)

Definition negated (v : numeral) : numeral :=
  match v with
  | Whole z => Whole (- z)
  | Unbounded b => Unbounded (negb b)
  | other => other
  end.

(** SignedInteger: decimal digits with an optional sign *)
Definition signed_integer (l : list ascii) : option Z :=
  let unsigned ds :=
    match ds with
    | [] => None
    | _ => if forallb is_decimal_digit ds then Some (decimal ds) else None
    end in
  match l with
  | "+"%char :: ds => unsigned ds
  | "-"%char :: ds => option_map Z.opp (unsigned ds)
  | ds => unsigned ds
  end.

(** What is left of a decimal literal after its digits: nothing, or an
    ExponentPart.  [None]: neither. *)
Definition exponent_part (l : list ascii) : option Z :=
  match l with
  | [] => Some 0
  | c :: r =>
      if Ascii.eqb c "e" || Ascii.eqb c "E" then signed_integer r else None
  end.

(** [m * 10 ^ e] for [m] written with [n] digits.  A number with an
    exponent above 400 is beyond every double. *)
Definition scaled (m e n : Z) : numeral :=
  if m =? 0 then Whole 0
  else if 0 <=? e then
    if 400 <? e then Unbounded false else Whole (m * 10 ^ e)
  else if n <? - e then Fraction
  else if m mod 10 ^ (- e) =? 0 then Whole (m / 10 ^ (- e))
  else Fraction.

(** StrUnsignedDecimalLiteral: [Infinity], or digits with an optional
    point and an optional exponent, at least one digit before or after
    the point. *)
Definition unsigned_decimal (l : list ascii) : numeral :=
  if String.eqb (string_of_list_ascii l) "Infinity" then Unbounded false
  else
    let (ip, r1) := span_digits l in
    let (fp, r2) :=
      match r1 with
      | "."%char :: r => span_digits r
      | _ => ([], r1)
      end in
    match (ip ++ fp)%list with
    | [] => NoNumeral
    | ds =>
        match exponent_part r2 with
        | Some e =>
            scaled (decimal ds) (e - Z.of_nat (List.length fp))
                   (Z.of_nat (List.length ds))
        | None => NoNumeral
        end
    end.

(** NonDecimalIntegerLiteral: [0x], [0o] or [0b] and digits of that
    base; it takes no sign. *)
Definition non_decimal (l : list ascii) : option Z :=
  match l with
  | "0"%char :: c :: ds =>
      if Ascii.eqb c "x" || Ascii.eqb c "X" then integer_in 16 ds
      else if Ascii.eqb c "o" || Ascii.eqb c "O" then integer_in 8 ds
      else if Ascii.eqb c "b" || Ascii.eqb c "B" then integer_in 2 ds
      else None
  | _ => None
  end.

(** StrNumericLiteral *)
Definition numeral_of (l : list ascii) : numeral :=
  match non_decimal l with
  | Some z => Whole z
  | None =>
      match l with
      | "+"%char :: r => unsigned_decimal r
      | "-"%char :: r => negated (unsigned_decimal r)
      | _ => unsigned_decimal l
      end
  end.

(** [Number(s)] for a string: white space is trimmed, the empty string is
    0, a literal that denotes an integer is that integer rounded to a
    double, and what is no literal is NaN.  A literal that denotes a
    fraction ([5.5]) has no number in this model and reads as NaN here;
    [Number_in_model] excludes it.  (A literal of more than 20 significant
    digits is rounded exactly, as the engines do.) *)
Definition StringToNumber (s : string) : number :=
  let t := trim s in
  if str_empty t then Int 0
  else
    match numeral_of (list_ascii_of_string t) with
    | Whole z => round_double z
    | Unbounded negative => Infinity negative
    | Fraction => NaN
    | NoNumeral => NaN
    end.

(** [Number(s)] is a number of the model, and [StringToNumber s] is it:
    [s] does not denote a fraction. *)
Definition Number_in_model (s : string) : bool :=
  match numeral_of (list_ascii_of_string (trim s)) with
  | Fraction => false
  | _ => true
  end.

Fixpoint join (sep : string) (l : list string) : string :=
  match l with
  | [] => ""
  | [x] => x
  | x :: rest => x +:+ sep +:+ join sep rest
  end.

(** [String(v)]: an array prints its elements joined by commas (null and
    undefined as nothing), any other object as ["[object Object]"]. *)
Fixpoint ToString (v : jsval) : string :=
  match v with
  | VUndefined => "undefined"
  | VNull => "null"
  | VBool true => "true"
  | VBool false => "false"
  | VNum n => NumberToString n
  | VStr s => s
  | VArr items =>
      join ","
        (map (fun x =>
                match x with
                | VUndefined | VNull => ""
                | _ => ToString x
                end) items)
  | VObj _ => "[object Object]"
  end.

(** [Number(v)] *)
Definition ToNumber (v : jsval) : number :=
  match v with
  | VUndefined => NaN
  | VNull => Int 0
  | VBool true => Int 1
  | VBool false => Int 0
  | VNum n => n
  | VStr s => StringToNumber s
  | VArr _ | VObj _ => StringToNumber (ToString v)
  end.

(** [Number(v)] is a number of the model, and [ToNumber v] is it. *)
Definition ToNumber_in_model (v : jsval) : bool :=
  match v with
  | VStr s => Number_in_model s
  | VArr _ | VObj _ => Number_in_model (ToString v)
  | _ => true
  end.

(** ** UTF-16 code units

    [length], [slice] and indexing count the UTF-16 code units of a
    string.  [code_units] decodes the UTF-8 form: a character beyond
    U+FFFF gives its two surrogates, a lone surrogate is carried in its
    three-byte form, and a byte that is not UTF-8 gives U+FFFD. *)

Definition continuation (c : ascii) : option Z :=
  let n := byte_value c in
  if (128 <=? n) && (n <? 192) then Some (n - 128) else None.

Fixpoint code_units (l : list ascii) : list Z :=
  match l with
  | [] => []
  | b0 :: r0 =>
      let n0 := byte_value b0 in
      if n0 <? 128 then n0 :: code_units r0
      else if n0 <? 194 then 65533 :: code_units r0
      else
        match r0 with
        | [] => [65533]
        | b1 :: r1 =>
            match continuation b1 with
            | None => 65533 :: code_units r0
            | Some c1 =>
                if n0 <? 224 then ((n0 - 192) * 64 + c1) :: code_units r1
                else
                  match r1 with
                  | [] => 65533 :: code_units r0
                  | b2 :: r2 =>
                      match continuation b2 with
                      | None => 65533 :: code_units r0
                      | Some c2 =>
                          if n0 <? 240 then
                            let cp := (n0 - 224) * 4096 + c1 * 64 + c2 in
                            if cp <? 2048 then 65533 :: code_units r0
                            else cp :: code_units r2
                          else
                            match r2 with
                            | [] => 65533 :: code_units r0
                            | b3 :: r3 =>
                                match continuation b3 with
                                | None => 65533 :: code_units r0
                                | Some c3 =>
                                    let cp :=
                                      (n0 - 240) * 262144 + c1 * 4096
                                      + c2 * 64 + c3 in
                                    if (cp <? 65536) || (1114111 <? cp)
                                    then 65533 :: code_units r0
                                    else
                                      (55296 + (cp - 65536) / 1024)
                                      :: (56320 + (cp - 65536) mod 1024)
                                      :: code_units r3
                                end
                            end
                      end
                  end
            end
        end
  end.

Definition byte_of (n : Z) : ascii := ascii_of_nat (Z.to_nat n).

(** The UTF-8 form of a sequence of code units. *)
Fixpoint units_bytes (l : list Z) : list ascii :=
  let three u :=
    [ byte_of (224 + u / 4096); byte_of (128 + (u / 64) mod 64);
      byte_of (128 + u mod 64) ] in
  match l with
  | [] => []
  | u :: rest =>
      if u <? 128 then byte_of u :: units_bytes rest
      else if u <? 2048 then
        byte_of (192 + u / 64) :: byte_of (128 + u mod 64) :: units_bytes rest
      else
        match rest with
        | v :: rest' =>
            if (55296 <=? u) && (u <? 56320) && (56320 <=? v) && (v <? 57344)
            then
              let cp := 65536 + (u - 55296) * 1024 + (v - 56320) in
              byte_of (240 + cp / 262144)
              :: byte_of (128 + (cp / 4096) mod 64)
              :: byte_of (128 + (cp / 64) mod 64)
              :: byte_of (128 + cp mod 64)
              :: units_bytes rest'
            else (three u ++ units_bytes rest)%list
        | [] => three u
        end
  end.

(** [s.slice(0, n)] *)
Definition slice_start (n : nat) (s : string) : string :=
  string_of_list_ascii
    (units_bytes (firstn n (code_units (list_ascii_of_string s)))).

Fixpoint assoc (k : string) (props : list (string * jsval)) : option jsval :=
  match props with
  | [] => None
  | (k', v) :: rest => if String.eqb k k' then Some v else assoc k rest
  end.

(** [v.k] for the property names this script reads ([title],
    [category_id], [id], [name], [detail]), none of which a prototype
    defines.  [None] is the TypeError of reading a property of null or
    undefined. *)
Definition get_prop (v : jsval) (k : string) : option jsval :=
  match v with
  | VUndefined | VNull => None
  | VObj props => Some (default VUndefined (assoc k props))
  | _ => Some VUndefined
  end.

(** [v?.k] *)
Definition get_opt (v : jsval) (k : string) : jsval :=
  default VUndefined (get_prop v k).

(** ** JSON *)

(** What [JSON.stringify] keeps of a value: a number that is not finite
    becomes null, an undefined array element becomes null, an undefined
    property is left out. *)
Fixpoint json_value (v : jsval) : jsval :=
  match v with
  | VUndefined => VNull
  | VNum (Int z) => VNum (Int z)
  | VNum _ => VNull
  | VArr items => VArr (map json_value items)
  | VObj props =>
      VObj
        ((fix go (l : list (string * jsval)) : list (string * jsval) :=
            match l with
            | [] => []
            | (k, VUndefined) :: rest => go rest
            | (k, x) :: rest => (k, json_value x) :: go rest
            end) props)
  | _ => v
  end.

Inductive text : Type :=
| Json (v : jsval)     (* a string that parses to [v] *)
| Plain (s : string).  (* a string that is not JSON *)

(** [JSON.stringify(v)] for a defined [v] *)
Definition JSON_stringify (v : jsval) : text := Json (json_value v).

(** [!raw] for a string: only the empty string is falsy. *)
Definition text_empty (t : text) : bool :=
  match t with
  | Plain s => str_empty s
  | Json _ => false
  end.

(** ** Exceptions and synchronous code *)

Record exn : Type := { name : string; message : string }.

Definition Error (msg : string) : exn := {| name := "Error"; message := msg |}.

(** The texts of the errors the engine itself raises are its own; the model
    gives each a fixed one. *)
Definition TypeError : exn :=
  {| name := "TypeError"; message := "Cannot read properties of null" |}.
Definition SyntaxError : exn :=
  {| name := "SyntaxError"; message := "Unexpected token in JSON" |}.
Definition SecurityError : exn :=
  {| name := "SecurityError"; message := "The operation is insecure" |}.
Definition QuotaExceededError : exn :=
  {| name := "QuotaExceededError"; message := "The quota has been exceeded" |}.

(** [String(e?.message || e)] for a thrown error object *)
Definition exn_text (e : exn) : string :=
  if str_empty (message e) then name e else message e.

Inductive completion (A : Type) : Type :=
| Normal (a : A)
| Throw (e : exn).
Arguments Normal {A} a.
Arguments Throw {A} e.

(** [JSON.parse(t)] *)
Definition JSON_parse (t : text) : completion jsval :=
  match t with
  | Json v => Normal v
  | Plain _ => Throw SyntaxError
  end.

End JS.
Import JS.

(** ** The page *)

(** One Web Storage area.  [denied]: every access raises (storage disabled
    for the page); [full]: [setItem] raises, reads and removals work. *)
Record tier : Type := {
  denied : bool;
  full : bool;
  items : gmap string text
}.

(** The category [<select>]: the values of its options in document order
    and the index of the selected one. *)
Record select : Type := {
  options : list string;
  selectedIndex : option nat
}.

Record page : Type := {
  recipeId : number;            (* Number(qs.get("recipe_id") || 0), a const *)
  tg : option string;           (* initData of window.Telegram?.WebApp, if any *)
  clock : Z;                    (* what Date.now() returns *)
  hidden : bool;                (* document.hidden *)
  title_value : string;         (* $title.value *)
  category : select;            (* $category *)
  busy : bool;                  (* $save.disabled, set by setBusy *)
  err_text : string;            (* $err.textContent *)
  ok_text : string;             (* $ok.textContent *)
  sessionStorage : tier;
  localStorage : tier;
  location_href : option string;   (* the URL assigned to location.href, if any *)
  sent : list text;             (* payloads given to tg.sendData *)
  close_scheduled : bool        (* setTimeout(() => tg?.close(), 350) was called *)
}.

Definition set_title (v : string) (s : page) : page :=
  {| recipeId := recipeId s; tg := tg s; clock := clock s; hidden := hidden s;
     title_value := v; category := category s; busy := busy s;
     err_text := err_text s; ok_text := ok_text s;
     sessionStorage := sessionStorage s; localStorage := localStorage s;
     location_href := location_href s; sent := sent s;
     close_scheduled := close_scheduled s |}.

Definition set_category (c : select) (s : page) : page :=
  {| recipeId := recipeId s; tg := tg s; clock := clock s; hidden := hidden s;
     title_value := title_value s; category := c; busy := busy s;
     err_text := err_text s; ok_text := ok_text s;
     sessionStorage := sessionStorage s; localStorage := localStorage s;
     location_href := location_href s; sent := sent s;
     close_scheduled := close_scheduled s |}.

Definition set_busy (b : bool) (s : page) : page :=
  {| recipeId := recipeId s; tg := tg s; clock := clock s; hidden := hidden s;
     title_value := title_value s; category := category s; busy := b;
     err_text := err_text s; ok_text := ok_text s;
     sessionStorage := sessionStorage s; localStorage := localStorage s;
     location_href := location_href s; sent := sent s;
     close_scheduled := close_scheduled s |}.

Definition set_messages (e o : string) (s : page) : page :=
  {| recipeId := recipeId s; tg := tg s; clock := clock s; hidden := hidden s;
     title_value := title_value s; category := category s; busy := busy s;
     err_text := e; ok_text := o;
     sessionStorage := sessionStorage s; localStorage := localStorage s;
     location_href := location_href s; sent := sent s;
     close_scheduled := close_scheduled s |}.

Definition set_session (t : tier) (s : page) : page :=
  {| recipeId := recipeId s; tg := tg s; clock := clock s; hidden := hidden s;
     title_value := title_value s; category := category s; busy := busy s;
     err_text := err_text s; ok_text := ok_text s;
     sessionStorage := t; localStorage := localStorage s;
     location_href := location_href s; sent := sent s;
     close_scheduled := close_scheduled s |}.

Definition set_local (t : tier) (s : page) : page :=
  {| recipeId := recipeId s; tg := tg s; clock := clock s; hidden := hidden s;
     title_value := title_value s; category := category s; busy := busy s;
     err_text := err_text s; ok_text := ok_text s;
     sessionStorage := sessionStorage s; localStorage := t;
     location_href := location_href s; sent := sent s;
     close_scheduled := close_scheduled s |}.

Definition set_location (u : string) (s : page) : page :=
  {| recipeId := recipeId s; tg := tg s; clock := clock s; hidden := hidden s;
     title_value := title_value s; category := category s; busy := busy s;
     err_text := err_text s; ok_text := ok_text s;
     sessionStorage := sessionStorage s; localStorage := localStorage s;
     location_href := Some u; sent := sent s;
     close_scheduled := close_scheduled s |}.

Definition set_sent (l : list text) (s : page) : page :=
  {| recipeId := recipeId s; tg := tg s; clock := clock s; hidden := hidden s;
     title_value := title_value s; category := category s; busy := busy s;
     err_text := err_text s; ok_text := ok_text s;
     sessionStorage := sessionStorage s; localStorage := localStorage s;
     location_href := location_href s; sent := l;
     close_scheduled := close_scheduled s |}.

Definition set_close_scheduled (s : page) : page :=
  {| recipeId := recipeId s; tg := tg s; clock := clock s; hidden := hidden s;
     title_value := title_value s; category := category s; busy := busy s;
     err_text := err_text s; ok_text := ok_text s;
     sessionStorage := sessionStorage s; localStorage := localStorage s;
     location_href := location_href s; sent := sent s;
     close_scheduled := true |}.

(** ** The monad of synchronous code: state and exceptions *)

Definition sync (A : Type) : Type := page -> completion A * page.

Definition ret {A} (a : A) : sync A := fun s => (Normal a, s).

Definition throw {A} (e : exn) : sync A := fun s => (Throw e, s).

Definition bind {A B} (m : sync A) (f : A -> sync B) : sync B :=
  fun s =>
    match m s with
    | (Normal a, s') => f a s'
    | (Throw e, s') => (Throw e, s')
    end.

(** [try { m } catch (e) { h e }] *)
Definition try_catch {A} (m : sync A) (h : exn -> sync A) : sync A :=
  fun s =>
    match m s with
    | (Normal a, s') => (Normal a, s')
    | (Throw e, s') => h e s'
    end.

Definition get : sync page := fun s => (Normal s, s).

Definition modify (f : page -> page) : sync unit := fun s => (Normal tt, f s).

Definition lift {A} (c : completion A) : sync A := fun s => (c, s).

Declare Scope js_scope.
Delimit Scope js_scope with js.
Notation "'let*' x ':=' m 'in' k" := (bind m (fun x => k))
  (at level 10, x name, m at level 100, k at level 200) : js_scope.
Notation "m ;; k" := (bind m (fun _ => k))
  (at level 100, k at level 200, right associativity) : js_scope.
Local Open Scope js_scope.

(** [if (c) body] *)
Definition when (c : bool) (body : sync unit) : sync unit :=
  if c then body else ret tt.

(** [v.k], raising the TypeError of a null or undefined [v] *)
Definition prop (v : jsval) (k : string) : sync jsval :=
  match get_prop v k with
  | Some x => ret x
  | None => throw TypeError
  end.

(** ** Web Storage *)

Inductive store : Type := Session | Local.

Definition tier_of (w : store) (s : page) : tier :=
  match w with
  | Session => sessionStorage s
  | Local => localStorage s
  end.

Definition set_tier (w : store) (t : tier) (s : page) : page :=
  match w with
  | Session => set_session t s
  | Local => set_local t s
  end.

Definition with_items (m : gmap string text) (t : tier) : tier :=
  {| denied := denied t; full := full t; items := m |}.

(** [storage.getItem(key)]; [None] is null. *)
Definition getItem (w : store) (key : string) : sync (option text) :=
  fun s =>
    let t := tier_of w s in
    if denied t then (Throw SecurityError, s)
    else (Normal (items t !! key), s).

(** [storage.setItem(key, val)] *)
Definition setItem (w : store) (key : string) (val : text) : sync unit :=
  fun s =>
    let t := tier_of w s in
    if denied t then (Throw SecurityError, s)
    else if full t then (Throw QuotaExceededError, s)
    else (Normal tt, set_tier w (with_items (<[key := val]> (items t)) t) s).

(** [storage.removeItem(key)] *)
Definition removeItem (w : store) (key : string) : sync unit :=
  fun s =>
    let t := tier_of w s in
    if denied t then (Throw SecurityError, s)
    else (Normal tt, set_tier w (with_items (delete key (items t)) t) s).

(** ** The draft store (source lines 203-285) *)

(** [draftKey], source lines 203-205 *)
Definition draftKey : sync string :=
  let* s := get in
  ret ("sm_draft_recipe_" +:+ NumberToString (recipeId s)).

(** [storageGet], source lines 207-217: the first [try] returns what the
    tab-scoped tier gives unless that is null; a null or an exception leads
    on to the durable tier. *)
Definition storageGet (key : string) : sync (option text) :=
  let* v := try_catch (getItem Session key) (fun _ => ret None) in
  match v with
  | Some t => ret (Some t)
  | None => try_catch (getItem Local key) (fun _ => ret None)
  end.

(** [storageSet], source lines 219-222 *)
Definition storageSet (key : string) (val : text) : sync unit :=
  try_catch (setItem Session key val) (fun _ => ret tt) ;;
  try_catch (setItem Local key val) (fun _ => ret tt).

(** [storageRemove], source lines 224-227 *)
Definition storageRemove (key : string) : sync unit :=
  try_catch (removeItem Session key) (fun _ => ret tt) ;;
  try_catch (removeItem Local key) (fun _ => ret tt).

(** [readDraft], source lines 229-239: the stored draft object, or [VNull]
    for "no draft". *)
Definition readDraft : sync jsval :=
  try_catch
    (let* key := draftKey in
     let* raw := storageGet key in
     match raw with
     | None => ret VNull
     | Some t =>
         if text_empty t then ret VNull
         else
           let* v := lift (JSON_parse t) in
           if negb (truthy v) || negb (is_object v) then ret VNull
           else ret v
     end)
    (fun _ => ret VNull).

(** The value of a select: that of its selected option, or the empty
    string when none is selected. *)
Definition select_value (c : select) : string :=
  match selectedIndex c with
  | Some i => nth i (options c) ""
  | None => ""
  end.

Fixpoint index_of (v : string) (l : list string) : option nat :=
  match l with
  | [] => None
  | x :: rest =>
      if String.eqb x v then Some O
      else option_map S (index_of v rest)
  end.

(** [select.value = v]: the first option with that value becomes the
    selected one; when there is none, no option is selected. *)
Definition select_assign (v : string) (c : select) : select :=
  {| options := options c; selectedIndex := index_of v (options c) |}.

(** [Array.from(select.options || []).some(o => String(o.value) === v)] *)
Definition has_option (v : string) (c : select) : bool :=
  existsb (fun o => String.eqb o v) (options c).

(** [($title?.value || "").trim()], the title as [writeDraft], [save],
    [putDraftToRedis] and the return handlers read it. *)
Definition form_title (s : page) : string :=
  trim (ToString (js_or (VStr (title_value s)) (VStr ""))).

(** [Number($category?.value || 0)] *)
Definition form_category (s : page) : number :=
  ToNumber (js_or (VStr (select_value (category s))) (VNum (Int 0))).

(** [restoreDraftIntoForm], source lines 241-255 *)
Definition restoreDraftIntoForm : sync unit :=
  let* d := readDraft in
  if negb (truthy d) then ret tt
  else
    let* t := prop d "title" in
    when (is_string t && negb (blank (ToString t)))
      (modify (set_title (ToString t))) ;;
    let* c := prop d "category_id" in
    let draftCat := ToNumber (js_or c (VNum (Int 0))) in
    when (num_truthy draftCat)
      (let* s := get in
       let has := has_option (NumberToString draftCat) (category s) in
       when has
         (modify (fun s =>
            set_category (select_assign (NumberToString draftCat) (category s)) s))).

(** [writeDraft], source lines 257-281.  [VObj []] is the [{}] that stands
    in for [prev] on a page without draft. *)
Definition writeDraft : sync unit :=
  try_catch
    (let* s := get in
     if negb (num_truthy (recipeId s)) then ret tt
     else
       let* d := readDraft in
       let prev := js_or d (VObj []) in
       let titleNow := form_title s in
       let categoryIdNow := form_category s in
       let* pt := prop prev "title" in
       let title :=
         if negb (str_empty titleNow) then titleNow
         else if is_string pt && negb (blank (ToString pt)) then ToString pt
         else "" in
       let* pc := prop prev "category_id" in
       let category_id :=
         if Number_isFinite categoryIdNow && num_truthy categoryIdNow
         then categoryIdNow
         else
           let n := ToNumber (js_or pc (VNum (Int 0))) in
           if num_truthy n then n else Int 0 in
       let* key := draftKey in
       let* s' := get in
       storageSet key
         (JSON_stringify
            (VObj [ ("title", VStr title);
                    ("category_id", VNum category_id);
                    ("ts", VNum (Int (clock s'))) ])))
    (fun _ => ret tt).

(** [clearDraft], source lines 283-285 *)
Definition clearDraft : sync unit :=
  let* key := draftKey in
  storageRemove key.

(** ** Messages and the busy flag (source lines 387-400) *)

Definition setErr (msg : string) : sync unit := modify (set_messages msg "").

Definition setOk (msg : string) : sync unit := modify (set_messages "" msg).

Definition setBusy (isBusy : bool) : sync unit := modify (set_busy isBusy).

(** ** Network exchanges and asynchronous code *)

Inductive method : Type := GET | PUT | PATCH.

(** A [fetch] of [/api/webapp] ++ path.  [req_initData] is the value of the
    [X-TG-INIT-DATA] header, sent when it is not empty; the two constant
    headers are left out. *)
Record request : Type := {
  req_method : method;
  req_path : string;
  req_body : option text;
  req_initData : string
}.

(** What comes back: [fetch] or [res.text()] rejects, or a response with
    its status, its content-type header and its body. *)
Inductive reply : Type :=
| Failed (e : exn)
| Response (status : Z) (content_type : option string) (body : text).

(** What a suspended function waits for: one exchange, or the two that
    [Promise.all] started together. *)
Inductive wait : Type :=
| Fetch (r : request)
| FetchBoth (r1 r2 : request).

(** The answers to the two requests of a [Promise.all], and which of the
    two promises settled first. *)
Record both : Type := {
  of_first : reply;
  of_second : reply;
  second_settled_first : bool
}.

Definition answer (w : wait) : Type :=
  match w with
  | Fetch _ => reply
  | FetchBoth _ _ => both
  end.

(** A started [async] function: it has settled, or it waits for an answer
    and continues from the state the page has by then. *)
Inductive run (A : Type) : Type :=
| Finished (c : completion A) (s : page)
| Suspended (w : wait) (s : page) (k : answer w -> page -> run A).
Arguments Finished {A} c s.
Arguments Suspended {A} w s k.

Definition task (A : Type) : Type := page -> run A.

Definition now {A} (m : sync A) : task A :=
  fun s => let (c, s') := m s in Finished c s'.

Fixpoint run_bind {A B} (r : run A) (f : A -> task B) : run B :=
  match r with
  | Finished (Normal a) s => f a s
  | Finished (Throw e) s => Finished (Throw e) s
  | Suspended w s k => Suspended w s (fun a s' => run_bind (k a s') f)
  end.

Fixpoint run_catch {A} (r : run A) (h : exn -> task A) : run A :=
  match r with
  | Finished (Normal a) s => Finished (Normal a) s
  | Finished (Throw e) s => h e s
  | Suspended w s k => Suspended w s (fun a s' => run_catch (k a s') h)
  end.

(** [p.finally(cb)]: [cb] runs once [p] has settled, whichever way, and
    the outcome of [p] stands unless [cb] itself throws. *)
Fixpoint run_finally {A} (r : run A) (cb : task unit) : run A :=
  match r with
  | Finished c s => run_bind (cb s) (fun _ s' => Finished c s')
  | Suspended w s k => Suspended w s (fun a s' => run_finally (k a s') cb)
  end.

(** [await m] followed by [f] *)
Definition await {A B} (m : task A) (f : A -> task B) : task B :=
  fun s => run_bind (m s) f.

(** [try { await m } catch (e) { h e }] and [m.catch(h)] *)
Definition acatch {A} (m : task A) (h : exn -> task A) : task A :=
  fun s => run_catch (m s) h.

Definition afinally {A} (m : task A) (cb : task unit) : task A :=
  fun s => run_finally (m s) cb.

Declare Scope task_scope.
Delimit Scope task_scope with task.
Notation "'let!' x ':=' m 'in' k" := (await m (fun x => k))
  (at level 10, x name, m at level 100, k at level 200) : task_scope.
Notation "m ;;; k" := (await m (fun _ => k))
  (at level 100, k at level 200, right associativity) : task_scope.

(** Feeds the answers to a run one exchange after the other, no other
    handler touching the page in between; of two requests started
    together the first is answered first.  Returns how the run settled and
    the requests it made, or [None] when the answers run out. *)
Fixpoint drive {A} (r : run A) (answers : list reply)
  : option (completion A * page * list request) :=
  match r with
  | Finished c s => Some (c, s, [])
  | Suspended (Fetch q) s k =>
      match answers with
      | a :: rest =>
          match drive (k a s) rest with
          | Some (c, s', qs) => Some (c, s', q :: qs)
          | None => None
          end
      | [] => None
      end
  | Suspended (FetchBoth q1 q2) s k =>
      match answers with
      | a1 :: a2 :: rest =>
          match drive (k {| of_first := a1; of_second := a2;
                            second_settled_first := false |} s) rest with
          | Some (c, s', qs) => Some (c, s', q1 :: q2 :: qs)
          | None => None
          end
      | _ => None
      end
  end.

(** ** [api] (source lines 402-426) *)

Definition lower_ascii (c : ascii) : ascii :=
  let n := nat_of_ascii c in
  if (Nat.leb 65 n && Nat.leb n 90)%bool then ascii_of_nat (n + 32) else c.

(** The second byte of a capital letter from U+00C0 to U+00DE *)
Definition latin_capital (c : ascii) : bool :=
  let n := nat_of_ascii c in
  (Nat.leb 128 n && Nat.leb n 158 && negb (Nat.eqb n 151))%bool.

(** [toLowerCase] for the value of a header, whose characters are below
    U+0100: the letters A to Z and the capital letters from U+00C0 to
    U+00DE (the sign U+00D7 is no letter). *)
Fixpoint toLowerCase (s : string) : string :=
  match s with
  | EmptyString => EmptyString
  | String c r =>
      match r with
      | String d r' =>
          if (Nat.eqb (nat_of_ascii c) 195 && latin_capital d)%bool
          then String c (String (ascii_of_nat (nat_of_ascii d + 32)) (toLowerCase r'))
          else String (lower_ascii c) (toLowerCase r)
      | EmptyString => String (lower_ascii c) EmptyString
      end
  end.

Definition quote : string := String (ascii_of_nat 34) "".

Definition backslash : string := String (ascii_of_nat 92) "".

Definition hex_digit (n : nat) : string :=
  String (ascii_of_nat (if Nat.ltb n 10 then 48 + n else 87 + n)) "".

Definition escape_char (c : ascii) : string :=
  let n := nat_of_ascii c in
  if Nat.eqb n 34 then backslash +:+ quote
  else if Nat.eqb n 92 then backslash +:+ backslash
  else if Nat.eqb n 8 then backslash +:+ "b"
  else if Nat.eqb n 9 then backslash +:+ "t"
  else if Nat.eqb n 10 then backslash +:+ "n"
  else if Nat.eqb n 12 then backslash +:+ "f"
  else if Nat.eqb n 13 then backslash +:+ "r"
  else if Nat.ltb n 32 then
    backslash +:+ "u00" +:+ hex_digit (n / 16) +:+ hex_digit (n mod 16)
  else String c "".

Fixpoint escape (s : string) : string :=
  match s with
  | EmptyString => EmptyString
  | String c r => escape_char c +:+ escape r
  end.

Definition quoted (s : string) : string := quote +:+ escape s +:+ quote.

(** The characters of a JSON text, in the compact form [JSON.stringify]
    writes. *)
Fixpoint json_string (v : jsval) : string :=
  match v with
  | VUndefined | VNull => "null"
  | VBool true => "true"
  | VBool false => "false"
  | VNum (Int z) => NumberToString (Int z)
  | VNum _ => "null"
  | VStr s => quoted s
  | VArr items => "[" +:+ join "," (map json_string items) +:+ "]"
  | VObj props =>
      "{" +:+
      join ","
        ((fix go (l : list (string * jsval)) : list string :=
            match l with
            | [] => []
            | (k, x) :: rest => (quoted k +:+ ":" +:+ json_string x) :: go rest
            end) props)
      +:+ "}"
  end.

(** The characters of a text.  Of a JSON text the model keeps the value
    only; its characters are given in compact form, whatever form the
    text arrived in. *)
Definition text_string (t : text) : string :=
  match t with
  | Plain s => s
  | Json v => json_string v
  end.

(** [res.ok] *)
Definition res_ok (status : Z) : bool := (200 <=? status) && (status <=? 299).

Definition api_request (path : string) (m : method) (body : option text)
  (s : page) : request :=
  {| req_method := m;
     req_path := "/api/webapp" +:+ path;
     req_body := body;
     req_initData := default "" (tg s) |}.

(** The part of [api] after the two awaits: from the response to the value
    returned or the error thrown.  In one case the message of the error
    is the body as it was received: a status outside 200..299 with a JSON
    body that has no truthy [detail]; the message is then the body in
    compact form here ([body_is_the_message] names the case). *)
Definition api_result (r : reply) : completion jsval :=
  match r with
  | Failed e => Throw e
  | Response status content_type body =>
      let st := NumberToString (Int status) in
      let ct := toLowerCase (default "" content_type) in
      match (if text_empty body then Normal VNull else JSON_parse body) with
      | Throw _ =>
          let preview := slice_start 400 (text_string body) in
          Throw (Error ("Non-JSON response (" +:+ st +:+ ", " +:+
                        (if str_empty ct then "no-ct" else ct) +:+ "): " +:+
                        preview))
      | Normal json =>
          if negb (res_ok status) then
            let detail :=
              js_or (js_or (get_opt json "detail") (VStr (text_string body)))
                    (VStr ("HTTP " +:+ st)) in
            Throw (Error (ToString detail))
          else
            match json with
            | VNull | VUndefined =>
                Throw (Error ("Empty JSON response (HTTP " +:+ st +:+ ")"))
            | _ => Normal json
            end
      end
  end.

(** The answers for which [api] throws an error whose message is the
    body as received. *)
Definition body_is_the_message (r : reply) : bool :=
  match r with
  | Response status _ (Json json) =>
      negb (res_ok status) && negb (truthy (get_opt json "detail"))
  | _ => false
  end.

Definition api (path : string) (m : method) (body : option text) : task jsval :=
  fun s =>
    Suspended (Fetch (api_request path m body s)) s
      (fun r s' => Finished (api_result r) s').

(** [Promise.all([api(p1), api(p2)])] with two GETs: both requests leave
    before either answer is looked at.  It gives both values when both
    calls return, and otherwise the error of the call that failed, of the
    one that failed first when both did. *)
Definition api_all (p1 p2 : string) : task (jsval * jsval) :=
  fun s =>
    Suspended (FetchBoth (api_request p1 GET None s) (api_request p2 GET None s)) s
      (fun a s' =>
         match api_result (of_first a), api_result (of_second a) with
         | Normal x, Normal y => Finished (Normal (x, y)) s'
         | Throw e, Normal _ => Finished (Throw e) s'
         | Normal _, Throw e => Finished (Throw e) s'
         | Throw e1, Throw e2 =>
             Finished (Throw (if second_settled_first a then e2 else e1)) s'
         end).

Local Open Scope task_scope.

(** ** The remote draft (source lines 287-318) *)

Definition draft_path (s : page) : string :=
  "/recipes/" +:+ NumberToString (recipeId s) +:+ "/draft".

(** [putDraftToRedis], source lines 287-299 *)
Definition putDraftToRedis : task unit :=
  acatch
    (fun s =>
       let n := form_category s in
       let body :=
         JSON_stringify
           (VObj [ ("title", VStr (form_title s));
                   ("category_id", if num_truthy n then VNum n else VNull) ]) in
       (api (draft_path s) PUT (Some body) ;;; now (ret tt)) s)
    (fun _ => now (ret tt)).

(** [getDraftFromRedis], source lines 301-307 *)
Definition getDraftFromRedis : task jsval :=
  acatch
    (fun s => api (draft_path s) GET None s)
    (fun _ => now (ret VNull)).

(** [restoreDraftFromRedisIntoForm], source lines 309-318 *)
Definition restoreDraftFromRedisIntoForm : task unit :=
  let! d := getDraftFromRedis in
  now
    (if negb (truthy d) then ret tt
     else
       let* t := prop d "title" in
       when (is_string t && negb (blank (ToString t)))
         (modify (set_title (ToString t))) ;;
       let* c := prop d "category_id" in
       let cid := ToNumber (js_or c (VNum (Int 0))) in
       when (num_truthy cid)
         (let* s := get in
          let has := has_option (NumberToString cid) (category s) in
          when has
            (modify (fun s =>
               set_category (select_assign (NumberToString cid) (category s)) s)))).

(** ** [load] (source lines 428-463) *)

(** [select.appendChild(opt)] for a drop-down: while no option is
    selected, the first one inserted becomes the selected one. *)
Definition append_option (v : string) (c : select) : select :=
  {| options := options c ++ [v];
     selectedIndex :=
       match selectedIndex c with
       | Some i => Some i
       | None => Some (List.length (options c))
       end |}.

(** The body of [for (const c of cats)]: [opt.value = String(c.id)];
    [opt.textContent = c.name] is not kept. *)
Fixpoint append_categories (cats : list jsval) : sync unit :=
  match cats with
  | [] => ret tt
  | c :: rest =>
      let* id := prop c "id" in
      let* _ := prop c "name" in
      modify (fun s => set_category (append_option (ToString id) (category s)) s) ;;
      append_categories rest
  end.

Definition recipe_path (s : page) : string :=
  "/recipes/" +:+ NumberToString (recipeId s).

(** [tg.ready()], [tg.expand()] and [applyThemeParams] only touch the host
    window and the style of the root element; they leave the [page] as it
    is. *)
Definition load : task unit :=
  fun s0 =>
    (if negb (num_truthy (recipeId s0)) then
       now (throw (Error "Нет recipe_id в URL"))
     else if str_empty (default "" (tg s0)) then
       now (throw (Error "Откройте это окно из Telegram (WebApp initData отсутствует)"))
     else
       now (setBusy true) ;;;
       let! both := api_all "/categories" (recipe_path s0) in
       let cats := fst both in
       let recipe := snd both in
       now (setBusy false) ;;;
       match cats with
       | VArr items =>
           now
             (modify (set_category {| options := []; selectedIndex := None |}) ;;
              append_categories items ;;
              let* t := prop recipe "title" in
              modify (set_title (ToString (js_or t (VStr "")))) ;;
              let* c := prop recipe "category_id" in
              modify (fun s => set_category (select_assign (ToString c) (category s)) s) ;;
              restoreDraftIntoForm) ;;;
           restoreDraftFromRedisIntoForm ;;;
           now
             (let* d := readDraft in
              when (negb (truthy d)) writeDraft)
       | _ => now (throw (Error "categories: expected array"))
       end) s0.

(** ** [save] (source lines 465-490) *)

Definition save : task unit :=
  now (setErr "" ;; setOk "" ;; setBusy true) ;;;
  fun s =>
    let title := form_title s in
    let categoryId := form_category s in
    (if str_empty title then now (throw (Error "Название не может быть пустым"))
     else if negb (num_truthy categoryId) then now (throw (Error "Выберите категорию"))
     else
       api (recipe_path s) PATCH
         (Some (JSON_stringify
                  (VObj [ ("title", VStr title);
                          ("category_id", VNum categoryId) ]))) ;;;
       now
         (clearDraft ;;
          modify (fun s =>
            match tg s with
            | Some _ =>
                set_sent
                  (sent s ++
                   [JSON_stringify
                      (VObj [ ("type", VStr "recipe_updated");
                              ("recipe_id", VNum (recipeId s)) ])]) s
            | None => s
            end) ;;
          setOk "Сохранено" ;;
          modify set_close_scheduled)) s.

(** ** Event handlers (source lines 492-534) *)

Definition sibling_url (page_name : string) (s : page) : string :=
  "/webapp/" +:+ page_name +:+ "?recipe_id="
  +:+ encodeURIComponent (NumberToString (recipeId s)).

Definition navigate (page_name : string) : sync unit :=
  modify (fun s => set_location (sibling_url page_name s) s).

Definition on_btnDesc_click : task unit :=
  now writeDraft ;;;
  putDraftToRedis ;;;
  now (navigate "edit-description.html").

Definition on_btnIng_click : task unit :=
  now writeDraft ;;;
  putDraftToRedis ;;;
  now (navigate "edit-ingredients.html").

Definition on_save_click : task unit :=
  afinally
    (acatch save (fun e => now (setErr (exn_text e))))
    (now (setBusy false)).

(** [!($title?.value || "").trim()] *)
Definition title_is_blank (s : page) : bool := str_empty (form_title s).

(** The escalation both return handlers share: the remote overlay, and
    once it has settled a new [load] when the title is still blank.  The
    [load] started in the callback is not awaited by anything; its errors
    are dropped. *)
Definition escalate : task unit :=
  fun s =>
    (if title_is_blank s then
       afinally restoreDraftFromRedisIntoForm
         (fun s' =>
            (if title_is_blank s' then acatch load (fun _ => now (ret tt))
             else now (ret tt)) s')
     else now (ret tt)) s.

Definition on_pageshow : task unit :=
  now restoreDraftIntoForm ;;;
  escalate.

Definition on_visibilitychange : task unit :=
  fun s =>
    (if hidden s then now (ret tt)
     else now restoreDraftIntoForm ;;; escalate) s.

Definition on_title_input : task unit := now writeDraft.
Definition on_category_change : task unit := now writeDraft.
Definition on_pagehide : task unit := now writeDraft.

(** The last statement of the script. *)
Definition on_start : task unit :=
  afinally
    (acatch load (fun e => now (setErr (exn_text e))))
    (now (setBusy false)).

(** ** What the functions compute, as plain functions of the page

    These definitions are used to state the theorems below; each is tied
    to the function of the script it describes by a lemma. *)

Definition draft_key (s : page) : string :=
  "sm_draft_recipe_" +:+ NumberToString (recipeId s).

(** What [getItem] gives when it does not raise. *)
Definition tier_get (t : tier) (key : string) : option text :=
  if denied t then None else items t !! key.

(** The raw string [storageGet(draftKey())] returns. *)
Definition stored_raw (s : page) : option text :=
  match tier_get (sessionStorage s) (draft_key s) with
  | Some t => Some t
  | None => tier_get (localStorage s) (draft_key s)
  end.

(** A raw string is a draft when it parses to a non-null object. *)
Definition draft_of_raw (raw : option text) : jsval :=
  match raw with
  | Some (Json v) => if truthy v && is_object v then v else VNull
  | _ => VNull
  end.

Definition stored_draft (s : page) : jsval := draft_of_raw (stored_raw s).

(** A tier takes a write when it is neither denied nor full. *)
Definition writable (t : tier) : bool := negb (denied t) && negb (full t).

Definition tier_put (key : string) (val : text) (t : tier) : tier :=
  if writable t then with_items (<[key := val]> (items t)) t else t.

Definition tier_remove (key : string) (t : tier) : tier :=
  if denied t then t else with_items (delete key (items t)) t.

Definition put_both (key : string) (val : text) (s : page) : page :=
  set_local (tier_put key val (localStorage s))
    (set_session (tier_put key val (sessionStorage s)) s).

Definition remove_both (key : string) (s : page) : page :=
  set_local (tier_remove key (localStorage s))
    (set_session (tier_remove key (sessionStorage s)) s).

(** The overlay of a draft onto the form: the title when the draft has a
    non-blank string there, the category when the draft's id is truthy and
    one of the options carries it. *)
Definition overlay_title (d : jsval) (cur : string) : string :=
  match get_opt d "title" with
  | VStr t => if blank t then cur else t
  | _ => cur
  end.

Definition draft_category (d : jsval) : number :=
  ToNumber (js_or (get_opt d "category_id") (VNum (Int 0))).

Definition overlay_category (d : jsval) (c : select) : select :=
  let n := draft_category d in
  if num_truthy n && has_option (NumberToString n) c
  then select_assign (NumberToString n) c
  else c.

Definition overlay (d : jsval) (s : page) : page :=
  if truthy d
  then set_category (overlay_category d (category s))
         (set_title (overlay_title d (title_value s)) s)
  else s.

(** What [getDraftFromRedis] makes of an answer. *)
Definition remote_draft (r : reply) : jsval :=
  match api_result r with
  | Normal v => v
  | Throw _ => VNull
  end.

(** The title and the category id [writeDraft] stores, from the form and
    the previous draft. *)
Definition merged_title (s : page) (prev : jsval) : string :=
  if negb (str_empty (form_title s)) then form_title s
  else
    match get_opt prev "title" with
    | VStr t => if blank t then "" else t
    | _ => ""
    end.

Definition merged_category (s : page) (prev : jsval) : number :=
  if Number_isFinite (form_category s) && num_truthy (form_category s)
  then form_category s
  else if num_truthy (draft_category prev) then draft_category prev else Int 0.

Definition draft_object (title : string) (category_id : number) (ts : Z) : jsval :=
  VObj [ ("title", VStr title);
         ("category_id", VNum category_id);
         ("ts", VNum (Int ts)) ].

(** Where the page has been sent when a started function first stops:
    the URL assigned to [location.href] by the time the function has
    settled or waits for its first answer. *)
Definition location_at_first_stop {A} (r : run A) : option string :=
  match r with
  | Finished _ s => location_href s
  | Suspended _ s _ => location_href s
  end.

(** The page after the statements of [save] that follow a successful PATCH. *)
Definition after_save (s : page) : page :=
  let s1 := remove_both (draft_key s) s in
  let s2 :=
    match tg s1 with
    | Some _ =>
        set_sent
          (sent s1 ++
           [JSON_stringify
              (VObj [ ("type", VStr "recipe_updated");
                      ("recipe_id", VNum (recipeId s1)) ])]) s1
    | None => s1
    end in
  set_close_scheduled (set_messages "" "Сохранено" s2).

(** The page after the first three statements of [save]. *)
Definition save_started (s : page) : page :=
  set_busy true (set_messages "" "" (set_messages "" "" s)).

(** A value with properties to read: anything but null and undefined. *)
Definition not_nullish (v : jsval) : bool :=
  match v with
  | VNull | VUndefined => false
  | _ => true
  end.

(** The option values [load] builds from the category list. *)
Definition category_values (cats : list jsval) : list string :=
  map (fun c => ToString (get_opt c "id")) cats.

(** The form as [load] fills it from the server's answers, before any
    draft is laid over it. *)
Definition hydrated (cats : list jsval) (recipe : jsval) (s : page) : page :=
  set_category
    {| options := category_values cats;
       selectedIndex :=
         index_of (ToString (get_opt recipe "category_id")) (category_values cats) |}
    (set_title (ToString (js_or (get_opt recipe "title") (VStr ""))) s).

(** The last statement of [load]: a draft is written when none is read. *)
Definition ensure_draft (s : page) : page :=
  if truthy (stored_draft s) then s else snd (writeDraft s).

(** The state a started function is in: the one it settled in, or the one
    it left the page in when it suspended. *)
Definition page_of {A} (r : run A) : page :=
  match r with
  | Finished _ s => s
  | Suspended _ s _ => s
  end.

(** What a started function waits for, if it waits. *)
Definition waiting_for {A} (r : run A) : option wait :=
  match r with
  | Finished _ _ => None
  | Suspended w _ _ => Some w
  end.

(** The answer to the one request a suspended function waits for arrives
    while the page is in state [s]. *)
Definition resume {A} (r : run A) (a : reply) (s : page) : run A :=
  match r with
  | Suspended (Fetch _) _ k => k a s
  | _ => r
  end.

(** A title as [writeDraft] stores it: empty, or with something other
    than white space in it. *)
Definition tidy (t : string) : bool := str_empty t || negb (blank t).

(** ** Example pages *)

Definition empty_tier : tier :=
  {| denied := false; full := false; items := ∅ |}.

Definition tier_holding (key : string) (t : text) : tier :=
  {| denied := false; full := false; items := {[ key := t ]} |}.

(** Recipe 7 opened from the host, two categories loaded, the first one
    selected, nothing stored. *)
Definition fresh_page : page :=
  {| recipeId := Int 7; tg := Some "query_id=1"; clock := 1000; hidden := false;
     title_value := ""; category := {| options := ["1"; "2"]; selectedIndex := Some O |};
     busy := false; err_text := ""; ok_text := "";
     sessionStorage := empty_tier; localStorage := empty_tier;
     location_href := None; sent := []; close_scheduled := false |}.

Definition draft_A : jsval := draft_object "A" (Int 1) 500.

(** The same page with the title field holding B and the draft
    [{title: "A", category_id: 1}] in both tiers. *)
Definition page_with_draft_A : page :=
  set_local (tier_holding "sm_draft_recipe_7" (Json draft_A))
    (set_session (tier_holding "sm_draft_recipe_7" (Json draft_A))
       (set_title "B" fresh_page)).

(** The tab-scoped tier holds a string that is not JSON, the durable tier
    the draft A. *)
Definition page_with_corrupt_session : page :=
  set_local (tier_holding "sm_draft_recipe_7" (Json draft_A))
    (set_session (tier_holding "sm_draft_recipe_7" (Plain "{oops")) fresh_page).

(** The page with the draft A in both tiers, the title B in the field
    and the second category selected. *)
Definition page_with_draft_A_and_category_2 : page :=
  set_category {| options := ["1"; "2"]; selectedIndex := Some 1%nat |}
    page_with_draft_A.

(** The draft A in the durable tier behind a string that is not JSON in
    the tab-scoped one, on a blank form with no category selected. *)
Definition page_with_hidden_draft_A : page :=
  set_category {| options := ["1"; "2"]; selectedIndex := None |}
    page_with_corrupt_session.

(** A draft with a title in the durable tier behind a string that is not
    JSON in the tab-scoped one, on a page that came back blanked. *)
Definition page_with_hidden_kept_title : page :=
  set_local
    (tier_holding "sm_draft_recipe_7" (Json (draft_object "Kept Title" (Int 2) 900)))
    (set_session (tier_holding "sm_draft_recipe_7" (Plain "{oops")) fresh_page).

(** A page that came back blanked: the title field is empty, the
    tab-scoped tier still holds a draft with a title. *)
Definition page_blanked_with_kept_title : page :=
  set_session
    (tier_holding "sm_draft_recipe_7" (Json (draft_object "Kept Title" (Int 2) 900)))
    fresh_page.

(** A title typed, no category selected. *)
Definition page_without_category : page :=
  set_category {| options := ["1"; "2"]; selectedIndex := None |}
    (set_title "Borscht" fresh_page).

(** Answers of a server that knows recipe 7. *)
Definition ok_json (v : jsval) : reply :=
  Response 200 (Some "application/json") (Json v).

Definition categories_answer : reply :=
  ok_json (VArr [ VObj [("id", VNum (Int 1)); ("name", VStr "Soups")];
                  VObj [("id", VNum (Int 2)); ("name", VStr "Mains")] ]).

Definition recipe_answer : reply :=
  ok_json (VObj [ ("id", VNum (Int 7));
                  ("title", VStr "Server Title");
                  ("category_id", VNum (Int 2)) ]).


Definition remote_draft_answer : reply :=
  ok_json (VObj [ ("title", VStr "Remote Title") ]).

Definition no_remote_draft_answer : reply :=
  Response 404 (Some "application/json")
    (Json (VObj [ ("detail", VStr "Draft not found") ])).

(** A colour whose three digits each follow a no-break space: six code
    units, nine bytes. *)
Definition spaced_colour : string :=
  let nbsp := String (ascii_of_nat 194) (String (ascii_of_nat 160) "") in
  "#" +:+ nbsp +:+ "1" +:+ nbsp +:+ "2" +:+ nbsp +:+ "3".

(** ** Further definitions used to state properties *)

(** A property of every way a started function can settle, whatever the
    answers are and whatever state the page is in when each arrives. *)
Fixpoint every_outcome {A} (P : completion A -> page -> Prop) (r : run A)
  : Prop :=
  match r with
  | Finished c s => P c s
  | Suspended _ _ k => forall a s', every_outcome P (k a s')
  end.

(** The page [p] of the same origin as [s]: it sees the two storage areas
    as [s] has left them. *)
Definition sharing_storage (s p : page) : page :=
  set_local (localStorage s) (set_session (sessionStorage s) p).

(** What [storageGet(key)] returns, from the two tiers. *)
Definition tiers_get (key : string) (s : page) : option text :=
  match tier_get (sessionStorage s) key with
  | Some t => Some t
  | None => tier_get (localStorage s) key
  end.

(** A visible ASCII character: no white space sequence of [trim] starts or
    ends with one. *)
Definition plain (c : ascii) : bool :=
  let n := nat_of_ascii c in Nat.ltb 32 n && Nat.ltb n 128.

Definition is_digit (c : ascii) : bool :=
  let n := nat_of_ascii c in Nat.leb 48 n && Nat.leb n 57.


(** The page of recipe 8, opened in the same browser. *)
Definition other_recipe_page : page :=
  {| recipeId := Int 8; tg := Some "query_id=1"; clock := 2000; hidden := false;
     title_value := "Pie"; category := {| options := ["1"; "2"]; selectedIndex := Some O |};
     busy := false; err_text := ""; ok_text := "";
     sessionStorage := empty_tier; localStorage := empty_tier;
     location_href := None; sent := []; close_scheduled := false |}.

(** The form reset behind the script's back, as a restored page can be:
    the title field holds [t], the select has its options but the
    selection [sel]; everything else is as in [s]. *)
Definition form_reset (t : string) (sel : option nat) (s : page) : page :=
  set_category {| options := options (category s); selectedIndex := sel |}
    (set_title t s).

(** The page opened without [recipe_id] in its URL. *)
Definition page_without_id : page :=
  {| recipeId := Int 0; tg := Some "query_id=1"; clock := 1000; hidden := false;
     title_value := ""; category := {| options := []; selectedIndex := None |};
     busy := false; err_text := ""; ok_text := "";
     sessionStorage := empty_tier; localStorage := empty_tier;
     location_href := None; sent := []; close_scheduled := false |}.

(** ** The theme (source lines 320-385; lines 13-75 are the same code)

    [hex.length], [hex[i]] and [hex.slice] count UTF-16 code units, and
    [parseInt] reads code units; the colour is taken apart as the
    sequence of its code units. *)

Module Theme.

(** The value of a code unit as a hexadecimal digit. *)
Definition hex_unit (u : Z) : option Z :=
  if (48 <=? u) && (u <=? 57) then Some (u - 48)
  else if (97 <=? u) && (u <=? 102) then Some (u - 87)
  else if (65 <=? u) && (u <=? 70) then Some (u - 55)
  else None.

Definition hex_value (c : ascii) : option Z := hex_unit (byte_value c).

(** The number the longest prefix of hexadecimal digits denotes, after
    the digits [acc] stands for; [None] when there is no digit at all. *)
Fixpoint hex_prefix (acc : option Z) (l : list Z) : option Z :=
  match l with
  | [] => acc
  | u :: rest =>
      match hex_unit u with
      | Some d => hex_prefix (Some (16 * default 0 acc + d)) rest
      | None => acc
      end
  end.

(** The code units of the white space and line terminator characters. *)
Definition white_space_unit (u : Z) : bool :=
  existsb (Z.eqb u)
    [ 9; 10; 11; 12; 13; 32; 160; 5760;
      8192; 8193; 8194; 8195; 8196; 8197; 8198; 8199; 8200; 8201; 8202;
      8232; 8233; 8239; 8287; 12288; 65279 ].

Fixpoint skip_white_space (l : list Z) : list Z :=
  match l with
  | [] => []
  | u :: rest => if white_space_unit u then skip_white_space rest else l
  end.

(** [parseInt(s, 16)] for the code units of [s]; [None] is NaN.  Leading
    white space is skipped, a sign is read, a [0x] or [0X] is dropped, and
    the digits that follow are read as far as they go. *)
Definition parseInt16 (l : list Z) : option Z :=
  let t := skip_white_space l in
  let signed :=
    match t with
    | [] => (false, t)
    | u :: rest =>
        if u =? 45 then (true, rest)
        else if u =? 43 then (false, rest)
        else (false, t)
    end in
  let body :=
    match snd signed with
    | u :: v :: rest =>
        if (u =? 48) && ((v =? 120) || (v =? 88)) then rest else snd signed
    | other => other
    end in
  match hex_prefix None body with
  | Some v => Some (if fst signed then - v else v)
  | None => None
  end.

Record rgb : Type := { r : Z; g : Z; b : Z }.

(** [if ([r, g, b].some((x) => Number.isNaN(x))) return null; return { r, g, b }] *)
Definition components (r g b : option Z) : option rgb :=
  match r, g, b with
  | Some r, Some g, Some b => Some {| r := r; g := g; b := b |}
  | _, _, _ => None
  end.

(** [parseHexColor], source lines 320-340 *)
Definition parseHexColor (s : jsval) : option rgb :=
  match s with
  | VStr str =>
      if str_empty str then None
      else
        match code_units (list_ascii_of_string (trim str)) with
        | [] => None
        | first :: hex =>
            if negb (first =? 35) then None
            else if Nat.eqb (List.length hex) 3 then
              match hex with
              | [u0; u1; u2] =>
                  components (parseInt16 [u0; u0])
                             (parseInt16 [u1; u1])
                             (parseInt16 [u2; u2])
              | _ => None
              end
            else if Nat.eqb (List.length hex) 6 then
              components (parseInt16 (firstn 2 hex))
                         (parseInt16 (firstn 2 (skipn 2 hex)))
                         (parseInt16 (skipn 4 hex))
            else None
        end
  | _ => None
  end.

(** [isDarkHex], source lines 342-348.  The brightness is the integer
    [r * 299 + g * 587 + b * 114] divided by 1000; dividing an integer of
    this size by 1000 and comparing with 110 is comparing the integer
    with 110000. *)
Definition isDarkHex (hex : jsval) : bool :=
  match parseHexColor hex with
  | None => false
  | Some c => r c * 299 + g c * 587 + b c * 114 <? 110000
  end.

(** What [applyThemeParams] does to the root element, call by call. *)
Inductive root_call : Type :=
| SetProperty (name value : string)   (* root.style.setProperty(name, value) *)
| SetMode (mode : string)             (* root.dataset.mode = mode *)
| SetDataTheme (mode : string).       (* root.setAttribute("data-theme", mode) *)

(** [if (v) root.style.setProperty(name, v)] *)
Definition set_if (name : string) (v : jsval) : list root_call :=
  if truthy v then [SetProperty name (ToString v)] else [].

(** [applyThemeParams], source lines 350-385 *)
Definition applyThemeParams (params : jsval) : list root_call :=
  if negb (truthy params) then []
  else
    let bg := get_opt params "bg_color" in
    let text := get_opt params "text_color" in
    let hint := get_opt params "hint_color" in
    let accent := get_opt params "button_color" in
    let accentText := get_opt params "button_text_color" in
    let secondary := get_opt params "secondary_bg_color" in
    let dark := isDarkHex bg || isDarkHex secondary in
    let mode := if dark then "dark" else "light" in
    (set_if "--bg" bg ++
     set_if "--text" text ++
     set_if "--fieldText" text ++
     set_if "--muted" hint ++
     set_if "--card" secondary ++
     set_if "--accent" accent ++
     (if truthy accentText
      then [ SetProperty "--accentText" (ToString accentText);
             SetProperty "--accent-text" (ToString accentText) ]
      else []) ++
     [ SetMode mode; SetDataTheme mode ] ++
     (if dark
      then [ SetProperty "--field" "rgba(255,255,255,0.10)";
             SetProperty "--fieldBorder" "rgba(255,255,255,0.28)";
             SetProperty "--field-border" "rgba(255,255,255,0.28)" ]
      else [ SetProperty "--field" "rgba(255,255,255,0.92)";
             SetProperty "--fieldBorder" "rgba(0,0,0,0.22)";
             SetProperty "--field-border" "rgba(0,0,0,0.22)" ]))%list.

(** The value the last [setProperty] call for [name] passed, when there
    is such a call. *)
Fixpoint property_after (name : string) (calls : list root_call)
  : option string :=
  match calls with
  | [] => None
  | c :: rest =>
      match property_after name rest with
      | Some v => Some v
      | None =>
          match c with
          | SetProperty n v => if String.eqb n name then Some v else None
          | _ => None
          end
      end
  end.

Definition is_hex (c : ascii) : bool :=
  match hex_value c with Some _ => true | None => false end.

Definition digit_value (c : ascii) : Z := default 0 (hex_value c).

(** The text [#c1c2...] *)
Definition colour (digits : list ascii) : jsval :=
  VStr (String "#" (string_of_list_ascii digits)).

End Theme.

(** ** The description editor (source lines 1-188)

    The first script of the file, the page that edits the description of
    a recipe: its [save], the click on the save button and the way back
    to the main editor.  Its [parseHexColor], [isDarkHex],
    [applyThemeParams] and [api] are the code modelled above.  [load] and
    [autoGrow] depend on the layout of the text area and are left out. *)

Module Description.

Record editor : Type := {
  recipeId : number;            (* Number(qs.get("recipe_id") || 0), a const *)
  tg : option string;           (* initData of window.Telegram?.WebApp, if any *)
  clock : Z;                    (* what Date.now() returns *)
  text_value : string;          (* $text.value *)
  busy : bool;                  (* $save.disabled, set by setBusy *)
  err_text : string;            (* $err.textContent *)
  ok_text : string;             (* $ok.textContent *)
  sent : list text;             (* payloads given to tg.sendData *)
  back_timers : list jsval;     (* the ids of the pending
                                   setTimeout(() => goBackTo(nextId), 250) *)
  replaced : option string      (* the URL given to location.replace, if any *)
}.

Definition set_busy (b : bool) (s : editor) : editor :=
  {| recipeId := recipeId s; tg := tg s; clock := clock s;
     text_value := text_value s; busy := b; err_text := err_text s;
     ok_text := ok_text s; sent := sent s; back_timers := back_timers s;
     replaced := replaced s |}.

Definition set_messages (e o : string) (s : editor) : editor :=
  {| recipeId := recipeId s; tg := tg s; clock := clock s;
     text_value := text_value s; busy := busy s; err_text := e;
     ok_text := o; sent := sent s; back_timers := back_timers s;
     replaced := replaced s |}.

Definition set_sent (l : list text) (s : editor) : editor :=
  {| recipeId := recipeId s; tg := tg s; clock := clock s;
     text_value := text_value s; busy := busy s; err_text := err_text s;
     ok_text := ok_text s; sent := l; back_timers := back_timers s;
     replaced := replaced s |}.

Definition set_back_timers (l : list jsval) (s : editor) : editor :=
  {| recipeId := recipeId s; tg := tg s; clock := clock s;
     text_value := text_value s; busy := busy s; err_text := err_text s;
     ok_text := ok_text s; sent := sent s; back_timers := l;
     replaced := replaced s |}.


Definition setErr (msg : string) : editor -> editor := set_messages msg "".

Definition setOk (msg : string) : editor -> editor := set_messages "" msg.

Definition setBusy (isBusy : bool) : editor -> editor := set_busy isBusy.

(** A started [async] function of this page. *)
Inductive run (A : Type) : Type :=
| Finished (c : completion A) (s : editor)
| Suspended (q : request) (s : editor) (k : reply -> editor -> run A).
Arguments Finished {A} c s.
Arguments Suspended {A} q s k.

Fixpoint run_bind {A B} (r : run A) (f : A -> editor -> run B) : run B :=
  match r with
  | Finished (Normal a) s => f a s
  | Finished (Throw e) s => Finished (Throw e) s
  | Suspended q s k => Suspended q s (fun a s' => run_bind (k a s') f)
  end.

(** [p.catch(h)] with a handler that does not throw *)
Fixpoint run_catch (r : run unit) (h : exn -> editor -> editor) : run unit :=
  match r with
  | Finished (Normal a) s => Finished (Normal a) s
  | Finished (Throw e) s => Finished (Normal tt) (h e s)
  | Suspended q s k => Suspended q s (fun a s' => run_catch (k a s') h)
  end.

(** [p.finally(cb)] with a callback that does not throw *)
Fixpoint run_finally {A} (r : run A) (cb : editor -> editor) : run A :=
  match r with
  | Finished c s => Finished c (cb s)
  | Suspended q s k => Suspended q s (fun a s' => run_finally (k a s') cb)
  end.

(** [api], source lines 101-123: the code of lines 402-426. *)
Definition api (path : string) (m : method) (body : option text)
  : editor -> run jsval :=
  fun s =>
    Suspended
      {| req_method := m;
         req_path := "/api/webapp" +:+ path;
         req_body := body;
         req_initData := default "" (tg s) |} s
      (fun r s' => Finished (api_result r) s').


(** [Number(updated?.id || recipeId) || recipeId] *)
Definition nextId (updated : jsval) (s : editor) : jsval :=
  js_or (VNum (ToNumber (js_or (get_opt updated "id") (VNum (recipeId s)))))
        (VNum (recipeId s)).

(** [save], source lines 155-173 *)
Definition save (s0 : editor) : run unit :=
  let s := setBusy true (setOk "" (setErr "" s0)) in
  let description := text_value s in
  run_bind
    (api ("/recipes/" +:+ NumberToString (recipeId s)) PATCH
       (Some (JSON_stringify (VObj [ ("description", VStr description) ]))) s)
    (fun updated s1 =>
       let s2 :=
         match tg s1 with
         | Some _ =>
             set_sent
               (sent s1 ++
                [JSON_stringify
                   (VObj [ ("type", VStr "recipe_updated");
                           ("recipe_id", VNum (recipeId s1)) ])]) s1
         | None => s1
         end in
       let s3 := setOk "Сохранено" s2 in
       Finished (Normal tt)
         (set_back_timers (back_timers s3 ++ [nextId updated s3]) s3)).

(** The click on the save button, source lines 175-179 *)
Definition on_save_click (s : editor) : run unit :=
  run_finally
    (run_catch (save s) (fun e => setErr (exn_text e)))
    (setBusy false).



(** The page as [save] leaves it before its request. *)
Definition save_started (s : editor) : editor :=
  set_busy true (set_messages "" "" s).

End Description.


(** ** Basic facts *)

Lemma page_eta (s : page) :
  {| recipeId := recipeId s; tg := tg s; clock := clock s; hidden := hidden s;
     title_value := title_value s; category := category s; busy := busy s;
     err_text := err_text s; ok_text := ok_text s;
     sessionStorage := sessionStorage s; localStorage := localStorage s;
     location_href := location_href s; sent := sent s;
     close_scheduled := close_scheduled s |} = s.
Proof. destruct s; reflexivity. Qed.

Lemma set_title_same (s : page) : set_title (title_value s) s = s.
Proof. apply page_eta. Qed.

Lemma set_category_same (s : page) : set_category (category s) s = s.
Proof. apply page_eta. Qed.

Lemma tier_eta (t : tier) : with_items (items t) t = t.
Proof. destruct t; reflexivity. Qed.

Lemma form_title_trim (s : page) : form_title s = trim (title_value s).
Proof.
  unfold form_title, js_or. simpl.
  destruct (title_value s); reflexivity.
Qed.

Lemma truthy_get_prop (d : jsval) (k : string) :
  truthy d = true -> get_prop d k = Some (get_opt d k).
Proof.
  unfold get_opt. destruct d; simpl; intros H; try discriminate; reflexivity.
Qed.

Lemma get_prop_nil (k : string) : get_prop (VObj []) k = Some VUndefined.
Proof. reflexivity. Qed.

(** *** The draft store *)

Lemma draftKey_eq (s : page) : draftKey s = (Normal (draft_key s), s).
Proof. reflexivity. Qed.

Lemma storageGet_eq (s : page) :
  storageGet (draft_key s) s = (Normal (stored_raw s), s).
Proof.
  unfold storageGet, stored_raw, tier_get, bind, try_catch, getItem, ret.
  simpl.
  destruct (denied (sessionStorage s)); simpl.
  - destruct (denied (localStorage s)); reflexivity.
  - destruct (items (sessionStorage s) !! draft_key s); simpl; [reflexivity|].
    destruct (denied (localStorage s)); reflexivity.
Qed.

Lemma readDraft_eq (s : page) : readDraft s = (Normal (stored_draft s), s).
Proof.
  unfold readDraft, try_catch, bind.
  rewrite draftKey_eq, storageGet_eq.
  unfold stored_draft, draft_of_raw.
  destruct (stored_raw s) as [[v|p]|]; simpl; try reflexivity.
  - unfold lift, ret.
    destruct (truthy v), (is_object v); reflexivity.
  - destruct (str_empty p); reflexivity.
Qed.

Lemma storageSet_eq (key : string) (val : text) (s : page) :
  storageSet key val s = (Normal tt, put_both key val s).
Proof.
  unfold storageSet, put_both, tier_put, writable, bind, try_catch, setItem, ret.
  simpl.
  destruct (denied (sessionStorage s)) eqn:Hd; simpl.
  - destruct (denied (localStorage s)); simpl;
      [|destruct (full (localStorage s)); simpl];
      rewrite ?page_eta; try reflexivity.
    all: f_equal; destruct s; reflexivity.
  - destruct (full (sessionStorage s)); simpl.
    + destruct (denied (localStorage s)); simpl;
        [|destruct (full (localStorage s)); simpl]; try reflexivity.
      all: f_equal; destruct s; reflexivity.
    + destruct (denied (localStorage s)); simpl;
        [|destruct (full (localStorage s)); simpl]; try reflexivity.
Qed.

Lemma storageRemove_eq (key : string) (s : page) :
  storageRemove key s = (Normal tt, remove_both key s).
Proof.
  unfold storageRemove, remove_both, tier_remove, bind, try_catch, removeItem, ret.
  simpl.
  destruct (denied (sessionStorage s)); simpl;
    destruct (denied (localStorage s)); simpl; try reflexivity.
  all: f_equal; destruct s; reflexivity.
Qed.

Lemma clearDraft_eq (s : page) :
  clearDraft s = (Normal tt, remove_both (draft_key s) s).
Proof.
  unfold clearDraft, bind. rewrite draftKey_eq. apply storageRemove_eq.
Qed.

Lemma overlay_steps (d : jsval) (s : page) :
  truthy d = true ->
  (let* t := prop d "title" in
   when (is_string t && negb (blank (ToString t)))
     (modify (set_title (ToString t))) ;;
   let* c := prop d "category_id" in
   let n := ToNumber (js_or c (VNum (Int 0))) in
   when (num_truthy n)
     (let* s := get in
      let has := has_option (NumberToString n) (category s) in
      when has
        (modify (fun s =>
           set_category (select_assign (NumberToString n) (category s)) s)))) s
  = (Normal tt, overlay d s).
Proof.
  intros Hd. unfold overlay, overlay_title, overlay_category, draft_category.
  rewrite Hd. unfold bind, prop.
  rewrite !(truthy_get_prop d _ Hd). unfold ret, when, modify, get.
  set (t := get_opt d "title").
  set (n := ToNumber (js_or (get_opt d "category_id") (VNum (Int 0)))).
  destruct t as [| |b|m|t|l|l]; simpl;
    try (destruct (num_truthy n); simpl;
         [destruct (has_option (NumberToString n) (category s)); simpl|];
         rewrite ?set_title_same, ?set_category_same; reflexivity).
  destruct (blank t); simpl;
    (destruct (num_truthy n); simpl;
     [destruct (has_option (NumberToString n) (category s)); simpl|]);
    rewrite ?set_title_same, ?set_category_same; try reflexivity.
  all: destruct s; reflexivity.
Qed.

Lemma restoreDraftIntoForm_eq (s : page) :
  restoreDraftIntoForm s = (Normal tt, overlay (stored_draft s) s).
Proof.
  unfold restoreDraftIntoForm. unfold bind at 1. rewrite readDraft_eq.
  destruct (truthy (stored_draft s)) eqn:Hd; simpl.
  - apply overlay_steps; assumption.
  - unfold overlay. rewrite Hd. reflexivity.
Qed.

Lemma writeDraft_eq (s : page) :
  writeDraft s =
  (Normal tt,
   if num_truthy (recipeId s)
   then put_both (draft_key s)
          (JSON_stringify
             (draft_object (merged_title s (stored_draft s))
                           (merged_category s (stored_draft s))
                           (clock s))) s
   else s).
Proof.
  unfold writeDraft, try_catch. unfold bind at 1. unfold get at 1.
  destruct (num_truthy (recipeId s)) eqn:Hid; simpl; [|reflexivity].
  unfold bind at 1. rewrite readDraft_eq.
  set (d := stored_draft s).
  assert (Hprev : truthy (js_or d (VObj [])) = true).
  { unfold js_or. destruct (truthy d) eqn:E; [exact E | reflexivity]. }
  assert (Hget : forall k, get_opt (js_or d (VObj [])) k = get_opt d k).
  { intros k. unfold js_or. destruct (truthy d) eqn:E; [reflexivity|].
    destruct d as [| |[]| | | |]; simpl in E; try discriminate; reflexivity. }
  unfold bind, prop. rewrite !(truthy_get_prop _ _ Hprev), !Hget.
  unfold ret. rewrite draftKey_eq. unfold get. rewrite storageSet_eq.
  unfold merged_title, merged_category, draft_category, draft_object.
  repeat f_equal.
  destruct (str_empty (form_title s)); simpl; [|reflexivity].
  destruct (get_opt d "title"); simpl; try reflexivity.
  destruct (blank s0); reflexivity.
Qed.

(** *** The select *)

Lemma index_of_nth (v : string) (l : list string) (i : nat) :
  index_of v l = Some i -> nth i l "" = v.
Proof.
  revert i. induction l as [|x l IH]; intros i H; simpl in H; [discriminate|].
  destruct (String.eqb x v) eqn:E.
  - injection H as <-. simpl. apply String.eqb_eq. exact E.
  - destruct (index_of v l) as [j|]; simpl in H; [|discriminate].
    injection H as <-. simpl. apply IH. reflexivity.
Qed.

Lemma has_option_index (v : string) (l : list string) :
  existsb (fun o => String.eqb o v) l = true ->
  exists i, index_of v l = Some i.
Proof.
  induction l as [|x l IH]; simpl; intros H; [discriminate|].
  destruct (String.eqb x v); [eexists; reflexivity|].
  destruct (IH H) as [i ->]. eexists; reflexivity.
Qed.

Lemma has_option_In (v : string) (c : select) :
  has_option v c = true -> In v (options c).
Proof.
  unfold has_option. intros H. apply existsb_exists in H.
  destruct H as [x [Hx E]]. apply String.eqb_eq in E. subst. exact Hx.
Qed.

Lemma select_assign_value (v : string) (c : select) :
  has_option v c = true -> select_value (select_assign v c) = v.
Proof.
  intros H. unfold select_value, select_assign. simpl.
  destruct (has_option_index v (options c) H) as [i Hi]. rewrite Hi.
  apply index_of_nth. exact Hi.
Qed.

Lemma select_assign_twice (v : string) (c : select) :
  select_assign v (select_assign v c) = select_assign v c.
Proof. reflexivity. Qed.

(** *** The remote draft *)

Lemma putDraftToRedis_run (s : page) :
  exists q k,
    putDraftToRedis s = Suspended (Fetch q) s k /\
    req_method q = PUT /\
    forall r s', k r s' = Finished (Normal tt) s'.
Proof.
  unfold putDraftToRedis, acatch, await, api. simpl.
  eexists. eexists. split; [reflexivity|]. split; [reflexivity|].
  intros r s'. simpl. destruct (api_result r); reflexivity.
Qed.

Lemma getDraftFromRedis_run (s : page) :
  exists k,
    getDraftFromRedis s =
      Suspended (Fetch (api_request (draft_path s) GET None s)) s k /\
    forall r s', k r s' = Finished (Normal (remote_draft r)) s'.
Proof.
  unfold getDraftFromRedis, acatch, api. simpl.
  eexists. split; [reflexivity|].
  intros r s'. unfold remote_draft. simpl. destruct (api_result r); reflexivity.
Qed.

Lemma restoreDraftFromRedisIntoForm_run (s : page) :
  exists k,
    restoreDraftFromRedisIntoForm s =
      Suspended (Fetch (api_request (draft_path s) GET None s)) s k /\
    forall r s', k r s' = Finished (Normal tt) (overlay (remote_draft r) s').
Proof.
  unfold restoreDraftFromRedisIntoForm, await, getDraftFromRedis, acatch, api.
  simpl. eexists. split; [reflexivity|].
  intros r s'. unfold remote_draft. simpl.
  destruct (api_result r) as [v|e]; cbn [run_catch run_bind]; unfold now.
  - destruct (truthy v) eqn:Hv; cbn [negb].
    + pose proof (overlay_steps v s' Hv) as E. cbv zeta in E.
      rewrite E. reflexivity.
    + unfold overlay. rewrite Hv. reflexivity.
  - reflexivity.
Qed.

(** ** The claims *)

(** *** C2: reading the local draft *)

(** C2, as the script has it.  [readDraft] never throws and leaves the page
    as it is.  Which tier is read is decided by [storageGet] alone, before
    anything is parsed: when the tab-scoped tier gives any string for the
    key, that string is the one parsed, and a string that is empty, is not
    JSON or is not a non-null object makes the result "no draft" whatever
    the durable tier holds.  The durable tier is read only when the
    tab-scoped tier has no string for the key or cannot be accessed, and
    then a parseable draft there is the result, while a string there that
    is empty, is not JSON or is not a non-null object is "no draft" as
    well: malformed content is absent content in either tier. *)
Theorem readDraft_never_throws_session_first (s : page) :
  (exists d, readDraft s = (Normal d, s)) /\
  (forall p, tier_get (sessionStorage s) (draft_key s) = Some (Plain p) ->
             readDraft s = (Normal VNull, s)) /\
  (forall v, tier_get (sessionStorage s) (draft_key s) = Some (Json v) ->
             truthy v && is_object v = false ->
             readDraft s = (Normal VNull, s)) /\
  (forall v, tier_get (sessionStorage s) (draft_key s) = Some (Json v) ->
             truthy v && is_object v = true ->
             readDraft s = (Normal v, s)) /\
  (forall d, tier_get (sessionStorage s) (draft_key s) = None ->
             tier_get (localStorage s) (draft_key s) = Some (Json d) ->
             truthy d && is_object d = true ->
             readDraft s = (Normal d, s)) /\
  (forall p, tier_get (sessionStorage s) (draft_key s) = None ->
             tier_get (localStorage s) (draft_key s) = Some (Plain p) ->
             readDraft s = (Normal VNull, s)) /\
  (forall v, tier_get (sessionStorage s) (draft_key s) = None ->
             tier_get (localStorage s) (draft_key s) = Some (Json v) ->
             truthy v && is_object v = false ->
             readDraft s = (Normal VNull, s)) /\
  (tier_get (sessionStorage s) (draft_key s) = None ->
   tier_get (localStorage s) (draft_key s) = None ->
   readDraft s = (Normal VNull, s)).
Proof.
  rewrite readDraft_eq. unfold stored_draft, stored_raw, draft_of_raw.
  split; [eexists; reflexivity|].
  repeat split.
  - intros p H. rewrite H. reflexivity.
  - intros v H Hv. rewrite H, Hv. reflexivity.
  - intros v H Hv. rewrite H, Hv. reflexivity.
  - intros d H1 H2 Hd. rewrite H1, H2, Hd. reflexivity.
  - intros p H1 H2. rewrite H1, H2. reflexivity.
  - intros v H1 H2 Hv. rewrite H1, H2, Hv. reflexivity.
  - intros H1 H2. rewrite H1, H2. reflexivity.
Qed.

(** C2 as the claim has it fails: with a string that is not JSON in the
    tab-scoped tier and the draft A in the durable tier, [readDraft] returns
    "no draft", not the durable tier's draft. *)
Lemma readDraft_corrupt_session_hides_durable :
  tier_get (sessionStorage page_with_corrupt_session)
    (draft_key page_with_corrupt_session) = Some (Plain "{oops") /\
  JSON_parse (Plain "{oops") = Throw SyntaxError /\
  tier_get (localStorage page_with_corrupt_session)
    (draft_key page_with_corrupt_session) = Some (Json draft_A) /\
  JSON_parse (Json draft_A) = Normal draft_A /\
  truthy draft_A && is_object draft_A = true /\
  readDraft page_with_corrupt_session = (Normal VNull, page_with_corrupt_session) /\
  VNull <> draft_A.
Proof.
  repeat split; try reflexivity. discriminate.
Qed.

(** *** C10: a restored category is one of the options *)

Lemma overlay_category_within (d : jsval) (c : select) :
  options (overlay_category d c) = options c /\
  (has_option (NumberToString (draft_category d)) c = false ->
   overlay_category d c = c) /\
  (overlay_category d c = c \/
   (has_option (NumberToString (draft_category d)) c = true /\
    select_value (overlay_category d c) = NumberToString (draft_category d) /\
    In (select_value (overlay_category d c)) (options c))).
Proof.
  unfold overlay_category.
  destruct (num_truthy (draft_category d)); simpl.
  - destruct (has_option (NumberToString (draft_category d)) c) eqn:H.
    + split; [reflexivity|]. split; [discriminate|]. right.
      rewrite (select_assign_value _ _ H).
      split; [reflexivity|]. split; [reflexivity|].
      apply has_option_In. exact H.
    + split; [reflexivity|]. split; [reflexivity|]. left. reflexivity.
  - split; [reflexivity|]. split; [reflexivity|]. left. reflexivity.
Qed.

Lemma overlay_category_eq (d : jsval) (s : page) :
  category (overlay d s) =
  if truthy d then overlay_category d (category s) else category s.
Proof. unfold overlay. destruct (truthy d); reflexivity. Qed.

Lemma overlay_keeps_within (d : jsval) (s : page) :
  options (category (overlay d s)) = options (category s) /\
  (has_option (NumberToString (draft_category d)) (category s) = false ->
   category (overlay d s) = category s) /\
  (category (overlay d s) = category s \/
   (has_option (NumberToString (draft_category d)) (category s) = true /\
    select_value (category (overlay d s)) = NumberToString (draft_category d) /\
    In (select_value (category (overlay d s))) (options (category s)))).
Proof.
  rewrite overlay_category_eq. destruct (truthy d).
  - apply overlay_category_within.
  - split; [reflexivity|]. split; [reflexivity|]. left. reflexivity.
Qed.


(** *** The overlay and the return handlers *)

Lemma overlay_frame (d : jsval) (s : page) :
  recipeId (overlay d s) = recipeId s /\
  sessionStorage (overlay d s) = sessionStorage s /\
  localStorage (overlay d s) = localStorage s /\
  hidden (overlay d s) = hidden s /\
  location_href (overlay d s) = location_href s.
Proof. unfold overlay. destruct (truthy d); repeat split. Qed.

Lemma overlay_host (d : jsval) (s : page) :
  tg (overlay d s) = tg s /\ clock (overlay d s) = clock s.
Proof. unfold overlay. destruct (truthy d); split; reflexivity. Qed.

Lemma draft_request_overlay (d : jsval) (s : page) :
  api_request (draft_path (overlay d s)) GET None (overlay d s)
  = api_request (draft_path s) GET None s.
Proof.
  unfold api_request, draft_path.
  destruct (overlay_frame d s) as (-> & _).
  destruct (overlay_host d s) as (-> & _).
  reflexivity.
Qed.

Lemma stored_draft_frame (s1 s2 : page) :
  recipeId s1 = recipeId s2 ->
  sessionStorage s1 = sessionStorage s2 ->
  localStorage s1 = localStorage s2 ->
  stored_draft s1 = stored_draft s2.
Proof.
  intros H1 H2 H3. unfold stored_draft, stored_raw, draft_key.
  rewrite H1, H2, H3. reflexivity.
Qed.

Lemma stored_draft_overlay (d : jsval) (s : page) :
  stored_draft (overlay d s) = stored_draft s.
Proof.
  destruct (overlay_frame d s) as (H1 & H2 & H3 & _).
  apply stored_draft_frame; assumption.
Qed.

Lemma overlay_title_eq (d : jsval) (s : page) :
  title_value (overlay d s) =
  if truthy d then overlay_title d (title_value s) else title_value s.
Proof. unfold overlay. destruct (truthy d); reflexivity. Qed.

Lemma overlay_title_twice (d : jsval) (cur : string) :
  overlay_title d (overlay_title d cur) = overlay_title d cur.
Proof.
  unfold overlay_title. destruct (get_opt d "title"); try reflexivity.
  destruct (blank s); reflexivity.
Qed.

Lemma overlay_category_twice (d : jsval) (c : select) :
  overlay_category d (overlay_category d c) = overlay_category d c.
Proof.
  unfold overlay_category.
  destruct (num_truthy (draft_category d)); simpl; [|reflexivity].
  destruct (has_option (NumberToString (draft_category d)) c) eqn:H.
  - unfold has_option in *. simpl. rewrite H. reflexivity.
  - rewrite H. reflexivity.
Qed.

Lemma overlay_twice (d : jsval) (s : page) :
  overlay d (overlay d s) = overlay d s.
Proof.
  unfold overlay. destruct (truthy d); [|reflexivity].
  simpl. rewrite overlay_title_twice, overlay_category_twice. reflexivity.
Qed.

Lemma on_pageshow_eq (s : page) :
  on_pageshow s = escalate (overlay (stored_draft s) s).
Proof.
  unfold on_pageshow, await, now. rewrite restoreDraftIntoForm_eq. reflexivity.
Qed.

Lemma on_visibilitychange_eq (s : page) :
  hidden s = false ->
  on_visibilitychange s = escalate (overlay (stored_draft s) s).
Proof.
  intros H. unfold on_visibilitychange. rewrite H.
  unfold await, now. rewrite restoreDraftIntoForm_eq. reflexivity.
Qed.

Lemma escalate_title_present (s : page) :
  title_is_blank s = false -> escalate s = Finished (Normal tt) s.
Proof. intros H. unfold escalate. rewrite H. reflexivity. Qed.

Lemma get_prop_string_truthy (d : jsval) (k t : string) :
  get_prop d k = Some (VStr t) -> truthy d = true /\ get_opt d k = VStr t.
Proof.
  intros H. unfold get_opt. rewrite H.
  destruct d; simpl in H; try discriminate; split; reflexivity.
Qed.

(** *** C6: a local draft with a title ends the escalation *)

Lemma escalate_title_blank (s : page) :
  title_is_blank s = true ->
  exists k,
    escalate s = Suspended (Fetch (api_request (draft_path s) GET None s)) s k /\
    forall r s2,
      title_is_blank (overlay (remote_draft r) s2) = false ->
      k r s2 = Finished (Normal tt) (overlay (remote_draft r) s2).
Proof.
  intros Hb. unfold escalate. rewrite Hb. unfold afinally.
  destruct (restoreDraftFromRedisIntoForm_run s) as [k0 [Hk Hr]].
  rewrite Hk. cbn [run_finally]. eexists. split; [reflexivity|].
  intros r s2 Hnb. cbn beta. rewrite Hr. cbn [run_finally].
  rewrite Hnb. reflexivity.
Qed.

(** A draft the local read does not return, or one without a title, leaves
    the title field as it is. *)
Lemma overlay_title_kept (raw : text) (cur : string) :
  (forall d t, raw = Json d -> get_prop d "title" = Some (VStr t) -> blank t = true) ->
  overlay_title (draft_of_raw (Some raw)) cur = cur.
Proof.
  intros H. destruct raw as [d|p]; [|reflexivity].
  unfold draft_of_raw. destruct (truthy d && is_object d) eqn:E; [|reflexivity].
  apply andb_prop in E. destruct E as [Ht _].
  pose proof (truthy_get_prop d "title" Ht) as Hg.
  unfold overlay_title. destruct (get_opt d "title") as [| | | |t| |]; try reflexivity.
  rewrite (H d t eq_refl Hg). reflexivity.
Qed.

(** C6, as the script has it.  On a return or visibility-restore event
    the handler first lays the local draft over the form: the draft of the
    tab-scoped tier's entry when that tier has one, and the draft of the
    durable tier's entry only when the tab-scoped tier has none.  When
    that draft has a non-blank string as its title, the title field holds
    it afterwards, whatever it held before (the blanked field of a
    restored page included), and the handler has settled: the run is
    [Finished], so neither the remote draft nor the record is requested,
    and the storage tiers are as they were.  When the tab-scoped tier's
    entry is not a draft, or is a draft without such a title, the title
    field stays as it is, whatever the durable tier holds.  The handler
    settles at once whenever the title is not blank after this overlay;
    only when it is still blank does it request the remote draft, and when
    the remote overlay leaves a title that is not blank it settles there,
    without a new [load]. *)
Theorem return_escalation_stops_at_first_title (s : page) :
  exists s1,
    restoreDraftIntoForm s = (Normal tt, s1) /\
    sessionStorage s1 = sessionStorage s /\
    localStorage s1 = localStorage s /\
    (forall d t,
       tier_get (sessionStorage s) (draft_key s) = Some (Json d) \/
       (tier_get (sessionStorage s) (draft_key s) = None /\
        tier_get (localStorage s) (draft_key s) = Some (Json d)) ->
       get_prop d "title" = Some (VStr t) ->
       blank t = false ->
       title_value s1 = t /\
       on_pageshow s = Finished (Normal tt) s1 /\
       (hidden s = false -> on_visibilitychange s = Finished (Normal tt) s1)) /\
    (forall raw,
       tier_get (sessionStorage s) (draft_key s) = Some raw ->
       (forall d t, raw = Json d -> get_prop d "title" = Some (VStr t) ->
                    blank t = true) ->
       title_value s1 = title_value s) /\
    (title_is_blank s1 = false ->
     on_pageshow s = Finished (Normal tt) s1 /\
     (hidden s = false -> on_visibilitychange s = Finished (Normal tt) s1)) /\
    (title_is_blank s1 = true ->
     exists k,
       on_pageshow s =
         Suspended (Fetch (api_request (draft_path s) GET None s)) s1 k /\
       forall r s2,
         title_is_blank (overlay (remote_draft r) s2) = false ->
         k r s2 = Finished (Normal tt) (overlay (remote_draft r) s2)).
Proof.
  exists (overlay (stored_draft s) s).
  destruct (overlay_frame (stored_draft s) s) as (_ & H2 & H3 & _).
  assert (Hstop : title_is_blank (overlay (stored_draft s) s) = false ->
            on_pageshow s = Finished (Normal tt) (overlay (stored_draft s) s) /\
            (hidden s = false ->
             on_visibilitychange s = Finished (Normal tt) (overlay (stored_draft s) s))).
  { intros Hnb. split.
    - rewrite on_pageshow_eq. apply escalate_title_present. exact Hnb.
    - intros Hh. rewrite (on_visibilitychange_eq s Hh).
      apply escalate_title_present. exact Hnb. }
  split; [apply restoreDraftIntoForm_eq|].
  split; [exact H2|]. split; [exact H3|].
  split; [|split; [|split; [exact Hstop|]]].
  - intros d t Htier Ht Hb.
    destruct (get_prop_string_truthy d _ t Ht) as [Htr Hg].
    assert (Hobj : is_object d = true).
    { destruct d; simpl in Ht; try discriminate; reflexivity. }
    assert (Hd : stored_draft s = d).
    { unfold stored_draft, stored_raw.
      destruct Htier as [H|[H1 H]]; rewrite ?H1, H; simpl;
        rewrite Htr, Hobj; reflexivity. }
    assert (Htitle : title_value (overlay (stored_draft s) s) = t).
    { rewrite Hd, overlay_title_eq, Htr. unfold overlay_title.
      rewrite Hg, Hb. reflexivity. }
    split; [exact Htitle|]. apply Hstop.
    unfold title_is_blank. rewrite form_title_trim, Htitle. exact Hb.
  - intros raw Hraw Hall.
    assert (Hd : stored_draft s = draft_of_raw (Some raw)).
    { unfold stored_draft, stored_raw. rewrite Hraw. reflexivity. }
    rewrite overlay_title_eq, Hd.
    destruct (truthy (draft_of_raw (Some raw))); [|reflexivity].
    apply overlay_title_kept. exact Hall.
  - intros Hb. rewrite on_pageshow_eq.
    destruct (escalate_title_blank _ Hb) as [k [Hk Hr]].
    exists k. split; [|exact Hr].
    rewrite Hk. rewrite draft_request_overlay. reflexivity.
Qed.

(** The blanked page with the kept draft: the title comes back from the
    tab-scoped tier and the handler settles at once. *)
Lemma return_escalation_stops_at_first_title_witness :
  title_value page_blanked_with_kept_title = "" /\
  exists s1,
    on_pageshow page_blanked_with_kept_title = Finished (Normal tt) s1 /\
    on_visibilitychange page_blanked_with_kept_title = Finished (Normal tt) s1 /\
    title_value s1 = "Kept Title" /\
    sessionStorage s1 = sessionStorage page_blanked_with_kept_title /\
    localStorage s1 = localStorage page_blanked_with_kept_title.
Proof.
  split; [reflexivity|].
  destruct (return_escalation_stops_at_first_title page_blanked_with_kept_title)
    as (s1 & _ & Hs & Hl & Hlocal & _ & _ & _).
  destruct (Hlocal (draft_object "Kept Title" (Int 2) 900) "Kept Title"
              (or_introl eq_refl) eq_refl eq_refl) as (Ht & Hp & Hv).
  exists s1. split; [exact Hp|]. split; [exact (Hv eq_refl)|].
  split; [exact Ht|]. split; assumption.
Defined.

(** C6 as the claim has it fails.  The page came back blanked, the
    durable tier holds a draft with the title "Kept Title", and the
    tab-scoped tier holds a string that is not JSON: the handler leaves
    the title blank and requests the remote draft. *)
Lemma return_escalation_misses_hidden_title :
  let p := page_with_hidden_kept_title in
  title_value p = "" /\
  tier_get (localStorage p) (draft_key p)
    = Some (Json (draft_object "Kept Title" (Int 2) 900)) /\
  tier_get (sessionStorage p) (draft_key p) = Some (Plain "{oops") /\
  waiting_for (on_pageshow p)
    = Some (Fetch (api_request "/recipes/7/draft" GET None p)) /\
  waiting_for (on_visibilitychange p)
    = Some (Fetch (api_request "/recipes/7/draft" GET None p)) /\
  title_value (page_of (on_pageshow p)) = "" /\
  title_value (page_of (on_visibilitychange p)) = "".
Proof.
  cbv zeta. repeat split; vm_compute; reflexivity.
Qed.

(** *** C7: a duplicate trigger *)

(** C7, as the script has it.  Running the local overlay a second time
    changes nothing: the second run of [restoreDraftIntoForm] starts and
    ends in the state the first one left, form and storage included.  A
    second trigger that fires in that state, be it [pageshow] or
    [visibilitychange], is the very run the single trigger is: it makes a
    request only where the single one does, and when the overlay has left
    a title that is not blank neither makes any.  Nothing makes the second
    trigger aware of the first: where the single run escalates, so does the
    duplicate, each with requests of its own. *)
Theorem duplicate_trigger_is_the_single_run (s : page) :
  exists s1,
    restoreDraftIntoForm s = (Normal tt, s1) /\
    restoreDraftIntoForm s1 = (Normal tt, s1) /\
    sessionStorage s1 = sessionStorage s /\
    localStorage s1 = localStorage s /\
    on_pageshow s1 = on_pageshow s /\
    (hidden s = false -> on_visibilitychange s1 = on_pageshow s) /\
    (title_is_blank s1 = false ->
     on_pageshow s = Finished (Normal tt) s1 /\
     on_pageshow s1 = Finished (Normal tt) s1).
Proof.
  exists (overlay (stored_draft s) s).
  destruct (overlay_frame (stored_draft s) s) as (H1 & H2 & H3 & H4 & _).
  assert (Hsame : overlay (stored_draft (overlay (stored_draft s) s))
                    (overlay (stored_draft s) s) = overlay (stored_draft s) s).
  { rewrite stored_draft_overlay. apply overlay_twice. }
  split; [apply restoreDraftIntoForm_eq|].
  split; [rewrite restoreDraftIntoForm_eq, Hsame; reflexivity|].
  split; [exact H2|]. split; [exact H3|].
  split; [rewrite !on_pageshow_eq, Hsame; reflexivity|].
  split.
  - intros Hh. rewrite on_visibilitychange_eq by (rewrite H4; exact Hh).
    rewrite on_pageshow_eq, Hsame. reflexivity.
  - intros Hb. rewrite !on_pageshow_eq, Hsame.
    split; apply escalate_title_present; exact Hb.
Qed.

(** *** C4: the hand-off to a sibling page *)

Lemma handoff_run (name : string) (s : page) :
  exists q k s1,
    writeDraft s = (Normal tt, s1) /\
    (now writeDraft ;;; putDraftToRedis ;;; now (navigate name)) s
      = Suspended (Fetch q) s1 k /\
    req_method q = PUT /\
    location_href s1 = location_href s /\
    forall r s2,
      k r s2 = Finished (Normal tt) (set_location (sibling_url name s2) s2).
Proof.
  pose proof (writeDraft_eq s) as Hw.
  destruct (writeDraft s) as [c s1] eqn:E. injection Hw as -> Hs1.
  destruct (putDraftToRedis_run s1) as (q & k & Hk & Hq & Hr).
  exists q. eexists. exists s1.
  split; [reflexivity|].
  split.
  { unfold await, now. rewrite E. cbn [run_bind]. rewrite Hk.
    cbn [run_bind]. reflexivity. }
  split; [exact Hq|].
  split.
  { rewrite Hs1. destruct (num_truthy (recipeId s)); reflexivity. }
  intros r s2. cbn beta. rewrite Hr. reflexivity.
Qed.

(** C4, as the script has it.  Each hand-off handler writes the local
    draft at once, then sends the PUT of the remote draft and waits for it:
    when the handler first stops it is suspended on that request and
    [location.href] has not been assigned.  The navigation is what the
    continuation does, so it happens once the PUT has settled, and then
    whatever the answer is, a failure included. *)
Theorem handoff_navigates_once_put_settles (s : page) :
  (exists q k s1,
     writeDraft s = (Normal tt, s1) /\
     on_btnDesc_click s = Suspended (Fetch q) s1 k /\
     req_method q = PUT /\
     location_at_first_stop (on_btnDesc_click s) = location_href s /\
     forall r s2,
       k r s2 = Finished (Normal tt)
                  (set_location (sibling_url "edit-description.html" s2) s2)) /\
  (exists q k s1,
     writeDraft s = (Normal tt, s1) /\
     on_btnIng_click s = Suspended (Fetch q) s1 k /\
     req_method q = PUT /\
     location_at_first_stop (on_btnIng_click s) = location_href s /\
     forall r s2,
       k r s2 = Finished (Normal tt)
                  (set_location (sibling_url "edit-ingredients.html" s2) s2)).
Proof.
  split.
  - destruct (handoff_run "edit-description.html" s) as (q & k & s1 & H1 & H2 & H3 & H4 & H5).
    exists q, k, s1. unfold on_btnDesc_click. rewrite H2. simpl.
    repeat split; assumption.
  - destruct (handoff_run "edit-ingredients.html" s) as (q & k & s1 & H1 & H2 & H3 & H4 & H5).
    exists q, k, s1. unfold on_btnIng_click. rewrite H2. simpl.
    repeat split; assumption.
Qed.

(** C4 as the claim has it fails: on the fresh page the click handler
    stops on the PUT of the remote draft with no navigation done; had the
    navigation not waited for the remote push, [location.href] would hold
    the sibling page's URL at that point. *)
Lemma handoff_waits_for_put :
  (exists q k s1,
     on_btnDesc_click fresh_page = Suspended (Fetch q) s1 k /\
     req_method q = PUT /\
     req_path q = "/api/webapp/recipes/7/draft") /\
  location_at_first_stop (on_btnDesc_click fresh_page) = None /\
  location_at_first_stop (on_btnDesc_click fresh_page)
    <> Some (sibling_url "edit-description.html" fresh_page).
Proof.
  split; [|split].
  - eexists. eexists. eexists. split; [reflexivity|]. split; reflexivity.
  - reflexivity.
  - discriminate.
Qed.

(** *** [save] *)

Lemma save_started_frame (s : page) :
  form_title (save_started s) = form_title s /\
  form_category (save_started s) = form_category s /\
  sessionStorage (save_started s) = sessionStorage s /\
  localStorage (save_started s) = localStorage s.
Proof. repeat split. Qed.

(** The first three statements of [save] leave the fields it reads next
    as they are. *)
Ltac save_reads_form s :=
  unfold save, await, now; simpl;
  change (form_title (set_busy true (set_messages "" "" (set_messages "" "" s))))
    with (form_title s);
  change (form_category (set_busy true (set_messages "" "" (set_messages "" "" s))))
    with (form_category s).

Lemma save_rejects_title (s : page) :
  str_empty (form_title s) = true ->
  save s = Finished (Throw (Error "Название не может быть пустым")) (save_started s).
Proof.
  intros H. save_reads_form s. rewrite H. reflexivity.
Qed.

Lemma save_rejects_category (s : page) :
  str_empty (form_title s) = false ->
  num_truthy (form_category s) = false ->
  save s = Finished (Throw (Error "Выберите категорию")) (save_started s).
Proof.
  intros H1 H2. save_reads_form s. rewrite H1, H2. reflexivity.
Qed.

Lemma save_sends_patch (s : page) :
  str_empty (form_title s) = false ->
  num_truthy (form_category s) = true ->
  exists q k,
    save s = Suspended (Fetch q) (save_started s) k /\
    req_method q = PATCH /\
    forall r s2,
      k r s2 =
      match api_result r with
      | Normal _ => Finished (Normal tt) (after_save s2)
      | Throw e => Finished (Throw e) s2
      end.
Proof.
  intros H1 H2. save_reads_form s. rewrite H1, H2. simpl.
  eexists. eexists. split; [reflexivity|]. split; [reflexivity|].
  intros r s2. simpl. destruct (api_result r) as [v|e]; [|reflexivity].
  cbn [run_bind]. unfold bind at 1. rewrite clearDraft_eq.
  reflexivity.
Qed.

Lemma remove_both_no_draft (s : page) :
  stored_draft (remove_both (draft_key s) s) = VNull /\
  (denied (sessionStorage s) = false ->
   items (sessionStorage (remove_both (draft_key s) s)) !! draft_key s = None) /\
  (denied (localStorage s) = false ->
   items (localStorage (remove_both (draft_key s) s)) !! draft_key s = None).
Proof.
  unfold stored_draft, stored_raw, remove_both, tier_remove, tier_get, draft_key.
  simpl.
  destruct (denied (sessionStorage s)) eqn:Hs, (denied (localStorage s)) eqn:Hl;
    simpl; rewrite ?Hs, ?Hl, ?lookup_delete_eq; simpl;
    repeat split; intros; try discriminate; try reflexivity.
Qed.

Lemma after_save_frame (s : page) :
  recipeId (after_save s) = recipeId s /\
  sessionStorage (after_save s) = tier_remove (draft_key s) (sessionStorage s) /\
  localStorage (after_save s) = tier_remove (draft_key s) (localStorage s).
Proof.
  unfold after_save. simpl.
  destruct (tg s); repeat split.
Qed.

Lemma save_rejects (s : page) :
  str_empty (form_title s) = true \/ num_truthy (form_category s) = false ->
  exists msg,
    (msg = "Название не может быть пустым" \/ msg = "Выберите категорию") /\
    save s = Finished (Throw (Error msg)) (save_started s).
Proof.
  intros H. destruct (str_empty (form_title s)) eqn:Ht.
  - eexists. split; [left; reflexivity|]. apply save_rejects_title. exact Ht.
  - destruct H as [H|H]; [discriminate|].
    eexists. split; [right; reflexivity|].
    apply save_rejects_category; assumption.
Qed.

(** *** C8: validation before any network call *)

(** C8.  When the trimmed title is empty or the category select reads as
    0, [save] throws one of its two validation messages without having
    started any exchange (the run is [Finished], never [Suspended], so no
    PATCH is sent) and without touching the storage tiers; the click
    handler shows that message in the error line and releases the save
    button. *)
Theorem save_validation_is_local (s : page) :
  trim (title_value s) = "" \/ form_category s = Int 0 ->
  exists msg s',
    (msg = "Название не может быть пустым" \/ msg = "Выберите категорию") /\
    save s = Finished (Throw (Error msg)) (save_started s) /\
    sessionStorage (save_started s) = sessionStorage s /\
    localStorage (save_started s) = localStorage s /\
    on_save_click s = Finished (Normal tt) s' /\
    err_text s' = msg /\
    busy s' = false /\
    sessionStorage s' = sessionStorage s /\
    localStorage s' = localStorage s.
Proof.
  intros H.
  assert (H' : str_empty (form_title s) = true \/ num_truthy (form_category s) = false).
  { destruct H as [H|H].
    - left. rewrite form_title_trim, H. reflexivity.
    - right. rewrite H. reflexivity. }
  destruct (save_rejects s H') as [msg [Hmsg Hsave]].
  exists msg. eexists.
  split; [exact Hmsg|]. split; [exact Hsave|].
  split; [reflexivity|]. split; [reflexivity|].
  unfold on_save_click, afinally, acatch. rewrite Hsave. cbn.
  split; [reflexivity|].
  split; [destruct Hmsg as [-> | ->]; reflexivity|].
  repeat split.
Qed.

Lemma save_validation_is_local_witness :
  form_category page_without_category = Int 0 /\
  exists msg s',
    (msg = "Название не может быть пустым" \/ msg = "Выберите категорию") /\
    save page_without_category
      = Finished (Throw (Error msg)) (save_started page_without_category) /\
    sessionStorage (save_started page_without_category)
      = sessionStorage page_without_category /\
    localStorage (save_started page_without_category)
      = localStorage page_without_category /\
    on_save_click page_without_category = Finished (Normal tt) s' /\
    err_text s' = msg /\
    busy s' = false /\
    sessionStorage s' = sessionStorage page_without_category /\
    localStorage s' = localStorage page_without_category.
Proof.
  split; [reflexivity|].
  apply (save_validation_is_local page_without_category).
  right. reflexivity.
Defined.

Lemma after_save_no_draft (s : page) :
  readDraft (after_save s) = (Normal VNull, after_save s) /\
  (denied (sessionStorage s) = false ->
   items (sessionStorage (after_save s)) !! draft_key s = None) /\
  (denied (localStorage s) = false ->
   items (localStorage (after_save s)) !! draft_key s = None).
Proof.
  destruct (after_save_frame s) as (Ha & Hb & Hc).
  destruct (remove_both_no_draft s) as (Hn & Hs & Hl).
  split.
  - rewrite readDraft_eq. f_equal. f_equal.
    rewrite <- Hn. apply stored_draft_frame; [exact Ha| |].
    + rewrite Hb. reflexivity.
    + rewrite Hc. reflexivity.
  - split.
    + intros Hd. rewrite Hb. apply Hs in Hd. exact Hd.
    + intros Hd. rewrite Hc. apply Hl in Hd. exact Hd.
Qed.

(** *** C3: the draft is cleared by a successful save only *)

(** C3.  A [save] that fails validation (the trimmed title is empty, or
    the select reads as 0 or as no number) settles with the storage tiers
    as they were.  Otherwise it stops on the PATCH with the tiers as they
    were; when the answer makes [api] throw, the run settles with an error
    (the very error of a rejected fetch) in the very state the page has by
    then, so nothing is removed; when [api] returns, the run settles
    normally in a state where [readDraft] gives "no draft" and where every
    tier that can be accessed has no entry under the draft key.  So the
    draft is removed on no path of [save] but the successful one. *)
Theorem save_clears_draft_only_on_success (s : page) :
  (Number_in_model (select_value (category s)) = true ->
   str_empty (form_title s) = true \/ num_truthy (form_category s) = false ->
   exists e s',
     save s = Finished (Throw e) s' /\
     sessionStorage s' = sessionStorage s /\
     localStorage s' = localStorage s /\
     fst (readDraft s') = fst (readDraft s)) /\
  (str_empty (form_title s) = false -> num_truthy (form_category s) = true ->
   exists q k s1,
     save s = Suspended (Fetch q) s1 k /\
     req_method q = PATCH /\
     sessionStorage s1 = sessionStorage s /\
     localStorage s1 = localStorage s /\
     forall r s2,
       (forall e, api_result r = Throw e ->
          exists e', k r s2 = Finished (Throw e') s2) /\
       (forall e, r = Failed e -> k r s2 = Finished (Throw e) s2) /\
       (forall v, api_result r = Normal v ->
          exists s3,
            k r s2 = Finished (Normal tt) s3 /\
            readDraft s3 = (Normal VNull, s3) /\
            (denied (sessionStorage s2) = false ->
             items (sessionStorage s3) !! draft_key s2 = None) /\
            (denied (localStorage s2) = false ->
             items (localStorage s3) !! draft_key s2 = None))) /\
  every_outcome
    (fun c s' =>
       match c with
       | Normal _ => readDraft s' = (Normal VNull, s')
       | Throw _ => True
       end)
    (save s).
Proof.
  split; [|split].
  - intros _ H. destruct (save_rejects s H) as [msg [_ Hsave]].
    exists (Error msg), (save_started s).
    split; [exact Hsave|]. split; [reflexivity|]. split; [reflexivity|].
    rewrite !readDraft_eq. reflexivity.
  - intros H1 H2. destruct (save_sends_patch s H1 H2) as (q & k & Hk & Hq & Hr).
    exists q, k, (save_started s).
    split; [exact Hk|]. split; [exact Hq|].
    split; [reflexivity|]. split; [reflexivity|].
    intros r s2. split; [|split].
    + intros e He. exists e. rewrite Hr, He. reflexivity.
    + intros e ->. rewrite Hr. reflexivity.
    + intros v Hv. exists (after_save s2).
      split; [rewrite Hr, Hv; reflexivity|].
      apply after_save_no_draft.
  - destruct (str_empty (form_title s)) eqn:H1;
      [|destruct (num_truthy (form_category s)) eqn:H2].
    + rewrite (save_rejects_title s H1). exact I.
    + destruct (save_sends_patch s H1 H2) as (q & k & Hk & _ & Hr).
      rewrite Hk. cbn [every_outcome]. intros r s2. rewrite Hr.
      destruct (api_result r); cbn [every_outcome]; [|exact I].
      apply after_save_no_draft.
    + rewrite (save_rejects_category s H1 H2). exact I.
Qed.

(** *** [trim] *)

Section Strip.
Variable ps : list (list ascii).
Hypothesis ps_nonempty : Forall (fun p => p <> []) ps.

Lemma strip_prefix_app (p l r : list ascii) :
  strip_prefix p l = Some r <-> l = (p ++ r)%list.
Proof.
  revert l. induction p as [|a p IH]; intros l; simpl.
  - split; [intros [= ->]; reflexivity | intros ->; reflexivity].
  - destruct l as [|b l]; [split; discriminate|].
    destruct (Ascii.eqb a b) eqn:E.
    + apply Ascii.eqb_eq in E. subst b. rewrite IH.
      split; [intros ->; reflexivity | intros [= ->]; reflexivity].
    + split; [discriminate|]. intros [= -> _].
      rewrite Ascii.eqb_refl in E. discriminate.
Qed.

Lemma strip_any_some (qs : list (list ascii)) (l r : list ascii) :
  strip_any qs l = Some r -> exists p, In p qs /\ l = (p ++ r)%list.
Proof.
  induction qs as [|q qs IH]; simpl; [discriminate|].
  destruct (strip_prefix q l) as [r'|] eqn:E.
  - intros [= ->]. exists q. split; [left; reflexivity|].
    apply strip_prefix_app. exact E.
  - intros H. destruct (IH H) as (p & Hp & Hl). exists p.
    split; [right; exact Hp | exact Hl].
Qed.

Lemma strip_any_nil (qs : list (list ascii)) :
  Forall (fun p => p <> []) qs -> strip_any qs [] = None.
Proof.
  induction qs as [|q qs IH]; intros H; [reflexivity|].
  inversion H as [|? ? Hq Hqs]; subst. simpl.
  destruct q; [contradiction|]. simpl. apply IH. exact Hqs.
Qed.

Lemma strip_any_none (qs : list (list ascii)) (l : list ascii) :
  strip_any qs l = None -> forall p, In p qs -> strip_prefix p l = None.
Proof.
  induction qs as [|q qs IH]; simpl; intros H p Hp; [contradiction|].
  destruct (strip_prefix q l) eqn:E; [discriminate|].
  destruct Hp as [<- | Hp]; [exact E | apply IH; assumption].
Qed.

(** A prefix of a list that starts with none of the sequences starts
    with none of them either. *)
Lemma strip_any_none_prefix (l suf : list ascii) :
  strip_any ps (l ++ suf) = None -> strip_any ps l = None.
Proof.
  intros H. destruct (strip_any ps l) as [r|] eqn:E; [|reflexivity].
  destruct (strip_any_some ps l r E) as (p & Hp & ->).
  pose proof (strip_any_none ps _ H p Hp) as Hn.
  assert (Hs : strip_prefix p ((p ++ r) ++ suf) = Some (r ++ suf)%list).
  { apply strip_prefix_app. rewrite app_assoc. reflexivity. }
  rewrite Hs in Hn. discriminate.
Qed.

Lemma strip_all_none (n : nat) (l : list ascii) :
  (List.length l <= n)%nat -> strip_any ps (strip_all n ps l) = None.
Proof.
  revert l. induction n as [|n IH]; intros l Hlen; simpl.
  - destruct l; [|simpl in Hlen; lia].
    apply strip_any_nil. exact ps_nonempty.
  - destruct (strip_any ps l) as [r|] eqn:E; [|exact E].
    apply IH. destruct (strip_any_some ps l r E) as (p & Hp & ->).
    pose proof (proj1 (List.Forall_forall _ _) ps_nonempty p Hp) as Hne.
    rewrite length_app in Hlen. destruct p; [contradiction|].
    simpl in Hlen. lia.
Qed.

Lemma strip_all_fixed (n : nat) (l : list ascii) :
  strip_any ps l = None -> strip_all n ps l = l.
Proof. intros H. destruct n; simpl; [reflexivity|]. rewrite H. reflexivity. Qed.

Lemma strip_all_suffix (n : nat) (l : list ascii) :
  exists pre, l = (pre ++ strip_all n ps l)%list.
Proof.
  revert l. induction n as [|n IH]; intros l; simpl.
  - exists []. reflexivity.
  - destruct (strip_any ps l) as [r|] eqn:E; [|exists []; reflexivity].
    destruct (strip_any_some ps l r E) as (p & _ & ->).
    destruct (IH r) as [pre Hpre]. exists (p ++ pre)%list.
    rewrite <- app_assoc. f_equal. exact Hpre.
Qed.
End Strip.

Lemma white_space_nonempty : Forall (fun p : list ascii => p <> []) white_space.
Proof. unfold white_space. repeat constructor; discriminate. Qed.

Lemma white_space_rev_nonempty :
  Forall (fun p : list ascii => p <> []) (map (@rev ascii) white_space).
Proof. unfold white_space. repeat constructor; discriminate. Qed.

Lemma trim_end_prefix (l : list ascii) :
  exists suf, l = (trim_end l ++ suf)%list.
Proof.
  unfold trim_end.
  destruct (strip_all_suffix (map (@rev ascii) white_space) (List.length l) (rev l))
    as [pre Hpre].
  exists (rev pre). apply (f_equal (@rev ascii)) in Hpre.
  rewrite rev_involutive, rev_app_distr in Hpre. exact Hpre.
Qed.

Lemma trim_list_fixed (l : list ascii) :
  let t := trim_end (trim_start l) in
  trim_end (trim_start t) = t.
Proof.
  cbv zeta. set (a := trim_start l). set (b := trim_end a).
  assert (Ha : strip_any white_space a = None).
  { unfold a, trim_start. apply strip_all_none; [exact white_space_nonempty | lia]. }
  assert (Hb : strip_any white_space b = None).
  { destruct (trim_end_prefix a) as [suf Hsuf]. fold b in Hsuf.
    apply (strip_any_none_prefix white_space b suf). rewrite <- Hsuf. exact Ha. }
  assert (Hstart : trim_start b = b).
  { unfold trim_start. apply strip_all_fixed. exact Hb. }
  rewrite Hstart.
  assert (Hrev : strip_any (map (@rev ascii) white_space) (rev b) = None).
  { unfold b, trim_end. rewrite rev_involutive.
    apply strip_all_none; [exact white_space_rev_nonempty|].
    rewrite length_rev. lia. }
  unfold trim_end at 1. rewrite (strip_all_fixed _ _ _ Hrev).
  apply rev_involutive.
Qed.

(** [trim] changes nothing in a string that is already trimmed. *)
Lemma trim_idempotent (s : string) : trim (trim s) = trim s.
Proof.
  unfold trim. rewrite list_ascii_of_string_of_list_ascii.
  f_equal. apply trim_list_fixed.
Qed.

(** *** [String(n)] and [Number(s)] *)

Lemma strip_white_space_plain (c : ascii) (l : list ascii) :
  plain c = true -> strip_any white_space (c :: l) = None.
Proof.
  destruct c as [[] [] [] [] [] [] [] []]; intros H;
    try (vm_compute in H; discriminate H); reflexivity.
Qed.

Lemma strip_white_space_rev_plain (c : ascii) (l : list ascii) :
  plain c = true -> strip_any (map (@rev ascii) white_space) (c :: l) = None.
Proof.
  destruct c as [[] [] [] [] [] [] [] []]; intros H;
    try (vm_compute in H; discriminate H); reflexivity.
Qed.

Lemma trim_list_plain (l : list ascii) :
  List.Forall (fun c => plain c = true) l ->
  trim_end (trim_start l) = l.
Proof.
  intros H.
  assert (Hs : trim_start l = l).
  { unfold trim_start. destruct l as [|c l']; [reflexivity|].
    apply strip_all_fixed. apply strip_white_space_plain.
    inversion H; assumption. }
  rewrite Hs. unfold trim_end.
  destruct (rev l) as [|c r] eqn:E.
  - apply (f_equal (@rev ascii)) in E. rewrite rev_involutive in E.
    subst. reflexivity.
  - rewrite strip_all_fixed.
    + rewrite <- E. apply rev_involutive.
    + apply strip_white_space_rev_plain.
      pose proof (proj1 (List.Forall_forall _ _) H c) as Hc. apply Hc.
      apply (proj2 (List.in_rev l c)). rewrite E. left. reflexivity.
Qed.

Lemma trim_plain (s : string) :
  List.Forall (fun c => plain c = true) (list_ascii_of_string s) -> trim s = s.
Proof.
  intros H. unfold trim. rewrite (trim_list_plain _ H).
  apply string_of_list_ascii_of_string.
Qed.

Lemma uint_string_plain (d : uint) :
  List.Forall (fun c => plain c = true)
    (list_ascii_of_string (NilEmpty.string_of_uint d)).
Proof. induction d; simpl; constructor; try reflexivity; assumption. Qed.

Lemma decimal_string_plain (z : Z) :
  List.Forall (fun c => plain c = true) (list_ascii_of_string (decimal_string z)).
Proof.
  unfold decimal_string, NilZero.string_of_int.
  destruct (Z.to_int z) as [d|d]; [|simpl; constructor; [reflexivity|]];
    (destruct d; [simpl; repeat constructor | apply uint_string_plain ..]).
Qed.

Lemma NumberToString_small (z : Z) :
  Z.abs z < 10 ^ 21 -> NumberToString (Int z) = decimal_string z.
Proof.
  intros H. unfold NumberToString. apply Z.ltb_lt in H. rewrite H. reflexivity.
Qed.

Lemma uint_string_digits (d : uint) :
  forallb is_decimal_digit (list_ascii_of_string (NilEmpty.string_of_uint d)) = true.
Proof. induction d; simpl; try rewrite IHd; reflexivity. Qed.

Lemma span_digits_all (l : list ascii) :
  forallb is_decimal_digit l = true -> span_digits l = (l, []).
Proof.
  induction l as [|c l IH]; [reflexivity|].
  simpl. intros H. apply andb_true_iff in H. destruct H as [Hc Hl].
  rewrite Hc, (IH Hl). reflexivity.
Qed.

Lemma non_decimal_digits (l : list ascii) :
  forallb is_decimal_digit l = true -> non_decimal l = None.
Proof.
  destruct l as [|a [|c ds]]; try reflexivity.
  - destruct a as [[] [] [] [] [] [] [] []]; reflexivity.
  - simpl. intros H. apply andb_true_iff in H. destruct H as [_ H].
    apply andb_true_iff in H. destruct H as [Hc _].
    unfold non_decimal.
    destruct a as [[] [] [] [] [] [] [] []]; try reflexivity.
    revert Hc. destruct c as [[] [] [] [] [] [] [] []]; intros Hc;
      try (vm_compute in Hc; discriminate Hc); reflexivity.
Qed.

(** A run of decimal digits is the numeral of the integer it denotes. *)
Lemma unsigned_decimal_digits (a : ascii) (l : list ascii) :
  forallb is_decimal_digit (a :: l) = true ->
  unsigned_decimal (a :: l) = Whole (decimal (a :: l)).
Proof.
  intros H. unfold unsigned_decimal.
  assert (Hinf : String.eqb (string_of_list_ascii (a :: l)) "Infinity" = false).
  { simpl in H. apply andb_true_iff in H. destruct H as [Ha _]. revert Ha.
    destruct a as [[] [] [] [] [] [] [] []]; intros Ha;
      try (vm_compute in Ha; discriminate Ha); reflexivity. }
  rewrite Hinf, (span_digits_all _ H), app_nil_r.
  cbn [exponent_part List.length]. unfold scaled.
  rewrite Z.sub_0_r. cbn [Z.leb Z.compare Z.ltb].
  destruct (decimal (a :: l) =? 0) eqn:E.
  - apply Z.eqb_eq in E. rewrite E. reflexivity.
  - change (10 ^ 0) with 1. rewrite Z.mul_1_r. reflexivity.
Qed.

Lemma numeral_of_digits (a : ascii) (l : list ascii) :
  forallb is_decimal_digit (a :: l) = true ->
  numeral_of (a :: l) = Whole (decimal (a :: l)) /\
  numeral_of ("-"%char :: a :: l) = Whole (- decimal (a :: l)).
Proof.
  intros H. split.
  - unfold numeral_of. rewrite (non_decimal_digits _ H).
    rewrite <- (unsigned_decimal_digits a l H).
    simpl in H. apply andb_true_iff in H. destruct H as [Ha _]. revert Ha.
    destruct a as [[] [] [] [] [] [] [] []]; intros Ha;
      try (vm_compute in Ha; discriminate Ha); reflexivity.
  - unfold numeral_of. cbn [non_decimal].
    rewrite (unsigned_decimal_digits a l H). reflexivity.
Qed.

Lemma decimal_of_positive (p : positive) :
  decimal (list_ascii_of_string (NilEmpty.string_of_uint (Pos.to_uint p))) = Z.pos p.
Proof.
  unfold decimal. rewrite string_of_list_ascii_of_string, NilEmpty.usu.
  unfold Z.of_uint. rewrite DecimalPos.Unsigned.of_to. reflexivity.
Qed.

Lemma uint_string_first (d : uint) :
  d <> Nil ->
  exists c r, list_ascii_of_string (NilEmpty.string_of_uint d) = c :: r.
Proof.
  intros H. destruct d; [contradiction|..]; simpl;
    eexists; eexists; reflexivity.
Qed.

Lemma round_double_small (z : Z) :
  Z.abs z < 2 ^ 53 -> round_double z = Int z.
Proof.
  intros H. unfold round_double. apply Z.ltb_lt in H. rewrite H. reflexivity.
Qed.

(** [Number(String(n))] is [n] for an integer below 2^53 in size. *)
Lemma StringToNumber_NumberToString (z : Z) :
  Z.abs z < 2 ^ 53 -> StringToNumber (NumberToString (Int z)) = Int z.
Proof.
  intros Hz. rewrite NumberToString_small by lia.
  pose proof (trim_plain _ (decimal_string_plain z)) as Ht.
  unfold StringToNumber. rewrite Ht. clear Ht.
  destruct z as [|p|p]; [reflexivity|..];
    unfold decimal_string, Z.to_int, NilZero.string_of_int, NilZero.string_of_uint;
    pose proof (DecimalPos.Unsigned.to_uint_nonnil p) as Hnil;
    pose proof (uint_string_digits (Pos.to_uint p)) as Hd;
    pose proof (decimal_of_positive p) as Hv;
    destruct (uint_string_first _ Hnil) as (c & r & E);
    destruct (Pos.to_uint p) as [|u|u|u|u|u|u|u|u|u|u] eqn:Eu;
    try contradiction;
    cbn [str_empty NilEmpty.string_of_uint list_ascii_of_string] in *;
    rewrite E in Hd, Hv; injection E as <- <-.
  all: match goal with
       | H : forallb is_decimal_digit (?a :: ?l) = true |- _ =>
           destruct (numeral_of_digits a l H) as [Hp Hn]
       end.
  all: rewrite ?Hp, ?Hn, Hv; apply round_double_small; exact Hz.
Qed.

(** *** [String(n)] tells the numbers apart *)

Lemma list_ascii_of_string_app (a b : string) :
  list_ascii_of_string (a +:+ b)
    = (list_ascii_of_string a ++ list_ascii_of_string b)%list.
Proof. induction a as [|c a IH]; simpl; [reflexivity|]. rewrite IH. reflexivity. Qed.

Lemma string_of_list_inj (a b : string) :
  list_ascii_of_string a = list_ascii_of_string b -> a = b.
Proof.
  intros H. rewrite <- (string_of_list_ascii_of_string a),
    <- (string_of_list_ascii_of_string b), H. reflexivity.
Qed.

Lemma decimal_string_injective (x y : Z) :
  decimal_string x = decimal_string y -> x = y.
Proof.
  assert (Hint : forall z,
            NilZero.int_of_string (decimal_string z) = Some (Z.to_int z)).
  { intros z. unfold decimal_string. apply NilZero.isi;
      destruct z as [|p|p]; unfold Z.to_int; intros H;
      try discriminate H;
      injection H as H; exact (DecimalPos.Unsigned.to_uint_nonnil _ H). }
  intros H. apply (f_equal NilZero.int_of_string) in H.
  rewrite !Hint in H. injection H as H. apply DecimalZ.to_int_inj. exact H.
Qed.

(** The characters of an integer in decimal digits: digits, after a [-]
    for a negative one. *)
Lemma decimal_string_shape (z : Z) :
  exists c l,
    list_ascii_of_string (decimal_string z)
      = ((if z <? 0 then ["-"%char] else []) ++ c :: l)%list /\
    forallb is_decimal_digit (c :: l) = true.
Proof.
  unfold decimal_string.
  destruct z as [|p|p]; unfold Z.to_int, NilZero.string_of_int, NilZero.string_of_uint.
  - exists "0"%char, []. split; reflexivity.
  - pose proof (DecimalPos.Unsigned.to_uint_nonnil p) as Hnil.
    pose proof (uint_string_digits (Pos.to_uint p)) as Hd.
    destruct (uint_string_first _ Hnil) as (c & r & E).
    exists c, r. rewrite E in Hd.
    destruct (Pos.to_uint p); try contradiction; (split; [exact E|exact Hd]).
  - pose proof (DecimalPos.Unsigned.to_uint_nonnil p) as Hnil.
    pose proof (uint_string_digits (Pos.to_uint p)) as Hd.
    destruct (uint_string_first _ Hnil) as (c & r & E).
    exists c, r. rewrite E in Hd.
    destruct (Pos.to_uint p); try contradiction;
      (split; [cbn [list_ascii_of_string]; rewrite E; reflexivity|exact Hd]).
Qed.

Lemma digit_is_no_letter (c : ascii) :
  is_decimal_digit c = true ->
  c <> "e"%char /\ c <> "-"%char /\ c <> "."%char /\ c <> "N"%char /\ c <> "I"%char.
Proof.
  destruct c as [[] [] [] [] [] [] [] []]; intros H;
    try (vm_compute in H; discriminate H); repeat split; discriminate.
Qed.

Lemma digits_without (x : ascii) (l : list ascii) :
  is_decimal_digit x = false ->
  forallb is_decimal_digit l = true -> ~ In x l.
Proof.
  intros Hx Hl Hin. rewrite forallb_forall in Hl. specialize (Hl x Hin). congruence.
Qed.

Lemma no_e_in_decimal_string (z : Z) :
  ~ In "e"%char (list_ascii_of_string (decimal_string z)).
Proof.
  destruct (decimal_string_shape z) as (c & l & -> & Hd).
  intros Hin. apply in_app_or in Hin. destruct Hin as [Hin|Hin].
  - destruct (z <? 0); simpl in Hin; [destruct Hin as [Hin|[]]; discriminate|contradiction].
  - revert Hin. apply digits_without; [reflexivity|exact Hd].
Qed.

Lemma mantissa_chars (ds : string) (x : ascii) :
  In x (list_ascii_of_string (mantissa ds)) ->
  x = "."%char \/ In x (list_ascii_of_string ds).
Proof.
  destruct ds as [|c [|d rest]]; simpl; intros H; [contradiction|right; exact H|].
  destruct H as [H|[H|H]]; [right; left; exact H | left; symmetry; exact H |
                            right; right; exact H].
Qed.

Lemma mantissa_injective (a b : string) : mantissa a = mantissa b -> a = b.
Proof.
  destruct a as [|c [|d r]], b as [|c' [|d' r']]; simpl; intros H;
    try discriminate H; try reflexivity; try exact H.
  injection H as -> -> ->. reflexivity.
Qed.

(** Two texts that are cut at their first [e] are cut alike. *)
Lemma split_at_e (l1 l2 r1 r2 : list ascii) :
  ~ In "e"%char l1 -> ~ In "e"%char l2 ->
  (l1 ++ "e"%char :: r1 = l2 ++ "e"%char :: r2)%list ->
  l1 = l2 /\ r1 = r2.
Proof.
  revert l2. induction l1 as [|c l1 IH]; intros l2 H1 H2 H.
  - destruct l2 as [|c' l2]; simpl in H.
    + injection H as ->. split; reflexivity.
    + injection H as <- _. exfalso. apply H2. left. reflexivity.
  - destruct l2 as [|c' l2]; simpl in H.
    + injection H as -> _. exfalso. apply H1. left. reflexivity.
    + injection H as -> H.
      destruct (IH l2) as [-> ->]; [| |exact H|split; reflexivity].
      * intros Hin. apply H1. right. exact Hin.
      * intros Hin. apply H2. right. exact Hin.
Qed.

Lemma no_e_in_mantissa (z : Z) :
  ~ In "e"%char (list_ascii_of_string (mantissa (decimal_string z))).
Proof.
  intros H. apply mantissa_chars in H. destruct H as [H|H]; [discriminate H|].
  exact (no_e_in_decimal_string z H).
Qed.

Lemma exponent_form_injective (s1 e1 s2 e2 : Z) :
  exponent_form s1 e1 = exponent_form s2 e2 -> s1 = s2 /\ e1 = e2.
Proof.
  unfold exponent_form. intros H.
  apply (f_equal list_ascii_of_string) in H.
  rewrite !list_ascii_of_string_app in H. cbn [list_ascii_of_string app] in H.
  apply split_at_e in H; [|apply no_e_in_mantissa|apply no_e_in_mantissa].
  destruct H as [Hm Hx].
  apply string_of_list_inj, mantissa_injective, decimal_string_injective in Hm.
  subst s2. split; [reflexivity|].
  injection Hx as Hx. apply string_of_list_inj, decimal_string_injective in Hx. lia.
Qed.

Lemma round_double_nonpositive (z v : Z) :
  z <= 0 -> round_double z = Int v -> v <= 0.
Proof.
  intros Hz. unfold round_double.
  destruct (Z.abs z <? 2 ^ 53); [intros H; injection H as <-; exact Hz|].
  cbv zeta.
  set (k := Z.log2 (Z.abs z) - 52).
  set (q := Z.abs z / 2 ^ k).
  set (q' := if _ <? _ then _ else _).
  destruct (2 ^ 1024 <=? q' * 2 ^ k); [discriminate|].
  intros H. injection H as <-.
  assert (Hp : 0 <= 2 ^ k) by (apply Z.pow_nonneg; lia).
  assert (H0 : 0 <= q).
  { unfold q. apply Z_div_nonneg_nonneg; [lia|exact Hp]. }
  assert (Hq : 0 <= q').
  { unfold q'. repeat match goal with
           | |- context [if ?c then _ else _] => destruct c
           end; lia. }
  assert (0 <= q' * 2 ^ k) by (apply Z.mul_nonneg_nonneg; assumption).
  destruct (Z.sgn_spec z) as [[? ->]|[[? ->]|[? ->]]]; lia.
Qed.

Lemma rounds_to_positive (s e a : Z) :
  rounds_to s e a = true -> 0 < a -> 0 < s /\ 0 <= e.
Proof.
  unfold rounds_to. intros H Ha.
  destruct (round_double (s * 10 ^ e)) as [| |v] eqn:E; try discriminate H.
  apply Z.eqb_eq in H. subst v.
  assert (Hpos : 0 < s * 10 ^ e).
  { destruct (Z.lt_ge_cases 0 (s * 10 ^ e)) as [Hp|Hn]; [exact Hp|].
    pose proof (round_double_nonpositive _ _ Hn E). lia. }
  destruct (Z.lt_ge_cases e 0) as [He|He].
  - rewrite (Z.pow_neg_r 10 e He) in Hpos. lia.
  - split; [|exact He]. assert (0 < 10 ^ e) by (apply Z.pow_pos_nonneg; lia). nia.
Qed.

Lemma shortest_digits_sound (fuel : nat) (k a n s e : Z) :
  0 < a -> 0 <= k ->
  shortest_digits fuel k a n = Some (s, e) ->
  rounds_to s e a = true.
Proof.
  intros Ha. revert k. induction fuel as [|fuel IH]; intros k Hk; [discriminate|].
  cbn [shortest_digits].
  set (x := n - k). set (lo := a / 10 ^ x). set (hi := lo + 1).
  assert (Hnorm : forall p, rounds_to p x a = true ->
            (if p =? 10 ^ k then (1, n) else (p, x)) = (s, e) ->
            rounds_to s e a = true).
  { intros p Hp Heq. destruct (p =? 10 ^ k) eqn:E.
    - injection Heq as <- <-. apply Z.eqb_eq in E. subst p.
      destruct (rounds_to_positive _ _ _ Hp Ha) as [_ Hx].
      unfold rounds_to in *.
      replace (1 * 10 ^ n) with (10 ^ k * 10 ^ x); [exact Hp|].
      rewrite <- Z.pow_add_r by lia. rewrite Z.mul_1_l. unfold x. f_equal. lia.
    - injection Heq as <- <-. exact Hp. }
  destruct (rounds_to lo x a) eqn:Elo, (rounds_to hi x a) eqn:Ehi; cbn [andb].
  - destruct (a - lo * 10 ^ x <? hi * 10 ^ x - a).
    + intros H. injection H as H. apply (Hnorm lo Elo H).
    + destruct (hi * 10 ^ x - a <? a - lo * 10 ^ x).
      * intros H. injection H as H. apply (Hnorm hi Ehi H).
      * destruct (Z.even lo); intros H; injection H as H;
          [apply (Hnorm lo Elo H) | apply (Hnorm hi Ehi H)].
  - intros H. injection H as H. apply (Hnorm lo Elo H).
  - intros H. injection H as H. apply (Hnorm hi Ehi H).
  - apply IH. lia.
Qed.

(** The exponent form of a positive number starts with a digit. *)
Lemma exponent_form_first (s e : Z) :
  0 < s ->
  exists c r, exponent_form s e = String c r /\ is_decimal_digit c = true.
Proof.
  intros Hs. unfold exponent_form.
  destruct (decimal_string_shape s) as (c & l & Hl & Hd).
  assert (Hneg : (s <? 0) = false) by (apply Z.ltb_ge; lia).
  rewrite Hneg in Hl. cbn [app] in Hl.
  remember (decimal_string s) as ds eqn:Eds. clear Eds.
  destruct ds as [|c0 ds]; [discriminate Hl|].
  cbn [list_ascii_of_string] in Hl. injection Hl as -> _.
  cbn [forallb] in Hd. apply andb_prop in Hd. destruct Hd as [Hc _].
  destruct ds as [|d ds]; cbn [mantissa String.append];
    eexists; eexists; (split; [reflexivity|exact Hc]).
Qed.

(** What [String(n)] is for an integer: its decimal digits, or the
    exponent form of a decimal form that rounds to it. *)
Lemma NumberToString_cases (z : Z) :
  NumberToString (Int z) = decimal_string z \/
  exists s e,
    NumberToString (Int z) = (if z <? 0 then "-" else "") +:+ exponent_form s e /\
    rounds_to s e (Z.abs z) = true /\ 0 < s /\ z <> 0.
Proof.
  unfold NumberToString.
  destruct (Z.abs z <? 10 ^ 21) eqn:Eb; [left; reflexivity|].
  destruct (is_double z); [|left; reflexivity].
  cbv zeta.
  destruct (shortest_digits 17 1 (Z.abs z)
              (Z.of_nat (String.length (decimal_string (Z.abs z)))))
    as [[s e]|] eqn:Es; [|left; reflexivity].
  apply Z.ltb_ge in Eb.
  assert (Ha : 0 < Z.abs z) by (change (10 ^ 21) with 1000000000000000000000 in Eb; lia).
  pose proof (shortest_digits_sound 17 1 _ _ s e Ha ltac:(lia) Es) as Hr.
  right. exists s, e. split; [reflexivity|]. split; [exact Hr|].
  split; [apply (rounds_to_positive _ _ _ Hr Ha)|]. lia.
Qed.

Lemma rounds_to_one (s e a b : Z) :
  rounds_to s e a = true -> rounds_to s e b = true -> a = b.
Proof.
  unfold rounds_to. destruct (round_double (s * 10 ^ e)); try discriminate.
  intros H1 H2. apply Z.eqb_eq in H1, H2. congruence.
Qed.

Lemma NumberToString_first (z : Z) :
  exists c r,
    NumberToString (Int z) = String c r /\
    (c = "-"%char \/ is_decimal_digit c = true) /\
    (c = "-"%char -> exists d r', r = String d r' /\ is_decimal_digit d = true).
Proof.
  destruct (NumberToString_cases z) as [H|(s & e & H & _ & Hs & _)]; rewrite H.
  - destruct (decimal_string_shape z) as (c & l & Hl & Hd).
    cbn [forallb] in Hd. apply andb_prop in Hd. destruct Hd as [Hc _].
    remember (decimal_string z) as ds eqn:Eds. clear Eds.
    destruct (z <? 0); cbn [app] in Hl.
    + destruct ds as [|c0 [|c1 ds]]; try discriminate Hl.
      cbn [list_ascii_of_string] in Hl. injection Hl as -> -> _.
      eexists; eexists. split; [reflexivity|]. split; [left; reflexivity|].
      intros _. eexists; eexists. split; [reflexivity|exact Hc].
    + destruct ds as [|c0 ds]; try discriminate Hl.
      cbn [list_ascii_of_string] in Hl. injection Hl as -> _.
      eexists; eexists. split; [reflexivity|]. split; [right; exact Hc|].
      intros ->. discriminate Hc.
  - destruct (exponent_form_first s e Hs) as (c & r & -> & Hc).
    destruct (z <? 0); cbn [String.append].
    + eexists; eexists. split; [reflexivity|]. split; [left; reflexivity|].
      intros _. eexists; eexists. split; [reflexivity|exact Hc].
    + eexists; eexists. split; [reflexivity|]. split; [right; exact Hc|].
      intros ->. discriminate Hc.
Qed.

Lemma NumberToString_injective (a b : number) :
  NumberToString a = NumberToString b -> a = b.
Proof.
  assert (Hconst : forall z t,
            t = "NaN" \/ t = "Infinity" \/ t = "-Infinity" ->
            NumberToString (Int z) <> t).
  { intros z t Ht H.
    destruct (NumberToString_first z) as (c & r & Hz & Hc & Hm).
    rewrite Hz in H.
    destruct Ht as [-> | [-> | ->]]; injection H as -> Hr.
    - destruct Hc as [Hc|Hc]; discriminate Hc.
    - destruct Hc as [Hc|Hc]; discriminate Hc.
    - destruct (Hm eq_refl) as (d & r' & -> & Hd).
      injection Hr as -> _. discriminate Hd. }
  intros H.
  destruct a as [|[]|x], b as [|[]|y]; try reflexivity;
    try (simpl in H; discriminate H);
    try (exfalso; revert H; apply Hconst; cbn [NumberToString]; tauto);
    try (exfalso; symmetry in H; revert H; apply Hconst;
         cbn [NumberToString]; tauto).
  f_equal.
  destruct (NumberToString_cases x) as [Hx|(s1 & e1 & Hx & R1 & S1 & N1)],
           (NumberToString_cases y) as [Hy|(s2 & e2 & Hy & R2 & S2 & N2)];
    rewrite Hx, Hy in H.
  - apply decimal_string_injective. exact H.
  - exfalso. apply (no_e_in_decimal_string x). rewrite H.
    unfold exponent_form. rewrite !list_ascii_of_string_app.
    apply in_or_app. right. apply in_or_app. right. left. reflexivity.
  - exfalso. apply (no_e_in_decimal_string y). rewrite <- H.
    unfold exponent_form. rewrite !list_ascii_of_string_app.
    apply in_or_app. right. apply in_or_app. right. left. reflexivity.
  - destruct (exponent_form_first s1 e1 S1) as (c1 & r1 & F1 & D1).
    destruct (exponent_form_first s2 e2 S2) as (c2 & r2 & F2 & D2).
    assert (Hsign : (x <? 0) = (y <? 0)).
    { destruct (x <? 0), (y <? 0); try reflexivity; exfalso;
        rewrite F1, F2 in H; cbn [String.append] in H; injection H as Hc _;
        subst; discriminate. }
    rewrite Hsign in H.
    assert (Hform : exponent_form s1 e1 = exponent_form s2 e2).
    { destruct (y <? 0); cbn [String.append] in H; [injection H as H|]; exact H. }
    destruct (exponent_form_injective _ _ _ _ Hform) as [-> ->].
    pose proof (rounds_to_one _ _ _ _ R1 R2) as Habs.
    destruct (x <? 0) eqn:Ex; symmetry in Hsign.
    + apply Z.ltb_lt in Ex, Hsign. lia.
    + apply Z.ltb_ge in Ex, Hsign. lia.
Qed.

(** The select reads as the integer whose decimal form its value is. *)
Lemma form_category_of_value (c : select) (s : page) (n : Z) :
  Z.abs n < 2 ^ 53 ->
  category s = c ->
  select_value c = NumberToString (Int n) ->
  form_category s = Int n.
Proof.
  intros Hn Hc Hv. unfold form_category. rewrite Hc, Hv.
  pose proof (StringToNumber_NumberToString n Hn) as Hrt.
  remember (NumberToString (Int n)) as p eqn:E. clear E.
  destruct p as [|a r]; unfold js_or; simpl truthy; cbn [negb ToNumber].
  - rewrite <- Hrt. reflexivity.
  - exact Hrt.
Qed.

(** *** C1: [writeDraft] merges with the stored draft *)

Lemma put_both_lookup (key : string) (val : text) (s : page) :
  (writable (sessionStorage s) = true ->
   items (sessionStorage (put_both key val s)) !! key = Some val) /\
  (writable (localStorage s) = true ->
   items (localStorage (put_both key val s)) !! key = Some val).
Proof.
  unfold put_both, tier_put. simpl. split; intros H; rewrite H; simpl;
    apply lookup_insert_eq.
Qed.

Lemma put_both_read_back (v : jsval) (s : page) :
  writable (sessionStorage s) = true ->
  truthy v && is_object v = true ->
  stored_draft (put_both (draft_key s) (Json v) s) = v.
Proof.
  intros Hw Hv.
  unfold stored_draft, stored_raw, tier_get, draft_key, put_both, tier_put.
  simpl. rewrite Hw. simpl.
  unfold writable in Hw. apply andb_prop in Hw. destruct Hw as [Hd _].
  apply negb_true_iff in Hd. rewrite Hd.
  rewrite lookup_insert_eq. simpl. rewrite Hv. reflexivity.
Qed.

Lemma merged_category_prev_int (s : page) (prev : jsval) (n : Z) :
  Number_isFinite (form_category s) && num_truthy (form_category s) = false ->
  get_opt prev "category_id" = VNum (Int n) ->
  merged_category s prev = Int n.
Proof.
  intros Hb Hp. unfold merged_category, draft_category. rewrite Hb, Hp.
  unfold js_or. simpl. destruct (n =? 0) eqn:E; simpl.
  - apply Z.eqb_eq in E. subst. reflexivity.
  - rewrite E. reflexivity.
Qed.

Lemma merged_title_cases (s : page) (prev : jsval) :
  (blank (title_value s) = false -> merged_title s prev = trim (title_value s)) /\
  (blank (title_value s) = true ->
   forall t, get_opt prev "title" = VStr t -> blank t = false ->
             merged_title s prev = t) /\
  (blank (title_value s) = true ->
   (forall t, get_opt prev "title" = VStr t -> blank t = true) ->
   merged_title s prev = "") /\
  tidy (merged_title s prev) = true.
Proof.
  unfold merged_title. rewrite form_title_trim.
  repeat split.
  - intros Hb. unfold blank in Hb. rewrite Hb. reflexivity.
  - intros Hb t Ht Hnb. unfold blank in Hb. rewrite Hb, Ht, Hnb. reflexivity.
  - intros Hb Hall. unfold blank in Hb. rewrite Hb. cbn [negb].
    destruct (get_opt prev "title") as [| | | |t| |]; try reflexivity.
    rewrite (Hall t eq_refl). reflexivity.
  - destruct (str_empty (trim (title_value s))) eqn:E; simpl.
    + destruct (get_opt prev "title"); try reflexivity.
      destruct (blank s0) eqn:Eb; [reflexivity|].
      unfold tidy. rewrite Eb. apply orb_true_r.
    + unfold tidy, blank. rewrite trim_idempotent, E. apply orb_true_r.
Qed.

Lemma merged_category_cases (s : page) (prev : jsval) :
  (forall n, n <> 0 -> form_category s = Int n -> merged_category s prev = Int n) /\
  (Number_isFinite (form_category s) && num_truthy (form_category s) = false ->
   merged_category s prev =
     if num_truthy (draft_category prev) then draft_category prev else Int 0) /\
  (Number_isFinite (form_category s) && num_truthy (form_category s) = false ->
   forall n, get_opt prev "category_id" = VNum (Int n) ->
             merged_category s prev = Int n).
Proof.
  unfold merged_category. repeat split.
  - intros n Hn ->. apply Z.eqb_neq in Hn. simpl. rewrite Hn. reflexivity.
  - intros ->. reflexivity.
  - intros Hb n Hp. apply merged_category_prev_int; assumption.
Qed.

(** C1, as the script has it.  On a page with a recipe id, [writeDraft]
    hands one draft object to both tiers, and every tier that takes
    writes then holds it under the draft key.  The draft it merges with
    is the one [readDraft] returns.  (The select's value and the read
    draft's category id are taken to denote numbers of the model: no
    fractions.)

    The title stored is the form's title, trimmed, when that is not
    blank; when it is blank, the read draft's title when that is a string
    with something other than white space in it, and the empty string for
    every other read draft.

    The category id stored is the number the select reads as when that is
    finite and not 0: the integer whose decimal form the selected option's
    value is, whatever the read draft holds.  When the select reads as 0
    (nothing selected included), as NaN or as an infinity, it is the
    number the read draft's category id converts to, and 0 when that is 0
    or NaN; a number there is kept as it is, an infinity is written as
    null.

    So a draft with title A and category 1, written over from a form
    whose title is B and whose category reads as 1 or as nothing, becomes
    a draft with title B and category 1; from a form whose category reads
    as 2 it becomes one with category 2; and that is what [readDraft]
    returns afterwards. *)
Theorem writeDraft_merges_with_read_draft (s : page) (prev : jsval) :
  num_truthy (recipeId s) = true ->
  readDraft s = (Normal prev, s) ->
  Number_in_model (select_value (category s)) = true ->
  ToNumber_in_model (get_opt prev "category_id") = true ->
  exists title category_id s',
    writeDraft s = (Normal tt, s') /\
    (writable (sessionStorage s) = true ->
     items (sessionStorage s') !! draft_key s =
       Some (JSON_stringify (draft_object title category_id (clock s)))) /\
    (writable (localStorage s) = true ->
     items (localStorage s') !! draft_key s =
       Some (JSON_stringify (draft_object title category_id (clock s)))) /\
    (blank (title_value s) = false -> title = trim (title_value s)) /\
    (blank (title_value s) = true ->
     forall t, get_opt prev "title" = VStr t -> blank t = false -> title = t) /\
    (blank (title_value s) = true ->
     (forall t, get_opt prev "title" = VStr t -> blank t = true) -> title = "") /\
    tidy title = true /\
    (forall n, n <> 0 -> form_category s = Int n -> category_id = Int n) /\
    (forall n, n <> 0 -> Z.abs n < 2 ^ 53 ->
               select_value (category s) = NumberToString (Int n) ->
               category_id = Int n) /\
    (form_category s = Int 0 \/ selectedIndex (category s) = None ->
     forall n, get_opt prev "category_id" = VNum (Int n) -> category_id = Int n) /\
    (Number_isFinite (form_category s) && num_truthy (form_category s) = false ->
     category_id =
       if num_truthy (draft_category prev) then draft_category prev else Int 0) /\
    (forall n, category_id = Int n ->
               writable (sessionStorage s) = true ->
               readDraft s' = (Normal (draft_object title (Int n) (clock s)), s')) /\
    (forall negative, category_id = Infinity negative ->
       JSON_stringify (draft_object title category_id (clock s)) =
         Json (VObj [ ("title", VStr title);
                      ("category_id", VNull);
                      ("ts", VNum (Int (clock s))) ])) /\
    (get_opt prev "title" = VStr "A" ->
     get_opt prev "category_id" = VNum (Int 1) ->
     title_value s = "B" ->
     (select_value (category s) = "1" \/ select_value (category s) = "" ->
      title = "B" /\ category_id = Int 1) /\
     (select_value (category s) = "2" -> title = "B" /\ category_id = Int 2)).
Proof.
  intros Hid Hr _ _. rewrite readDraft_eq in Hr. injection Hr as Hprev.
  exists (merged_title s prev), (merged_category s prev).
  eexists. rewrite writeDraft_eq, Hid, Hprev.
  split; [reflexivity|].
  destruct (put_both_lookup (draft_key s)
              (JSON_stringify (draft_object (merged_title s prev)
                                 (merged_category s prev) (clock s))) s)
    as [Hs Hl].
  split; [exact Hs|]. split; [exact Hl|].
  destruct (merged_title_cases s prev) as (Tnew & Told & Tnone & Ttidy).
  destruct (merged_category_cases s prev) as (Cnew & Cfall & Cold).
  split; [exact Tnew|]. split; [exact Told|]. split; [exact Tnone|].
  split; [exact Ttidy|]. split; [exact Cnew|].
  assert (Cvalue : forall n, n <> 0 -> Z.abs n < 2 ^ 53 ->
            select_value (category s) = NumberToString (Int n) ->
            merged_category s prev = Int n).
  { intros n Hn Hb Hv. apply (Cnew n Hn).
    apply (form_category_of_value (category s) s n Hb eq_refl Hv). }
  split; [exact Cvalue|].
  assert (Czero : form_category s = Int 0 \/ selectedIndex (category s) = None ->
            Number_isFinite (form_category s) && num_truthy (form_category s) = false).
  { intros [H|H].
    - rewrite H. reflexivity.
    - unfold form_category, select_value. rewrite H. reflexivity. }
  split; [intros H n Hn; apply Cold; [apply Czero; exact H | exact Hn]|].
  split; [exact Cfall|].
  split.
  { intros n Hn Hw. rewrite readDraft_eq. f_equal. f_equal.
    rewrite Hn. unfold JSON_stringify. simpl json_value.
    apply (put_both_read_back (draft_object (merged_title s prev) (Int n) (clock s)) s Hw).
    reflexivity. }
  split; [intros b ->; reflexivity|].
  intros Ht Hc HB.
  assert (HtB : merged_title s prev = "B").
  { rewrite Tnew; rewrite HB; reflexivity. }
  split.
  - intros Hsel. split; [exact HtB|]. destruct Hsel as [Hsel|Hsel].
    + apply (Cvalue 1); [discriminate | reflexivity | exact Hsel].
    + apply Cold; [|exact Hc].
      unfold form_category; rewrite Hsel; reflexivity.
  - intros Hsel. split; [exact HtB|].
    apply (Cvalue 2); [discriminate | reflexivity | exact Hsel].
Qed.

(** The draft {title A, category 1} in both tiers, the form holding the
    title B and the category 2: the draft becomes {title B, category 2},
    and [readDraft] returns that. *)
Lemma writeDraft_merges_with_read_draft_witness :
  let p := page_with_draft_A_and_category_2 in
  num_truthy (recipeId p) = true /\
  readDraft p = (Normal draft_A, p) /\
  Number_in_model (select_value (category p)) = true /\
  ToNumber_in_model (get_opt draft_A "category_id") = true /\
  title_value p = "B" /\
  select_value (category p) = "2" /\
  exists title category_id s',
    writeDraft p = (Normal tt, s') /\
    readDraft s' = (Normal (draft_object title category_id 1000), s') /\
    title = "B" /\ category_id = Int 2.
Proof.
  cbv zeta.
  split; [reflexivity|]. split; [reflexivity|].
  split; [reflexivity|]. split; [reflexivity|].
  split; [reflexivity|]. split; [reflexivity|].
  destruct (writeDraft_merges_with_read_draft page_with_draft_A_and_category_2
              draft_A eq_refl eq_refl eq_refl eq_refl)
    as (title & category_id & s' & Hw & _ & _ & _ & _ & _ & _ & _ & _ & _ & _
        & Hread & _ & Hex).
  destruct (Hex eq_refl eq_refl eq_refl) as [_ Htwo].
  destruct (Htwo eq_refl) as [Ht Hc].
  exists title, category_id, s'.
  split; [exact Hw|].
  split; [rewrite Hc; apply (Hread 2 Hc eq_refl)|].
  split; assumption.
Defined.

(** C1 as the claim has it fails.  The durable tier holds the draft
    {title A, category 1} and the tab-scoped tier a string that is not
    JSON, so [readDraft] returns "no draft"; written from a blank form,
    both tiers then hold a draft with the empty title and the category 0:
    the stored draft has lost both fields. *)
Lemma writeDraft_overwrites_hidden_draft :
  let p := page_with_hidden_draft_A in
  tier_get (localStorage p) (draft_key p) = Some (Json draft_A) /\
  tier_get (sessionStorage p) (draft_key p) = Some (Plain "{oops") /\
  title_value p = "" /\
  select_value (category p) = "" /\
  readDraft p = (Normal VNull, p) /\
  exists s',
    writeDraft p = (Normal tt, s') /\
    items (localStorage s') !! draft_key p
      = Some (Json (draft_object "" (Int 0) 1000)) /\
    items (sessionStorage s') !! draft_key p
      = Some (Json (draft_object "" (Int 0) 1000)).
Proof.
  cbv zeta. repeat split; try reflexivity.
  eexists. split; [reflexivity|]. split; reflexivity.
Qed.

(** *** [load] *)

Lemma overlay_title_falsy (d : jsval) (cur : string) :
  truthy d = false -> overlay_title d cur = cur.
Proof.
  unfold overlay_title, get_opt.
  destruct d as [| |[]| | | |]; simpl; intros H; try discriminate; reflexivity.
Qed.

Lemma title_value_overlay (d : jsval) (s : page) :
  title_value (overlay d s) = overlay_title d (title_value s).
Proof.
  rewrite overlay_title_eq. destruct (truthy d) eqn:E; [reflexivity|].
  symmetry. apply overlay_title_falsy. exact E.
Qed.

Lemma not_nullish_get_prop (v : jsval) (k : string) :
  not_nullish v = true -> get_prop v k = Some (get_opt v k).
Proof.
  unfold get_opt. destruct v; simpl; intros H; try discriminate; reflexivity.
Qed.

Lemma api_result_not_nullish (r : reply) (v : jsval) :
  api_result r = Normal v -> not_nullish v = true.
Proof.
  unfold api_result. destruct r as [e|status ct body]; [discriminate|].
  destruct (if text_empty body then Normal VNull else JSON_parse body) as [j|e];
    [|discriminate].
  destruct (negb (res_ok status)); [discriminate|].
  destruct j; intros H; try discriminate; injection H as <-; reflexivity.
Qed.

Lemma set_category_twice (c1 c2 : select) (s : page) :
  set_category c2 (set_category c1 s) = set_category c2 s.
Proof. reflexivity. Qed.

Lemma append_categories_eq (cats : list jsval) (s : page) :
  forallb not_nullish cats = true ->
  append_categories cats s =
  (Normal tt,
   set_category
     (fold_left (fun c v => append_option v c) (category_values cats) (category s))
     s).
Proof.
  revert s. induction cats as [|c cats IH]; intros s H.
  - simpl. unfold ret. rewrite set_category_same. reflexivity.
  - simpl in H. apply andb_prop in H. destruct H as [Hc Hrest].
    cbn [append_categories]. unfold bind, prop.
    rewrite !(not_nullish_get_prop c _ Hc). unfold ret, modify.
    rewrite (IH _ Hrest). reflexivity.
Qed.

Lemma fold_append_options (vals : list string) (c : select) :
  options (fold_left (fun c v => append_option v c) vals c)
  = (options c ++ vals)%list.
Proof.
  revert c. induction vals as [|v vals IH]; intros c; simpl.
  - rewrite app_nil_r. reflexivity.
  - rewrite IH. simpl. rewrite <- app_assoc. reflexivity.
Qed.

(** The block of [load] between the two network exchanges. *)
Lemma load_fills_form (cats : list jsval) (recipe : jsval) (s : page) :
  forallb not_nullish cats = true ->
  not_nullish recipe = true ->
  (modify (set_category {| options := []; selectedIndex := None |}) ;;
   append_categories cats ;;
   let* t := prop recipe "title" in
   modify (set_title (ToString (js_or t (VStr "")))) ;;
   let* c := prop recipe "category_id" in
   modify (fun s => set_category (select_assign (ToString c) (category s)) s) ;;
   restoreDraftIntoForm) s
  = (Normal tt, overlay (stored_draft s) (hydrated cats recipe s)).
Proof.
  intros Hcats Hrec.
  unfold bind at 1. unfold modify at 1.
  unfold bind at 1. rewrite (append_categories_eq _ _ Hcats).
  unfold bind, prop. rewrite !(not_nullish_get_prop recipe _ Hrec).
  unfold ret, modify. rewrite restoreDraftIntoForm_eq.
  f_equal.
  match goal with |- overlay (stored_draft ?a) ?b = overlay _ ?c =>
    assert (Hst : stored_draft a = stored_draft s) by reflexivity;
    assert (Hh : b = c)
  end.
  { unfold hydrated, select_assign. simpl.
    rewrite fold_append_options. simpl. reflexivity. }
  rewrite Hst, Hh. reflexivity.
Qed.

Lemma ensure_draft_eq (s : page) :
  (let* d := readDraft in when (negb (truthy d)) writeDraft) s
  = (Normal tt, ensure_draft s).
Proof.
  unfold bind, ensure_draft. rewrite readDraft_eq.
  destruct (truthy (stored_draft s)); simpl; [reflexivity|].
  rewrite writeDraft_eq. reflexivity.
Qed.

(** A whole [load], the three answers given one after the other with no
    other handler in between: the form is filled from the server, the
    local draft is laid over it, then the remote one, and a draft is
    written when none is stored. *)
Lemma load_drive (s : page) (r1 r2 r3 : reply) (cats : list jsval) (recipe : jsval) :
  num_truthy (recipeId s) = true ->
  str_empty (default "" (tg s)) = false ->
  api_result r1 = Normal (VArr cats) ->
  forallb not_nullish cats = true ->
  api_result r2 = Normal recipe ->
  drive (load s) [r1; r2; r3] =
    Some (Normal tt,
          ensure_draft
            (overlay (remote_draft r3)
               (overlay (stored_draft s)
                  (hydrated cats recipe (set_busy false s)))),
          [ api_request "/categories" GET None s;
            api_request (recipe_path s) GET None s;
            api_request (draft_path s) GET None s ]).
Proof.
  intros Hid Htg H1 Hc H2.
  pose proof (api_result_not_nullish _ _ H2) as Hrec.
  unfold load. rewrite Hid, Htg. cbn [negb].
  unfold await at 1. unfold now at 1. unfold setBusy at 1, modify at 1.
  cbn [run_bind].
  unfold await at 1. unfold api_all at 1. cbn [run_bind drive].
  cbn [of_first of_second]. rewrite H1, H2. cbn [run_bind fst snd].
  unfold await at 1. unfold now at 1. unfold setBusy at 1, modify at 1.
  cbn [run_bind].
  unfold await at 1. unfold now at 1.
  rewrite (load_fills_form cats recipe _ Hc Hrec).
  cbn [run_bind]. unfold await at 1.
  match goal with |- context [restoreDraftFromRedisIntoForm ?x] =>
    destruct (restoreDraftFromRedisIntoForm_run x) as [k [Hk Hr]]
  end.
  rewrite Hk. cbn [run_bind drive]. rewrite Hr. cbn [run_bind].
  unfold now. rewrite ensure_draft_eq. cbn [drive].
  rewrite draft_request_overlay.
  reflexivity.
Qed.

Lemma overlay_category_falsy (d : jsval) (c : select) :
  truthy d = false -> overlay_category d c = c.
Proof.
  unfold overlay_category, draft_category, get_opt.
  destruct d as [| |[]| | | |]; simpl; intros H; try discriminate; reflexivity.
Qed.

Lemma category_overlay (d : jsval) (s : page) :
  category (overlay d s) = overlay_category d (category s).
Proof.
  rewrite overlay_category_eq. destruct (truthy d) eqn:E; [reflexivity|].
  symmetry. apply overlay_category_falsy. exact E.
Qed.

Create Rewrite HintDb overlay.
#[local] Hint Rewrite title_value_overlay category_overlay stored_draft_overlay
  : overlay.

Lemma put_both_form (key : string) (val : text) (s : page) :
  title_value (put_both key val s) = title_value s /\
  category (put_both key val s) = category s /\
  recipeId (put_both key val s) = recipeId s /\
  clock (put_both key val s) = clock s.
Proof. repeat split. Qed.

Lemma ensure_draft_form (s : page) :
  title_value (ensure_draft s) = title_value s /\
  category (ensure_draft s) = category s.
Proof.
  unfold ensure_draft. destruct (truthy (stored_draft s)); [split; reflexivity|].
  rewrite writeDraft_eq. simpl.
  destruct (num_truthy (recipeId s)); split; reflexivity.
Qed.

(** *** C5: the order of the overlays on load *)



(** *** C9: the first load leaves a draft in both tiers *)






(** C7 as the claim has it fails.  On the fresh page, whose title is blank
    and which has no draft, [pageshow] suspends on the remote draft, and a
    [visibilitychange] fired for the same transition suspends on a remote
    draft request of its own.  When both are answered "no draft" each
    starts a [load]: the record is requested twice, the second time while
    the first request is still out.  A single trigger, driven to its end,
    requests the record once. *)
Lemma duplicate_trigger_fetches_again :
  let first := on_pageshow fresh_page in
  let second := on_visibilitychange (page_of first) in
  let first' := resume first no_remote_draft_answer (page_of second) in
  let second' := resume second no_remote_draft_answer (page_of first') in
  title_is_blank fresh_page = true /\
  readDraft fresh_page = (Normal VNull, fresh_page) /\
  waiting_for first
    = Some (Fetch (api_request "/recipes/7/draft" GET None fresh_page)) /\
  waiting_for second
    = Some (Fetch (api_request "/recipes/7/draft" GET None fresh_page)) /\
  waiting_for first'
    = Some (FetchBoth (api_request "/categories" GET None fresh_page)
                      (api_request "/recipes/7" GET None fresh_page)) /\
  waiting_for second'
    = Some (FetchBoth (api_request "/categories" GET None fresh_page)
                      (api_request "/recipes/7" GET None fresh_page)) /\
  option_map (fun x => map req_path (snd x))
    (drive first
       [no_remote_draft_answer; categories_answer; recipe_answer;
        no_remote_draft_answer])
    = Some [ "/api/webapp/recipes/7/draft"; "/api/webapp/categories";
             "/api/webapp/recipes/7"; "/api/webapp/recipes/7/draft" ].
Proof.
  cbv zeta. repeat split; vm_compute; reflexivity.
Qed.

(** ** Further properties of the script *)

(** *** The two storage tiers (source lines 207-227) *)

Lemma storageGet_any (key : string) (s : page) :
  storageGet key s = (Normal (tiers_get key s), s).
Proof.
  unfold storageGet, tiers_get, tier_get, bind, try_catch, getItem, ret.
  simpl.
  destruct (denied (sessionStorage s)); simpl.
  - destruct (denied (localStorage s)); reflexivity.
  - destruct (items (sessionStorage s) !! key); simpl; [reflexivity|].
    destruct (denied (localStorage s)); reflexivity.
Qed.

Lemma tier_get_put (key k : string) (val : text) (t : tier) :
  tier_get (tier_put key val t) k =
  if writable t && String.eqb key k then Some val else tier_get t k.
Proof.
  unfold tier_get, tier_put, writable.
  destruct (denied t) eqn:Hd; simpl; [rewrite Hd; reflexivity|].
  destruct (full t); simpl; rewrite ?Hd; [reflexivity|].
  destruct (String.eqb key k) eqn:E.
  - apply String.eqb_eq in E. subst. apply lookup_insert_eq.
  - apply String.eqb_neq in E. apply lookup_insert_ne. exact E.
Qed.

Lemma tier_get_remove (key k : string) (t : tier) :
  tier_get (tier_remove key t) k =
  if String.eqb key k then None else tier_get t k.
Proof.
  unfold tier_get, tier_remove.
  destruct (denied t) eqn:Hd; simpl; rewrite ?Hd.
  - destruct (String.eqb key k); reflexivity.
  - destruct (String.eqb key k) eqn:E.
    + apply String.eqb_eq in E. subst. apply lookup_delete_eq.
    + apply String.eqb_neq in E. apply lookup_delete_ne. exact E.
Qed.

(** X1.  [storageSet] never throws, and what [storageGet] returns for the
    key afterwards is decided by the tab-scoped tier first: the value
    written when that tier took the write, or, when it cannot be accessed
    or has no entry, when the durable tier took it.  A tab-scoped tier
    that refuses the write (quota) while it still holds an older entry
    under the key keeps answering with the older entry, although the
    durable tier now holds the new value. *)
Theorem storageSet_then_storageGet (key : string) (val : text) (s : page) :
  exists s',
    storageSet key val s = (Normal tt, s') /\
    (writable (sessionStorage s) = true ->
     storageGet key s' = (Normal (Some val), s')) /\
    (tier_get (sessionStorage s) key = None ->
     writable (localStorage s) = true ->
     storageGet key s' = (Normal (Some val), s')) /\
    (forall old,
       full (sessionStorage s) = true ->
       tier_get (sessionStorage s) key = Some old ->
       storageGet key s' = (Normal (Some old), s') /\
       (writable (localStorage s) = true ->
        items (localStorage s') !! key = Some val)) /\
    (writable (sessionStorage s) = false ->
     writable (localStorage s) = false ->
     tiers_get key s' = tiers_get key s).
Proof.
  exists (put_both key val s). split; [apply storageSet_eq|].
  rewrite storageGet_any.
  assert (Hget : tiers_get key (put_both key val s) =
                 match (if writable (sessionStorage s) then Some val
                        else tier_get (sessionStorage s) key) with
                 | Some t => Some t
                 | None => if writable (localStorage s) then Some val
                           else tier_get (localStorage s) key
                 end).
  { unfold tiers_get, put_both. simpl. rewrite !tier_get_put, String.eqb_refl.
    rewrite !andb_true_r. reflexivity. }
  rewrite Hget.
  split; [intros ->; reflexivity|].
  split.
  { intros Hn Hw. rewrite Hn, Hw. destruct (writable (sessionStorage s)); reflexivity. }
  split.
  { intros old Hf Ho.
    assert (Hw : writable (sessionStorage s) = false).
    { unfold writable. rewrite Hf. apply andb_false_r. }
    rewrite Hw, Ho. split; [reflexivity|].
    intros Hl. apply (put_both_lookup key val s). exact Hl. }
  intros H1 H2. rewrite H1, H2. reflexivity.
Qed.

(** X2.  [storageRemove] never throws, and afterwards [storageGet] returns
    null for the key in every state of the two tiers, the states in which
    a tier cannot be accessed included. *)
Theorem storageRemove_then_storageGet (key : string) (s : page) :
  exists s',
    storageRemove key s = (Normal tt, s') /\
    storageGet key s' = (Normal None, s') /\
    (denied (sessionStorage s) = false ->
     items (sessionStorage s') !! key = None) /\
    (denied (localStorage s) = false ->
     items (localStorage s') !! key = None).
Proof.
  exists (remove_both key s). split; [apply storageRemove_eq|].
  rewrite storageGet_any. unfold tiers_get, remove_both. simpl.
  rewrite !tier_get_remove, String.eqb_refl.
  split; [reflexivity|].
  unfold tier_remove.
  split; intros ->; simpl; apply lookup_delete_eq.
Qed.

(** X3.  Writing or removing one key leaves every other key as it was:
    for a different key [storageGet] returns after [storageSet] and after
    [storageRemove] what it returned before. *)
Theorem storage_other_keys_untouched (key other : string) (val : text) (s : page) :
  key <> other ->
  fst (storageGet other (snd (storageSet key val s))) = fst (storageGet other s) /\
  fst (storageGet other (snd (storageRemove key s))) = fst (storageGet other s).
Proof.
  intros Hne. apply String.eqb_neq in Hne.
  rewrite storageSet_eq, storageRemove_eq, !storageGet_any. simpl.
  unfold tiers_get, put_both, remove_both. simpl.
  rewrite !tier_get_put, !tier_get_remove, Hne, !andb_false_r.
  split; reflexivity.
Qed.

Lemma storage_other_keys_untouched_witness :
  "sm_draft_recipe_7" <> "sm_draft_recipe_8" /\
  fst (storageGet "sm_draft_recipe_8"
         (snd (storageSet "sm_draft_recipe_7" (Plain "x") page_with_draft_A)))
    = fst (storageGet "sm_draft_recipe_8" page_with_draft_A) /\
  fst (storageGet "sm_draft_recipe_8"
         (snd (storageRemove "sm_draft_recipe_7" page_with_draft_A)))
    = fst (storageGet "sm_draft_recipe_8" page_with_draft_A).
Proof.
  split; [discriminate|].
  apply (storage_other_keys_untouched "sm_draft_recipe_7" "sm_draft_recipe_8").
  discriminate.
Defined.

(** *** Drafts of different recipes (source lines 203-205, 257-285) *)

Lemma draft_key_injective (s p : page) :
  draft_key s = draft_key p -> recipeId s = recipeId p.
Proof.
  unfold draft_key. intros H. simpl in H. injection H as H.
  apply NumberToString_injective. exact H.
Qed.

Lemma stored_draft_sharing (s p : page) :
  stored_draft (sharing_storage s p) =
  draft_of_raw (tiers_get (draft_key p) s).
Proof. reflexivity. Qed.

Lemma tiers_get_put_both_other (key k : string) (val : text) (s : page) :
  key <> k -> tiers_get k (put_both key val s) = tiers_get k s.
Proof.
  intros H. apply String.eqb_neq in H. unfold tiers_get, put_both. simpl.
  rewrite !tier_get_put, H, !andb_false_r. reflexivity.
Qed.

Lemma tiers_get_remove_both_other (key k : string) (s : page) :
  key <> k -> tiers_get k (remove_both key s) = tiers_get k s.
Proof.
  intros H. apply String.eqb_neq in H. unfold tiers_get, remove_both. simpl.
  rewrite !tier_get_remove, H. reflexivity.
Qed.

(** X4.  Pages of different recipes have different draft keys, so the
    draft of one recipe is out of reach of the other's page: what
    [readDraft] returns on the page of another recipe, looking at the same
    two storage areas, is the same after a [writeDraft] or a [clearDraft]
    on this page as before. *)
Theorem drafts_of_other_recipes_untouched (s p : page) :
  recipeId p <> recipeId s ->
  fst (draftKey p) <> fst (draftKey s) /\
  fst (readDraft (sharing_storage (snd (writeDraft s)) p))
    = fst (readDraft (sharing_storage s p)) /\
  fst (readDraft (sharing_storage (snd (clearDraft s)) p))
    = fst (readDraft (sharing_storage s p)).
Proof.
  intros Hne.
  assert (Hk : draft_key s <> draft_key p).
  { intros E. apply Hne. symmetry. apply draft_key_injective. exact E. }
  rewrite !draftKey_eq, !readDraft_eq, writeDraft_eq, clearDraft_eq.
  cbn [fst snd]. rewrite !stored_draft_sharing.
  split; [congruence|].
  split.
  - destruct (num_truthy (recipeId s)); [|reflexivity].
    rewrite (tiers_get_put_both_other _ _ _ _ Hk). reflexivity.
  - rewrite (tiers_get_remove_both_other _ _ _ Hk). reflexivity.
Qed.

Lemma drafts_of_other_recipes_untouched_witness :
  recipeId other_recipe_page <> recipeId page_with_draft_A /\
  fst (draftKey other_recipe_page) <> fst (draftKey page_with_draft_A) /\
  fst (readDraft (sharing_storage (snd (writeDraft page_with_draft_A))
                    other_recipe_page))
    = fst (readDraft (sharing_storage page_with_draft_A other_recipe_page)) /\
  fst (readDraft (sharing_storage (snd (clearDraft page_with_draft_A))
                    other_recipe_page))
    = fst (readDraft (sharing_storage page_with_draft_A other_recipe_page)).
Proof.
  split; [discriminate|].
  apply (drafts_of_other_recipes_untouched page_with_draft_A other_recipe_page).
  discriminate.
Defined.

(** *** [writeDraft] and the overlay, composed (source lines 241-281) *)

(** X5.  [writeDraft] never throws, whatever the storage does, and changes
    nothing but the two entries under the draft key: the form, the
    messages and every other key are as they were.  On a page without a
    recipe id, and on one whose two tiers both refuse the write, it
    changes nothing at all. *)
Theorem writeDraft_touches_only_the_draft (s : page) :
  exists s',
    writeDraft s = (Normal tt, s') /\
    title_value s' = title_value s /\
    category s' = category s /\
    err_text s' = err_text s /\
    ok_text s' = ok_text s /\
    location_href s' = location_href s /\
    (forall k, k <> draft_key s ->
               fst (storageGet k s') = fst (storageGet k s)) /\
    (num_truthy (recipeId s) = false -> s' = s) /\
    (writable (sessionStorage s) = false ->
     writable (localStorage s) = false -> s' = s).
Proof.
  eexists. split; [apply writeDraft_eq|].
  destruct (num_truthy (recipeId s)).
  - repeat split.
    + intros k Hk. rewrite !storageGet_any. cbn [fst].
      rewrite tiers_get_put_both_other; [reflexivity|]. congruence.
    + discriminate.
    + intros H1 H2. unfold put_both, tier_put. cbn. rewrite H1, H2.
      destruct s; reflexivity.
  - repeat split.
Qed.







(** X7.  What [writeDraft] stored brings a reset form back.  After a
    [writeDraft] on a form with a non-blank title, on a page with a recipe
    id whose tab-scoped tier takes the write, let the title field and the
    selection be reset to anything; [restoreDraftIntoForm] then puts the
    trimmed title back, and when the select read as a non-zero integer
    below 2^53 in size whose decimal form is the value of one of the
    options, the select reads as that integer again. *)
Theorem restore_after_write_recovers_form
  (s : page) (t : string) (sel : option nat) :
  num_truthy (recipeId s) = true ->
  writable (sessionStorage s) = true ->
  blank (title_value s) = false ->
  exists s',
    restoreDraftIntoForm (form_reset t sel (snd (writeDraft s))) = (Normal tt, s') /\
    title_value s' = trim (title_value s) /\
    options (category s') = options (category s) /\
    (forall n, form_category s = Int n -> n <> 0 -> Z.abs n < 2 ^ 53 ->
               has_option (NumberToString (Int n)) (category s) = true ->
               form_category s' = Int n /\
               select_value (category s') = NumberToString (Int n)).
Proof.
  intros Hid Hw Hb.
  rewrite writeDraft_eq, Hid. cbn [snd].
  set (prev := stored_draft s).
  set (D := draft_object (merged_title s prev) (merged_category s prev) (clock s)).
  set (s1 := put_both (draft_key s) (JSON_stringify D) s).
  eexists. split; [apply restoreDraftIntoForm_eq|].
  assert (Hst : stored_draft (form_reset t sel s1) = json_value D).
  { change (stored_draft (form_reset t sel s1)) with (stored_draft s1).
    unfold s1, JSON_stringify. apply put_both_read_back; [exact Hw|reflexivity]. }
  rewrite Hst.
  assert (Htitle : merged_title s prev = trim (title_value s)).
  { unfold merged_title. rewrite form_title_trim. unfold blank in Hb.
    rewrite Hb. reflexivity. }
  assert (Hnb : blank (trim (title_value s)) = false).
  { unfold blank. rewrite trim_idempotent. exact Hb. }
  split.
  { rewrite title_value_overlay. unfold overlay_title, D, draft_object.
    simpl. rewrite Htitle, Hnb. reflexivity. }
  split.
  { destruct (overlay_keeps_within (json_value D) (form_reset t sel s1)) as [Ho _].
    rewrite Ho. reflexivity. }
  intros n Hn Hnz Hsafe Hhas.
  assert (Hcat : merged_category s prev = Int n).
  { unfold merged_category. rewrite Hn. simpl.
    apply Z.eqb_neq in Hnz. rewrite Hnz. reflexivity. }
  assert (Hdc : draft_category (json_value D) = Int n).
  { unfold D, draft_object, draft_category, js_or. simpl. rewrite Hcat. simpl.
    apply Z.eqb_neq in Hnz. rewrite Hnz. reflexivity. }
  assert (Hsel : category (overlay (json_value D) (form_reset t sel s1)) =
                 select_assign (NumberToString (Int n))
                   {| options := options (category s); selectedIndex := sel |}).
  { rewrite category_overlay. unfold overlay_category. rewrite Hdc.
    change (category (form_reset t sel s1))
      with {| options := options (category s); selectedIndex := sel |}.
    assert (Hh : has_option (NumberToString (Int n))
                   {| options := options (category s); selectedIndex := sel |} = true)
      by exact Hhas.
    rewrite Hh. simpl. apply Z.eqb_neq in Hnz. rewrite Hnz. reflexivity. }
  assert (Hval : select_value (category (overlay (json_value D) (form_reset t sel s1)))
                 = NumberToString (Int n)).
  { rewrite Hsel. apply select_assign_value. exact Hhas. }
  split; [|exact Hval].
  eapply form_category_of_value; [exact Hsafe|reflexivity|exact Hval].
Qed.

Lemma restore_after_write_recovers_form_witness :
  blank (title_value page_with_draft_A) = false /\
  exists s',
    restoreDraftIntoForm (form_reset "" None (snd (writeDraft page_with_draft_A)))
      = (Normal tt, s') /\
    title_value s' = "B" /\
    form_category s' = Int 1.
Proof.
  split; [reflexivity|].
  destruct (restore_after_write_recovers_form page_with_draft_A "" None
              eq_refl eq_refl eq_refl) as (s' & Hr & Ht & _ & Hc).
  exists s'. split; [exact Hr|]. split; [exact Ht|].
  apply (Hc 1); [reflexivity|discriminate|reflexivity|reflexivity].
Defined.

(** *** [api] and the remote draft (source lines 287-307, 402-426) *)

(** X8.  [api] makes one request and leaves the page as it is.  It
    returns a value exactly when the answer is a response with a status
    from 200 to 299 whose body is JSON other than null, and the value is
    that body parsed; for every other answer it throws.  What it returns
    is never null or undefined. *)
Theorem api_returns_only_a_2xx_json_body
  (path : string) (m : method) (body : option text) (s : page) :
  exists q k,
    api path m body s = Suspended (Fetch q) s k /\
    req_method q = m /\
    req_path q = "/api/webapp" +:+ path /\
    req_body q = body /\
    forall r s',
      (exists c, k r s' = Finished c s') /\
      (forall v,
         k r s' = Finished (Normal v) s' <->
         exists status ct,
           r = Response status ct (Json v) /\
           200 <= status <= 299 /\
           not_nullish v = true).
Proof.
  eexists. eexists. split; [reflexivity|].
  split; [reflexivity|]. split; [reflexivity|]. split; [reflexivity|].
  intros r s'. split; [eexists; reflexivity|].
  intros v. split.
  - intros H. injection H as H.
    pose proof (api_result_not_nullish _ _ H) as Hnn.
    unfold api_result in H.
    destruct r as [e|status ct [j|p]]; [discriminate|..].
    + simpl in H. destruct (res_ok status) eqn:Hok; simpl in H; [|discriminate].
      exists status, ct.
      assert (j = v) by (destruct j; congruence). subst j.
      split; [reflexivity|]. split; [|exact Hnn].
      unfold res_ok in Hok. apply andb_prop in Hok. destruct Hok as [H1 H2].
      apply Z.leb_le in H1. apply Z.leb_le in H2. lia.
    + simpl in H. destruct (str_empty p); simpl in H.
      * destruct (res_ok status); simpl in H; discriminate.
      * discriminate.
  - intros (status & ct & -> & Hst & Hnn). f_equal.
    unfold api_result. simpl.
    assert (Hok : res_ok status = true).
    { unfold res_ok. apply andb_true_intro. split; apply Z.leb_le; lia. }
    rewrite Hok. simpl. destruct v; try discriminate; reflexivity.
Qed.

(** X9.  The errors of [api], in the order the code decides them.  A
    rejected fetch is thrown on as it is.  A body that is not empty and
    not JSON gives the "Non-JSON response" error for every status, 2xx
    included.  Otherwise a status outside 200..299 gives an error whose
    message is the body's [detail] when that is truthy, and "HTTP" with
    the status when the body is empty; and a 2xx answer with an empty
    body or the body [null] gives the "Empty JSON response" error. *)
Theorem api_error_messages (status : Z) (ct : option string) :
  (forall e, api_result (Failed e) = Throw e) /\
  (forall p, str_empty p = false ->
     exists rest,
       api_result (Response status ct (Plain p))
         = Throw (Error ("Non-JSON response (" +:+ rest))) /\
  (forall j, res_ok status = false -> truthy (get_opt j "detail") = true ->
     api_result (Response status ct (Json j))
       = Throw (Error (ToString (get_opt j "detail")))) /\
  (res_ok status = false ->
   api_result (Response status ct (Plain ""))
     = Throw (Error ("HTTP " +:+ NumberToString (Int status)))) /\
  (res_ok status = true ->
   api_result (Response status ct (Plain ""))
     = Throw (Error ("Empty JSON response (HTTP " +:+
                     NumberToString (Int status) +:+ ")")) /\
   api_result (Response status ct (Json VNull))
     = Throw (Error ("Empty JSON response (HTTP " +:+
                     NumberToString (Int status) +:+ ")"))).
Proof.
  split; [reflexivity|]. split.
  { intros p Hp. unfold api_result. simpl. rewrite Hp. simpl.
    eexists. reflexivity. }
  split.
  { intros j Hok Hd. unfold api_result. simpl. rewrite Hok. simpl.
    unfold js_or. rewrite Hd. cbv iota. rewrite Hd. reflexivity. }
  split.
  { intros Hok. unfold api_result. simpl. rewrite Hok. reflexivity. }
  intros Hok. unfold api_result. simpl. rewrite Hok. split; reflexivity.
Qed.

(** X10.  [putDraftToRedis] sends one PUT to the draft of the page's recipe
    and settles normally for every answer, a rejected fetch and an error
    status included, in the state the page has by then: it never throws
    and changes nothing.  The body carries the trimmed title, and as the
    category id the number the select reads as, or null when that is 0
    or no number. *)
Theorem putDraftToRedis_never_throws (s : page) :
  exists q k,
    putDraftToRedis s = Suspended (Fetch q) s k /\
    req_method q = PUT /\
    req_path q = "/api/webapp/recipes/" +:+ NumberToString (recipeId s) +:+ "/draft" /\
    (Number_in_model (select_value (category s)) = true ->
     num_truthy (form_category s) = false ->
     req_body q =
       Some (Json (VObj [ ("title", VStr (trim (title_value s)));
                          ("category_id", VNull) ]))) /\
    (forall n, form_category s = Int n -> n <> 0 ->
     req_body q =
       Some (Json (VObj [ ("title", VStr (trim (title_value s)));
                          ("category_id", VNum (Int n)) ]))) /\
    forall r s', k r s' = Finished (Normal tt) s'.
Proof.
  unfold putDraftToRedis, acatch, await, api. simpl.
  eexists. eexists. split; [reflexivity|].
  split; [reflexivity|]. split; [reflexivity|].
  rewrite form_title_trim.
  split; [|split].
  - intros _ H. rewrite H. reflexivity.
  - intros n Hn Hnz. rewrite Hn. simpl. apply Z.eqb_neq in Hnz. rewrite Hnz.
    reflexivity.
  - intros r s'. simpl. destruct (api_result r); reflexivity.
Qed.

(** X11.  [getDraftFromRedis] asks for the draft of the page's recipe and
    never throws: it returns null for a rejected fetch, for a status
    outside 200..299, and for a body that is empty, null or not JSON, and
    the parsed body in every other case.  The page is left as it is. *)
Theorem getDraftFromRedis_null_on_failure (s : page) :
  exists q k,
    getDraftFromRedis s = Suspended (Fetch q) s k /\
    req_method q = GET /\
    req_path q = "/api/webapp/recipes/" +:+ NumberToString (recipeId s) +:+ "/draft" /\
    (forall e s', k (Failed e) s' = Finished (Normal VNull) s') /\
    (forall status ct body s',
       res_ok status = false ->
       k (Response status ct body) s' = Finished (Normal VNull) s') /\
    (forall status ct p s',
       k (Response status ct (Plain p)) s' = Finished (Normal VNull) s') /\
    (forall status ct s',
       k (Response status ct (Json VNull)) s' = Finished (Normal VNull) s') /\
    (forall status ct v s',
       res_ok status = true -> not_nullish v = true ->
       k (Response status ct (Json v)) s' = Finished (Normal v) s').
Proof.
  unfold getDraftFromRedis, acatch, api. simpl.
  eexists. eexists. split; [reflexivity|].
  split; [reflexivity|]. split; [reflexivity|].
  split; [reflexivity|].
  split.
  { intros status ct body s' Hok. simpl. unfold api_result.
    destruct (if text_empty body then Normal VNull else JSON_parse body);
      [rewrite Hok|]; reflexivity. }
  split.
  { intros status ct p s'. simpl. unfold api_result. simpl.
    destruct (str_empty p); simpl; [|reflexivity].
    destruct (res_ok status); reflexivity. }
  split.
  { intros status ct s'. simpl. unfold api_result. simpl.
    destruct (res_ok status); reflexivity. }
  intros status ct v s' Hok Hv. simpl. unfold api_result. simpl.
  rewrite Hok. destruct v; try discriminate; reflexivity.
Qed.

(** *** Failures of [load] (source lines 428-463, 532-534) *)

(** X12.  Without a recipe id in the URL, or without the host's initData,
    [load] throws before it has made any request or changed anything,
    the busy flag included; started by the script's last statement, the
    message ends up in the error line. *)
Theorem load_refuses_without_id_or_host (s : page) :
  num_truthy (recipeId s) = false \/ str_empty (default "" (tg s)) = true ->
  exists msg,
    (msg = "Нет recipe_id в URL" \/
     msg = "Откройте это окно из Telegram (WebApp initData отсутствует)") /\
    load s = Finished (Throw (Error msg)) s /\
    on_start s = Finished (Normal tt) (set_busy false (set_messages msg "" s)).
Proof.
  intros H. unfold on_start, afinally, acatch, load.
  destruct (num_truthy (recipeId s)) eqn:Hid; simpl.
  - destruct H as [H|H]; [discriminate|]. rewrite H.
    eexists. split; [right; reflexivity|]. split; reflexivity.
  - eexists. split; [left; reflexivity|]. split; reflexivity.
Qed.

Lemma load_refuses_without_id_or_host_witness :
  num_truthy (recipeId page_without_id) = false /\
  exists msg,
    load page_without_id = Finished (Throw (Error msg)) page_without_id /\
    on_start page_without_id
      = Finished (Normal tt) (set_busy false (set_messages msg "" page_without_id)).
Proof.
  split; [reflexivity|].
  destruct (load_refuses_without_id_or_host page_without_id (or_introl eq_refl))
    as (msg & _ & H1 & H2).
  exists msg. split; assumption.
Defined.

Lemma load_starts (s : page) :
  num_truthy (recipeId s) = true ->
  str_empty (default "" (tg s)) = false ->
  exists k,
    load s =
      Suspended (FetchBoth (api_request "/categories" GET None s)
                           (api_request (recipe_path s) GET None s))
        (set_busy true s) k /\
    (forall a s' e1 e2,
       api_result (of_first a) = Throw e1 ->
       api_result (of_second a) = Throw e2 ->
       k a s' = Finished (Throw (if second_settled_first a then e2 else e1)) s') /\
    (forall a s' e v, api_result (of_first a) = Throw e ->
                      api_result (of_second a) = Normal v ->
                      k a s' = Finished (Throw e) s') /\
    (forall a s' v e, api_result (of_first a) = Normal v ->
                      api_result (of_second a) = Throw e ->
                      k a s' = Finished (Throw e) s') /\
    (forall a s' v recipe,
       api_result (of_first a) = Normal v ->
       api_result (of_second a) = Normal recipe ->
       (forall items, v <> VArr items) ->
       k a s' = Finished (Throw (Error "categories: expected array"))
                  (set_busy false s')) /\
    (forall a s' before after recipe,
       api_result (of_first a) = Normal (VArr (before ++ VNull :: after)) ->
       api_result (of_second a) = Normal recipe ->
       forallb not_nullish before = true ->
       k a s' = Finished (Throw TypeError)
                  (set_category
                     (fold_left (fun c v => append_option v c)
                        (category_values before)
                        {| options := []; selectedIndex := None |})
                     (set_busy false s'))).
Proof.
  intros Hid Htg. unfold load. rewrite Hid, Htg. cbn [negb].
  unfold await at 1. unfold now at 1. unfold setBusy at 1, modify at 1.
  cbn [run_bind]. unfold await at 1. unfold api_all at 1. cbn [run_bind].
  eexists. split; [reflexivity|].
  split; [|split; [|split; [|split]]].
  - intros a s' e1 e2 H1 H2. cbn beta. rewrite H1, H2. reflexivity.
  - intros a s' e v H1 H2. cbn beta. rewrite H1, H2. reflexivity.
  - intros a s' v e H1 H2. cbn beta. rewrite H1, H2. reflexivity.
  - intros a s' v recipe H1 H2 Hna. cbn beta. rewrite H1, H2.
    cbn [run_bind fst snd]. unfold await at 1. unfold now at 1.
    unfold setBusy at 1, modify at 1. cbn [run_bind].
    destruct v as [| | | | |l|]; try reflexivity.
    exfalso. apply (Hna l). reflexivity.
  - intros a s' before after recipe H1 H2 Hb. cbn beta. rewrite H1, H2.
    cbn [run_bind fst snd]. unfold await at 1. unfold now at 1.
    unfold setBusy at 1, modify at 1. cbn [run_bind].
    unfold await at 1. unfold now at 1.
    assert (Happ : forall x,
              append_categories (before ++ VNull :: after) x =
              (Throw TypeError,
               set_category
                 (fold_left (fun c v => append_option v c)
                    (category_values before) (category x)) x)).
    { clear -Hb. induction before as [|c before IH]; intros x.
      - simpl. unfold bind, prop. simpl. unfold throw.
        rewrite set_category_same. reflexivity.
      - simpl in Hb. apply andb_prop in Hb. destruct Hb as [Hc Hrest].
        cbn [app append_categories]. unfold bind, prop.
        rewrite !(not_nullish_get_prop c _ Hc). unfold ret, modify.
        rewrite (IH Hrest). reflexivity. }
    unfold bind at 1. unfold modify at 1.
    unfold bind at 1. rewrite Happ. reflexivity.
Qed.

(** X13.  Failures of [load] after its requests have left.  When a
    request fails [load] throws, in the state the page has by then and
    with the busy flag still set: the error of the failed request when one
    of the two fails, and of the request that failed first when both do.
    When the categories are not an array it throws "categories: expected
    array" with the form as it was.  A null entry in the categories stops
    it with a TypeError after the select has been emptied and filled with
    the entries before the null one: the title field still holds what it
    held, and no draft has been read or written. *)
Theorem load_failures_after_fetch (s : page) :
  num_truthy (recipeId s) = true ->
  str_empty (default "" (tg s)) = false ->
  exists q1 q2 k,
    load s = Suspended (FetchBoth q1 q2) (set_busy true s) k /\
    (forall a s' e,
       api_result (of_first a) = Throw e \/ api_result (of_second a) = Throw e ->
       exists e', k a s' = Finished (Throw e') s') /\
    (forall a s' e,
       of_first a = Failed e ->
       (forall e2, api_result (of_second a) = Throw e2 ->
                   second_settled_first a = false) ->
       k a s' = Finished (Throw e) s') /\
    (forall a s' e,
       of_second a = Failed e ->
       (forall e1, api_result (of_first a) = Throw e1 ->
                   second_settled_first a = true) ->
       k a s' = Finished (Throw e) s') /\
    (forall a s' v recipe,
       api_result (of_first a) = Normal v ->
       api_result (of_second a) = Normal recipe ->
       (forall items, v <> VArr items) ->
       exists s'',
         k a s' = Finished (Throw (Error "categories: expected array")) s'' /\
         title_value s'' = title_value s' /\
         category s'' = category s' /\
         sessionStorage s'' = sessionStorage s' /\
         localStorage s'' = localStorage s') /\
    (forall a s' before after recipe,
       api_result (of_first a) = Normal (VArr (before ++ VNull :: after)) ->
       api_result (of_second a) = Normal recipe ->
       forallb not_nullish before = true ->
       exists e s'',
         k a s' = Finished (Throw e) s'' /\
         name e = "TypeError" /\
         options (category s'') = category_values before /\
         title_value s'' = title_value s' /\
         sessionStorage s'' = sessionStorage s' /\
         localStorage s'' = localStorage s').
Proof.
  intros Hid Htg.
  destruct (load_starts s Hid Htg) as (k & Hk & H0 & H1 & H2 & H3 & H4).
  eexists. eexists. exists k. split; [exact Hk|].
  split; [|split; [|split; [|split]]].
  - intros a s' e He.
    destruct (api_result (of_first a)) as [v1|e1] eqn:E1,
             (api_result (of_second a)) as [v2|e2] eqn:E2.
    + destruct He as [He|He]; discriminate He.
    + eexists. apply (H2 a s' v1 e2 E1 E2).
    + eexists. apply (H1 a s' e1 v2 E1 E2).
    + eexists. apply (H0 a s' e1 e2 E1 E2).
  - intros a s' e Ha Hord.
    assert (E1 : api_result (of_first a) = Throw e) by (rewrite Ha; reflexivity).
    destruct (api_result (of_second a)) as [v2|e2] eqn:E2.
    + apply (H1 a s' e v2 E1 E2).
    + rewrite (H0 a s' e e2 E1 E2), (Hord e2 eq_refl). reflexivity.
  - intros a s' e Ha Hord.
    assert (E2 : api_result (of_second a) = Throw e) by (rewrite Ha; reflexivity).
    destruct (api_result (of_first a)) as [v1|e1] eqn:E1.
    + apply (H2 a s' v1 e E1 E2).
    + rewrite (H0 a s' e1 e E1 E2), (Hord e1 eq_refl). reflexivity.
  - intros a s' v recipe Ha Hb Hna. eexists.
    split; [apply (H3 a s' v recipe Ha Hb Hna)|]. repeat split.
  - intros a s' before after recipe Ha Hb Hbefore. eexists. eexists.
    split; [apply (H4 a s' before after recipe Ha Hb Hbefore)|].
    split; [reflexivity|]. split; [|repeat split].
    simpl. rewrite fold_append_options. reflexivity.
Qed.

(** On the fresh page: categories that come back as an object, and two
    rejected fetches of which the record's is the first. *)
Lemma load_failures_after_fetch_witness :
  num_truthy (recipeId fresh_page) = true /\
  exists q1 q2 k s'',
    load fresh_page = Suspended (FetchBoth q1 q2) (set_busy true fresh_page) k /\
    k {| of_first := ok_json (VObj []); of_second := recipe_answer;
         second_settled_first := false |} fresh_page
      = Finished (Throw (Error "categories: expected array")) s'' /\
    title_value s'' = title_value fresh_page /\
    category s'' = category fresh_page /\
    k {| of_first := Failed (Error "categories down");
         of_second := Failed (Error "recipe down");
         second_settled_first := true |} fresh_page
      = Finished (Throw (Error "recipe down")) fresh_page.
Proof.
  split; [reflexivity|].
  destruct (load_failures_after_fetch fresh_page eq_refl eq_refl)
    as (q1 & q2 & k & Hk & _ & _ & Hsecond & H3 & _).
  destruct (H3 {| of_first := ok_json (VObj []); of_second := recipe_answer;
                  second_settled_first := false |} fresh_page (VObj [])
              (VObj [ ("id", VNum (Int 7)); ("title", VStr "Server Title");
                      ("category_id", VNum (Int 2)) ])
              eq_refl eq_refl) as (s'' & Hrun & Ht & Hc & _).
  { intros items. discriminate. }
  exists q1, q2, k, s''.
  split; [exact Hk|]. split; [exact Hrun|]. split; [exact Ht|].
  split; [exact Hc|].
  apply (Hsecond {| of_first := Failed (Error "categories down");
                    of_second := Failed (Error "recipe down");
                    second_settled_first := true |} fresh_page
           (Error "recipe down") eq_refl).
  intros e1 _. reflexivity.
Defined.

(** *** The guarded starts (source lines 504-508, 532-534) *)

Lemma guarded_run_settles (r : run unit) :
  every_outcome (fun c s => c = Normal tt /\ busy s = false)
    (run_finally (run_catch r (fun e => now (setErr (exn_text e))))
       (now (setBusy false))).
Proof.
  induction r as [c s|w s k IH].
  - destruct c as [[]|e]; simpl; split; reflexivity.
  - simpl. intros a s'. apply IH.
Qed.

(** X14.  However the answers come out and whatever else happens to the
    page while they are awaited, the click on the save button and the
    start of the page never end in an unhandled rejection and always end
    with the save button released: every outcome of [on_save_click] and
    of [on_start] is normal, with the busy flag off. *)
Theorem guarded_starts_always_release (s : page) :
  every_outcome (fun c s' => c = Normal tt /\ busy s' = false) (on_save_click s) /\
  every_outcome (fun c s' => c = Normal tt /\ busy s' = false) (on_start s).
Proof.
  split; [unfold on_save_click | unfold on_start];
    unfold afinally, acatch; apply guarded_run_settles.
Qed.

(** X15.  A click on the save button with a usable form sends one PATCH
    with the trimmed title and the category id.  When it succeeds the page
    shows the success message with an empty error line, tells the host
    once that the recipe was updated (when there is a host), schedules
    closing and releases the button.  When it fails an error is shown and
    the success line is empty (the error line holds the message of the
    error [api] threw, which the model has for every answer but a status
    outside 200..299 with a JSON body without [detail], where the message
    is the body as received), and nothing is sent to the host, no closing
    is scheduled and the form and the storage are as they were. *)
Theorem save_click_outcomes (s : page) :
  str_empty (form_title s) = false ->
  num_truthy (form_category s) = true ->
  exists q k,
    on_save_click s = Suspended (Fetch q) (save_started s) k /\
    req_method q = PATCH /\
    req_path q = "/api/webapp/recipes/" +:+ NumberToString (recipeId s) /\
    req_body q =
      Some (JSON_stringify
              (VObj [ ("title", VStr (trim (title_value s)));
                      ("category_id", VNum (form_category s)) ])) /\
    forall r s2,
      (forall v, api_result r = Normal v ->
         exists s3,
           k r s2 = Finished (Normal tt) s3 /\
           ok_text s3 = "Сохранено" /\
           err_text s3 = "" /\
           close_scheduled s3 = true /\
           busy s3 = false /\
           (forall init, tg s2 = Some init ->
              sent s3 =
                (sent s2 ++
                 [JSON_stringify
                    (VObj [ ("type", VStr "recipe_updated");
                            ("recipe_id", VNum (recipeId s2)) ])])%list) /\
           (tg s2 = None -> sent s3 = sent s2)) /\
      (forall e, api_result r = Throw e ->
         exists s3,
           k r s2 = Finished (Normal tt) s3 /\
           (body_is_the_message r = false -> err_text s3 = exn_text e) /\
           ok_text s3 = "" /\
           busy s3 = false /\
           sent s3 = sent s2 /\
           close_scheduled s3 = close_scheduled s2 /\
           title_value s3 = title_value s2 /\
           category s3 = category s2 /\
           sessionStorage s3 = sessionStorage s2 /\
           localStorage s3 = localStorage s2).
Proof.
  intros H1 H2. destruct (save_sends_patch s H1 H2) as (q & k & Hk & Hq & Hr).
  unfold on_save_click, afinally, acatch. rewrite Hk. cbn [run_catch run_finally].
  exists q. eexists. split; [reflexivity|]. split; [exact Hq|].
  assert (Hreq : req_path q = "/api/webapp/recipes/" +:+ NumberToString (recipeId s) /\
                 req_body q =
                   Some (JSON_stringify
                           (VObj [ ("title", VStr (trim (title_value s)));
                                   ("category_id", VNum (form_category s)) ]))).
  { clear Hr. apply (f_equal waiting_for) in Hk. revert Hk.
    save_reads_form s. rewrite H1, H2. simpl.
    intros Hk. injection Hk as Hq'. subst q. rewrite form_title_trim.
    split; reflexivity. }
  destruct Hreq as [Hp Hb]. split; [exact Hp|]. split; [exact Hb|].
  intros r s2. cbn beta. rewrite Hr. split.
  - intros v Hv. rewrite Hv. cbn [run_catch run_finally]. unfold now, setBusy, modify.
    cbn [run_bind]. eexists. split; [reflexivity|].
    unfold after_save. simpl. destruct (tg s2) eqn:Htg; simpl.
    + repeat split; intros; try reflexivity; try discriminate.
    + repeat split; intros; try reflexivity; try discriminate.
  - intros e He. rewrite He. cbn [run_catch run_finally]. unfold now, setErr, setBusy, modify.
    cbn [run_bind]. eexists. split; [reflexivity|]. repeat split.
Qed.

Lemma save_click_outcomes_witness :
  str_empty (form_title (set_title "Borscht" fresh_page)) = false /\
  exists q k,
    on_save_click (set_title "Borscht" fresh_page)
      = Suspended (Fetch q) (save_started (set_title "Borscht" fresh_page)) k /\
    req_method q = PATCH /\
    req_path q = "/api/webapp/recipes/7".
Proof.
  split; [reflexivity|].
  destruct (save_click_outcomes (set_title "Borscht" fresh_page) eq_refl eq_refl)
    as (q & k & Hk & Hm & Hp & _).
  exists q, k. repeat split; assumption.
Defined.

(** *** [load] and the escalation, driven to the end *)

Lemma overlay_storage (d : jsval) (s : page) :
  sessionStorage (overlay d s) = sessionStorage s /\
  localStorage (overlay d s) = localStorage s /\
  recipeId (overlay d s) = recipeId s.
Proof. destruct (overlay_frame d s) as (H1 & H2 & H3 & _). repeat split; assumption. Qed.

(** X16.  [load] writes a draft only when [readDraft] returns none.  When
    [readDraft] returns a draft on the page as [load] finds it, a [load]
    whose server answers are usable ends with both tiers exactly as they
    were and with [readDraft] returning the same draft, whatever the form
    ends up holding: values that the server or the remote draft put into
    the form are not written to the local draft by [load]. *)
Theorem load_keeps_an_existing_draft
  (s : page) (r1 r2 r3 : reply) (cats : list jsval) (recipe d : jsval) :
  num_truthy (recipeId s) = true ->
  str_empty (default "" (tg s)) = false ->
  api_result r1 = Normal (VArr cats) ->
  forallb not_nullish cats = true ->
  api_result r2 = Normal recipe ->
  readDraft s = (Normal d, s) ->
  truthy d = true ->
  exists s',
    drive (load s) [r1; r2; r3] =
      Some (Normal tt, s',
            [ api_request "/categories" GET None s;
              api_request (recipe_path s) GET None s;
              api_request (draft_path s) GET None s ]) /\
    sessionStorage s' = sessionStorage s /\
    localStorage s' = localStorage s /\
    readDraft s' = (Normal d, s').
Proof.
  intros Hid Htg H1 Hc H2 Hr Hd. rewrite readDraft_eq in Hr. injection Hr as Hst.
  eexists. split; [apply (load_drive s r1 r2 r3 cats recipe); assumption|].
  set (x := overlay (remote_draft r3)
              (overlay (stored_draft s) (hydrated cats recipe (set_busy false s)))).
  assert (Hx : sessionStorage x = sessionStorage s /\
               localStorage x = localStorage s /\ recipeId x = recipeId s).
  { unfold x.
    destruct (overlay_storage (remote_draft r3)
                (overlay (stored_draft s) (hydrated cats recipe (set_busy false s))))
      as (-> & -> & ->).
    destruct (overlay_storage (stored_draft s) (hydrated cats recipe (set_busy false s)))
      as (-> & -> & ->).
    repeat split. }
  destruct Hx as (Hs & Hl & Hi).
  assert (Hsx : stored_draft x = d).
  { rewrite <- Hst. apply stored_draft_frame; assumption. }
  unfold ensure_draft. rewrite Hsx, Hd.
  split; [exact Hs|]. split; [exact Hl|].
  rewrite readDraft_eq, Hsx. reflexivity.
Qed.

Lemma load_keeps_an_existing_draft_witness :
  readDraft page_with_draft_A = (Normal draft_A, page_with_draft_A) /\
  exists s',
    drive (load page_with_draft_A)
      [categories_answer; recipe_answer; remote_draft_answer] =
      Some (Normal tt, s',
            [ api_request "/categories" GET None page_with_draft_A;
              api_request (recipe_path page_with_draft_A) GET None page_with_draft_A;
              api_request (draft_path page_with_draft_A) GET None page_with_draft_A ]) /\
    readDraft s' = (Normal draft_A, s').
Proof.
  split; [reflexivity|].
  destruct (load_keeps_an_existing_draft page_with_draft_A
              categories_answer recipe_answer remote_draft_answer
              _ _ draft_A eq_refl eq_refl eq_refl eq_refl eq_refl eq_refl eq_refl)
    as (s' & Hrun & _ & _ & Hread).
  exists s'. split; assumption.
Defined.

Lemma drive_catch_normal {A} (r : run A) (h : exn -> task A)
  (answers : list reply) (a : A) (s' : page) (qs : list request) :
  drive r answers = Some (Normal a, s', qs) ->
  drive (run_catch r h) answers = Some (Normal a, s', qs).
Proof.
  revert answers qs. induction r as [c s|w s k IH]; intros answers qs H.
  - simpl in H. injection H as -> -> <-. reflexivity.
  - destruct w as [q|q1 q2]; simpl in *.
    + destruct answers as [|x rest]; [discriminate|].
      destruct (drive (k x s) rest) as [[[c0 s0] qs0]|] eqn:E; [|discriminate].
      injection H as -> -> <-. rewrite (IH x s rest qs0 E). reflexivity.
    + destruct answers as [|x1 [|x2 rest]]; try discriminate.
      destruct (drive (k {| of_first := x1; of_second := x2;
                            second_settled_first := false |} s) rest)
        as [[[c0 s0] qs0]|] eqn:E; [|discriminate].
      injection H as -> -> <-. rewrite (IH _ s rest qs0 E). reflexivity.
Qed.

Lemma drive_then_finish {A B} (r : run A) (c : completion B)
  (answers : list reply) (a : A) (s' : page) (qs : list request) :
  drive r answers = Some (Normal a, s', qs) ->
  drive (run_bind r (fun _ s => Finished c s)) answers = Some (c, s', qs).
Proof.
  revert answers qs. induction r as [c0 s|w s k IH]; intros answers qs H.
  - simpl in H. injection H as -> -> <-. reflexivity.
  - destruct w as [q|q1 q2]; simpl in *.
    + destruct answers as [|x rest]; [discriminate|].
      destruct (drive (k x s) rest) as [[[c1 s1] qs1]|] eqn:E; [|discriminate].
      injection H as -> -> <-. rewrite (IH x s rest qs1 E). reflexivity.
    + destruct answers as [|x1 [|x2 rest]]; try discriminate.
      destruct (drive (k {| of_first := x1; of_second := x2;
                            second_settled_first := false |} s) rest)
        as [[[c1 s1] qs1]|] eqn:E; [|discriminate].
      injection H as -> -> <-. rewrite (IH _ s rest qs1 E). reflexivity.
Qed.

(** X17.  The whole escalation.  On a return event with no local draft
    and a blank title, when the remote draft brings no title either, the
    handler runs [load]: it asks for the remote draft, then for the
    categories and the record, then for the remote draft once more, and
    settles normally with the form filled as [load] fills it.  With no
    title in the remote draft the second time either, the title is the
    server's. *)
Theorem return_falls_back_to_load
  (s : page) (r0 r1 r2 r3 : reply) (cats : list jsval) (recipe : jsval) :
  num_truthy (recipeId s) = true ->
  str_empty (default "" (tg s)) = false ->
  readDraft s = (Normal VNull, s) ->
  title_is_blank s = true ->
  title_is_blank (overlay (remote_draft r0) s) = true ->
  api_result r1 = Normal (VArr cats) ->
  forallb not_nullish cats = true ->
  api_result r2 = Normal recipe ->
  exists s',
    drive (on_pageshow s) [r0; r1; r2; r3] =
      Some (Normal tt, s',
            [ api_request (draft_path s) GET None s;
              api_request "/categories" GET None s;
              api_request (recipe_path s) GET None s;
              api_request (draft_path s) GET None s ]) /\
    title_value s' =
      overlay_title (remote_draft r3)
        (ToString (js_or (get_opt recipe "title") (VStr ""))) /\
    (truthy (remote_draft r3) = false ->
     title_value s' = ToString (js_or (get_opt recipe "title") (VStr ""))).
Proof.
  intros Hid Htg Hr Hb Hb0 H1 Hc H2.
  rewrite readDraft_eq in Hr. injection Hr as Hst.
  set (x := overlay (remote_draft r0) s).
  assert (Hx : sessionStorage x = sessionStorage s /\
               localStorage x = localStorage s /\ recipeId x = recipeId s)
    by apply overlay_storage.
  destruct Hx as (Hs & Hl & Hi).
  assert (Hxt : tg x = tg s) by apply overlay_host.
  assert (Hload := load_drive x r1 r2 r3 cats recipe).
  rewrite Hi, Hxt in Hload. specialize (Hload Hid Htg H1 Hc H2).
  assert (Hsx : stored_draft x = VNull).
  { rewrite <- Hst. apply stored_draft_frame; assumption. }
  rewrite Hsx in Hload.
  eexists. split.
  - rewrite on_pageshow_eq, Hst. unfold overlay at 1. cbn [truthy].
    unfold escalate. rewrite Hb. unfold afinally.
    destruct (restoreDraftFromRedisIntoForm_run s) as [k0 [Hk Hk0]].
    rewrite Hk. cbn [run_finally drive]. rewrite Hk0. cbn [run_finally].
    rewrite Hb0. fold x. unfold acatch.
    rewrite (drive_then_finish _ (Normal tt) _ _ _ _
               (drive_catch_normal _ _ _ _ _ _ Hload)).
    unfold api_request, recipe_path, draft_path. rewrite Hi, Hxt. reflexivity.
  - match goal with |- title_value (ensure_draft ?y) = _ /\ _ =>
      destruct (ensure_draft_form y) as [-> _]
    end.
    autorewrite with overlay. unfold overlay_title at 2. cbn [get_opt get_prop].
    split; [reflexivity|].
    intros Hf. rewrite (overlay_title_falsy _ _ Hf). reflexivity.
Qed.

Lemma return_falls_back_to_load_witness :
  readDraft fresh_page = (Normal VNull, fresh_page) /\
  title_is_blank fresh_page = true /\
  exists s',
    drive (on_pageshow fresh_page)
      [no_remote_draft_answer; categories_answer; recipe_answer;
       no_remote_draft_answer] =
      Some (Normal tt, s',
            [ api_request (draft_path fresh_page) GET None fresh_page;
              api_request "/categories" GET None fresh_page;
              api_request (recipe_path fresh_page) GET None fresh_page;
              api_request (draft_path fresh_page) GET None fresh_page ]) /\
    title_value s' = "Server Title".
Proof.
  split; [reflexivity|]. split; [reflexivity|].
  destruct (return_falls_back_to_load fresh_page
              no_remote_draft_answer categories_answer recipe_answer
              no_remote_draft_answer _ _
              eq_refl eq_refl eq_refl eq_refl eq_refl eq_refl eq_refl eq_refl)
    as (s' & Hrun & _ & Ht).
  exists s'. split; [exact Hrun|]. apply Ht. reflexivity.
Defined.

(** X18.  The local and the remote overlay follow one rule: when the
    remote draft that comes back is the draft the tiers hold,
    [restoreDraftFromRedisIntoForm] leaves the page exactly as
    [restoreDraftIntoForm] would. *)
Theorem remote_overlay_is_the_local_overlay (s : page) :
  exists q k,
    restoreDraftFromRedisIntoForm s = Suspended (Fetch q) s k /\
    forall r s2 d,
      readDraft s2 = (Normal d, s2) ->
      remote_draft r = d ->
      k r s2 = Finished (fst (restoreDraftIntoForm s2)) (snd (restoreDraftIntoForm s2)).
Proof.
  destruct (restoreDraftFromRedisIntoForm_run s) as [k [Hk Hr]].
  eexists. exists k. split; [exact Hk|].
  intros r s2 d Hd Hrd. rewrite readDraft_eq in Hd. injection Hd as Hd.
  rewrite Hr, restoreDraftIntoForm_eq, Hrd, Hd. reflexivity.
Qed.

(** *** The theme (source lines 320-385) *)

Example parseHexColor_examples :
  Theme.parseHexColor (VStr "#fff")
    = Some {| Theme.r := 255; Theme.g := 255; Theme.b := 255 |} /\
  Theme.parseHexColor (VStr " #1A2b3C ")
    = Some {| Theme.r := 26; Theme.g := 43; Theme.b := 60 |} /\
  Theme.parseHexColor (VStr "fff") = None /\
  Theme.parseHexColor (VStr "#ffff") = None /\
  Theme.parseHexColor (VStr "#0x1234") = None /\
  Theme.parseHexColor (VNum (Int 5)) = None /\
  Theme.parseHexColor (VStr spaced_colour)
    = Some {| Theme.r := 1; Theme.g := 2; Theme.b := 3 |} /\
  Theme.isDarkHex (VStr "#000") = true /\
  Theme.isDarkHex (VStr "#ffffff") = false.
Proof. repeat split; vm_compute; reflexivity. Qed.

Lemma is_hex_plain (c : ascii) : Theme.is_hex c = true -> plain c = true.
Proof.
  destruct c as [[] [] [] [] [] [] [] []]; intros H;
    try (vm_compute in H; discriminate H); reflexivity.
Qed.

Lemma is_hex_ascii (c : ascii) :
  Theme.is_hex c = true -> (byte_value c <? 128) = true.
Proof.
  destruct c as [[] [] [] [] [] [] [] []]; intros H;
    try (vm_compute in H; discriminate H); reflexivity.
Qed.

(** The code units of ASCII text are its bytes. *)
Lemma code_units_ascii (l : list ascii) :
  List.Forall (fun c => (byte_value c <? 128) = true) l ->
  code_units l = map byte_value l.
Proof.
  induction 1 as [|c l Hc Hl IH]; [reflexivity|].
  cbn [code_units map]. rewrite Hc, IH. reflexivity.
Qed.

Lemma parseInt16_two_digits (c1 c2 : ascii) :
  Theme.is_hex c1 = true -> Theme.is_hex c2 = true ->
  Theme.parseInt16 [byte_value c1; byte_value c2]
    = Some (16 * Theme.digit_value c1 + Theme.digit_value c2).
Proof.
  destruct c1 as [[] [] [] [] [] [] [] []]; intros H1;
    try (vm_compute in H1; discriminate H1);
    destruct c2 as [[] [] [] [] [] [] [] []]; intros H2;
    try (vm_compute in H2; discriminate H2); reflexivity.
Qed.

Lemma colour_trim (digits : list ascii) :
  List.Forall (fun c => Theme.is_hex c = true) digits ->
  trim (String "#" (string_of_list_ascii digits))
    = String "#" (string_of_list_ascii digits).
Proof.
  intros H. apply trim_plain. simpl. constructor; [reflexivity|].
  rewrite list_ascii_of_string_of_list_ascii.
  apply (List.Forall_impl _ is_hex_plain H).
Qed.

Lemma colour_units (digits : list ascii) :
  List.Forall (fun c => Theme.is_hex c = true) digits ->
  code_units
    (list_ascii_of_string (trim (String "#" (string_of_list_ascii digits))))
    = 35 :: map byte_value digits.
Proof.
  intros H. rewrite (colour_trim _ H).
  cbn [list_ascii_of_string]. rewrite list_ascii_of_string_of_list_ascii.
  rewrite code_units_ascii.
  - reflexivity.
  - constructor; [reflexivity|]. apply (List.Forall_impl _ is_hex_ascii H).
Qed.

Lemma parseHexColor_six (x1 x2 y1 y2 z1 z2 : ascii) :
  Theme.is_hex x1 = true -> Theme.is_hex x2 = true ->
  Theme.is_hex y1 = true -> Theme.is_hex y2 = true ->
  Theme.is_hex z1 = true -> Theme.is_hex z2 = true ->
  Theme.parseHexColor (Theme.colour [x1; x2; y1; y2; z1; z2]) =
    Some {| Theme.r := 16 * Theme.digit_value x1 + Theme.digit_value x2;
            Theme.g := 16 * Theme.digit_value y1 + Theme.digit_value y2;
            Theme.b := 16 * Theme.digit_value z1 + Theme.digit_value z2 |}.
Proof.
  intros Hx1 Hx2 Hy1 Hy2 Hz1 Hz2.
  unfold Theme.parseHexColor, Theme.colour. cbn [str_empty].
  rewrite colour_units by (repeat constructor; assumption).
  cbn [map List.length Nat.eqb firstn skipn Z.eqb Pos.eqb negb].
  rewrite !parseInt16_two_digits by assumption. reflexivity.
Qed.

Lemma parseHexColor_three (a1 b1 c1 : ascii) :
  Theme.is_hex a1 = true -> Theme.is_hex b1 = true -> Theme.is_hex c1 = true ->
  Theme.parseHexColor (Theme.colour [a1; b1; c1]) =
    Some {| Theme.r := 17 * Theme.digit_value a1;
            Theme.g := 17 * Theme.digit_value b1;
            Theme.b := 17 * Theme.digit_value c1 |}.
Proof.
  intros Ha1 Hb1 Hc1.
  unfold Theme.parseHexColor, Theme.colour. cbn [str_empty].
  rewrite colour_units by (repeat constructor; assumption).
  cbn [map List.length Nat.eqb Z.eqb Pos.eqb negb].
  rewrite !parseInt16_two_digits by assumption. cbn [Theme.components].
  f_equal. f_equal; lia.
Qed.

(** X19.  A colour written [#rrggbb] with six hexadecimal digits parses to
    the three numbers its digit pairs denote, and the short form [#rgb]
    parses to what the form with every digit doubled parses to. *)
Theorem parseHexColor_of_hex_digits (a1 a2 b1 b2 c1 c2 : ascii) :
  List.Forall (fun c => Theme.is_hex c = true) [a1; a2; b1; b2; c1; c2] ->
  Theme.parseHexColor (Theme.colour [a1; a2; b1; b2; c1; c2]) =
    Some {| Theme.r := 16 * Theme.digit_value a1 + Theme.digit_value a2;
            Theme.g := 16 * Theme.digit_value b1 + Theme.digit_value b2;
            Theme.b := 16 * Theme.digit_value c1 + Theme.digit_value c2 |} /\
  Theme.parseHexColor (Theme.colour [a1; b1; c1]) =
    Theme.parseHexColor (Theme.colour [a1; a1; b1; b1; c1; c1]) /\
  Theme.parseHexColor (Theme.colour [a1; b1; c1]) =
    Some {| Theme.r := 17 * Theme.digit_value a1;
            Theme.g := 17 * Theme.digit_value b1;
            Theme.b := 17 * Theme.digit_value c1 |}.
Proof.
  intros H.
  assert (Hall : Theme.is_hex a1 = true /\ Theme.is_hex a2 = true /\
                 Theme.is_hex b1 = true /\ Theme.is_hex b2 = true /\
                 Theme.is_hex c1 = true /\ Theme.is_hex c2 = true).
  { repeat (match goal with
            | H : List.Forall _ (_ :: _) |- _ => inversion H; subst; clear H
            end). repeat split; assumption. }
  destruct Hall as (Ha1 & Ha2 & Hb1 & Hb2 & Hc1 & Hc2).
  split; [apply parseHexColor_six; assumption|].
  split.
  - rewrite parseHexColor_three, parseHexColor_six by assumption.
    f_equal. f_equal; lia.
  - apply parseHexColor_three; assumption.
Qed.

Lemma parseHexColor_of_hex_digits_witness :
  List.Forall (fun c => Theme.is_hex c = true)
    ["1"; "A"; "2"; "b"; "3"; "C"]%char /\
  Theme.parseHexColor (VStr "#1A2b3C")
    = Some {| Theme.r := 26; Theme.g := 43; Theme.b := 60 |} /\
  Theme.parseHexColor (VStr "#123") = Theme.parseHexColor (VStr "#112233").
Proof.
  split; [repeat constructor|].
  destruct (parseHexColor_of_hex_digits "1" "A" "2" "b" "3" "C")
    as (H1 & H2 & _).
  { repeat constructor. }
  split; [exact H1|exact H2].
Defined.

Lemma hex_unit_range (u d : Z) :
  Theme.hex_unit u = Some d -> 0 <= d <= 15.
Proof.
  unfold Theme.hex_unit. intros H.
  repeat match type of H with
         | (if ?c then _ else _) = _ => destruct c eqn:?
         end; try discriminate H; injection H as <-; lia.
Qed.

Lemma hex_value_range (c : ascii) (d : Z) :
  Theme.hex_value c = Some d -> 0 <= d <= 15.
Proof. apply hex_unit_range. Qed.

Lemma hex_prefix_short (body : list Z) (z : Z) :
  Theme.hex_prefix None body = Some z ->
  ((List.length body <= 1)%nat -> 0 <= z <= 15) /\
  ((List.length body <= 2)%nat -> 0 <= z <= 255).
Proof.
  destruct body as [|x [|y [|w t]]]; simpl; intros H.
  - discriminate.
  - destruct (Theme.hex_unit x) as [d|] eqn:Ex; [|discriminate].
    injection H as <-. pose proof (hex_unit_range _ _ Ex). split; intros; lia.
  - destruct (Theme.hex_unit x) as [d|] eqn:Ex; [|discriminate].
    pose proof (hex_unit_range _ _ Ex).
    destruct (Theme.hex_unit y) as [e|] eqn:Ey.
    + injection H as <-. pose proof (hex_unit_range _ _ Ey). split; intros; lia.
    + injection H as <-. split; intros; lia.
  - split; intros; lia.
Qed.

Lemma skip_white_space_length (l : list Z) :
  (List.length (Theme.skip_white_space l) <= List.length l)%nat.
Proof.
  induction l as [|u l IH]; simpl; [lia|].
  destruct (Theme.white_space_unit u); simpl; lia.
Qed.

(** What [parseInt16] makes of at most two code units. *)
Lemma parseInt16_range (l : list Z) (z : Z) :
  (List.length l <= 2)%nat ->
  Theme.parseInt16 l = Some z -> -15 <= z <= 255.
Proof.
  intros Hlen. unfold Theme.parseInt16.
  pose proof (skip_white_space_length l) as Hs.
  remember (Theme.skip_white_space l) as t eqn:Et. clear Et.
  assert (Ht : (List.length t <= 2)%nat) by lia. clear Hs Hlen l.
  assert (Hbody : forall body v,
            Theme.hex_prefix None body = Some v ->
            ((List.length body <= 1)%nat -> 0 <= v <= 15) /\
            ((List.length body <= 2)%nat -> 0 <= v <= 255))
    by (intros body v Hv; apply (hex_prefix_short body v Hv)).
  destruct t as [|u [|v [|w rest]]]; simpl in Ht; try lia; cbn [fst snd].
  - simpl. discriminate.
  - destruct (u =? 45); [simpl; discriminate|].
    destruct (u =? 43); [simpl; discriminate|]. cbn [fst snd].
    destruct (Theme.hex_prefix None [u]) as [x|] eqn:E; [|discriminate].
    intros H. injection H as <-.
    destruct (Hbody _ _ E) as [_ H2]. specialize (H2 ltac:(simpl; lia)). lia.
  - destruct (u =? 45); [|destruct (u =? 43)]; cbn [fst snd].
    + destruct (Theme.hex_prefix None [v]) as [x|] eqn:E; [|discriminate].
      intros H. injection H as <-.
      destruct (Hbody _ _ E) as [H1 _]. specialize (H1 ltac:(simpl; lia)). lia.
    + destruct (Theme.hex_prefix None [v]) as [x|] eqn:E; [|discriminate].
      intros H. injection H as <-.
      destruct (Hbody _ _ E) as [H1 _]. specialize (H1 ltac:(simpl; lia)). lia.
    + destruct ((u =? 48) && ((v =? 120) || (v =? 88))); [simpl; discriminate|].
      destruct (Theme.hex_prefix None [u; v]) as [x|] eqn:E; [|discriminate].
      intros H. injection H as <-.
      destruct (Hbody _ _ E) as [_ H2]. specialize (H2 ltac:(simpl; lia)). lia.
Qed.

Lemma components_range (x y z : option Z) (c : Theme.rgb) :
  Theme.components x y z = Some c ->
  x = Some (Theme.r c) /\ y = Some (Theme.g c) /\ z = Some (Theme.b c).
Proof.
  unfold Theme.components. destruct x, y, z; try discriminate.
  intros H. injection H as <-. repeat split.
Qed.

Lemma byte_value_number_sign (c : ascii) : byte_value c = 35 -> c = "#"%char.
Proof.
  destruct c as [[] [] [] [] [] [] [] []]; intros H;
    try (vm_compute in H; discriminate H); reflexivity.
Qed.

Lemma continuation_range (c : ascii) (n : Z) :
  continuation c = Some n -> 0 <= n < 64.
Proof.
  unfold continuation. intros H.
  destruct ((128 <=? byte_value c) && (byte_value c <? 192)) eqn:E;
    [|discriminate H].
  injection H as <-. apply andb_prop in E. destruct E as [E1 E2].
  apply Z.leb_le in E1. apply Z.ltb_lt in E2. lia.
Qed.

(** A string whose first code unit is [#] starts with the character. *)
Lemma code_units_number_sign (l : list ascii) (rest : list Z) :
  code_units l = 35 :: rest -> exists l', l = "#"%char :: l'.
Proof.
  destruct l as [|b0 r0]; [discriminate|].
  cbn [code_units]. intros H.
  destruct (byte_value b0 <? 128) eqn:E0.
  { injection H as H _. exists r0. f_equal. apply byte_value_number_sign. exact H. }
  exfalso. apply Z.ltb_ge in E0.
  destruct (byte_value b0 <? 194) eqn:E1; [discriminate H|].
  apply Z.ltb_ge in E1.
  destruct r0 as [|b1 r1]; [discriminate H|].
  destruct (continuation b1) as [c1|] eqn:C1; [|discriminate H].
  pose proof (continuation_range _ _ C1).
  destruct (byte_value b0 <? 224) eqn:E2; [injection H as H _; lia|].
  destruct r1 as [|b2 r2]; [discriminate H|].
  destruct (continuation b2) as [c2|] eqn:C2; [|discriminate H].
  pose proof (continuation_range _ _ C2).
  destruct (byte_value b0 <? 240) eqn:E3.
  { match type of H with
    | (if ?c then _ else _) = _ => destruct c eqn:E4
    end; [discriminate H|].
    apply Z.ltb_ge in E4. injection H as H _. lia. }
  destruct r2 as [|b3 r3]; [discriminate H|].
  destruct (continuation b3) as [c3|] eqn:C3; [|discriminate H].
  match type of H with
  | (if ?c then _ else _) = _ => destruct c eqn:E4
  end; [discriminate H|].
  apply orb_false_iff in E4. destruct E4 as [E4 _]. apply Z.ltb_ge in E4.
  injection H as H _.
  assert (Hcp : 0 <= (byte_value b0 - 240) * 262144 + c1 * 4096 + c2 * 64 + c3 - 65536)
    by lia.
  pose proof (Z.div_pos _ 1024 Hcp ltac:(lia)). lia.
Qed.

(** [parseHexColor] parses nothing but a string whose trimmed form starts
    with [#]. *)
Lemma parseHexColor_number_sign (v : jsval) (c : Theme.rgb) :
  Theme.parseHexColor v = Some c ->
  exists str hex, v = VStr str /\ trim str = String "#" hex.
Proof.
  unfold Theme.parseHexColor. destruct v as [| | | |str| |]; try discriminate.
  destruct (str_empty str); [discriminate|].
  destruct (code_units (list_ascii_of_string (trim str))) as [|first hex] eqn:Eu;
    [discriminate|].
  destruct (first =? 35) eqn:Ef; [|discriminate].
  apply Z.eqb_eq in Ef. subst first.
  destruct (code_units_number_sign _ _ Eu) as [l' Hl].
  intros _. exists str, (string_of_list_ascii l'). split; [reflexivity|].
  rewrite <- (string_of_list_ascii_of_string (trim str)), Hl. reflexivity.
Qed.

(** X20.  Whatever [parseHexColor] returns has three integers from -15 to
    255 as its components (never NaN), and it returns something only for
    a string whose trimmed form starts with [#].  The components need not
    be a colour's: a sign is read as part of a digit pair, so
    [#-1-1-1] parses, to three times -1. *)
Theorem parseHexColor_components_in_range (v : jsval) (c : Theme.rgb) :
  Theme.parseHexColor v = Some c ->
  (exists str hex, v = VStr str /\ trim str = String "#" hex) /\
  -15 <= Theme.r c <= 255 /\
  -15 <= Theme.g c <= 255 /\
  -15 <= Theme.b c <= 255.
Proof.
  intros H. split; [apply (parseHexColor_number_sign v c H)|].
  revert H.
  unfold Theme.parseHexColor. destruct v as [| | | |str| |]; try discriminate.
  destruct (str_empty str); [discriminate|].
  destruct (code_units (list_ascii_of_string (trim str))) as [|first hex];
    [discriminate|].
  destruct (negb (first =? 35)); [discriminate|].
  destruct (Nat.eqb (List.length hex) 3).
  - destruct hex as [|u0 [|u1 [|u2 [|u3 rest]]]]; try discriminate.
    intros H. destruct (components_range _ _ _ _ H) as (Hr & Hg & Hb).
    repeat split; eapply parseInt16_range; try eassumption; simpl; lia.
  - destruct (Nat.eqb (List.length hex) 6) eqn:E6; [|discriminate].
    apply Nat.eqb_eq in E6.
    intros H. destruct (components_range _ _ _ _ H) as (Hr & Hg & Hb).
    repeat split; eapply parseInt16_range; try eassumption;
      rewrite ?length_firstn, ?length_skipn; lia.
Qed.

Lemma parseHexColor_components_in_range_witness :
  Theme.parseHexColor (VStr "#-1-1-1")
    = Some {| Theme.r := -1; Theme.g := -1; Theme.b := -1 |} /\
  -15 <= -1 <= 255.
Proof.
  split; [vm_compute; reflexivity|].
  destruct (parseHexColor_components_in_range (VStr "#-1-1-1")
              {| Theme.r := -1; Theme.g := -1; Theme.b := -1 |} eq_refl)
    as (_ & H & _).
  exact H.
Defined.

(** X21.  [isDarkHex] is false for everything that is not a string and
    for every string whose trimmed form does not start with [#], a colour
    written [rgb(0, 0, 0)] or [black] included; and for a grey written
    with one hexadecimal digit, [#ddd] or [#dddddd], it is true exactly
    for the digits up to 6: [#666] is dark and [#777] is not. *)
Theorem isDarkHex_of_greys (d : ascii) :
  (forall v, is_string v = false -> Theme.isDarkHex v = false) /\
  (forall str, (forall hex, trim str <> String "#" hex) ->
               Theme.isDarkHex (VStr str) = false) /\
  (Theme.is_hex d = true ->
   Theme.isDarkHex (Theme.colour [d; d; d]) = (Theme.digit_value d <=? 6) /\
   Theme.isDarkHex (Theme.colour [d; d; d; d; d; d]) = (Theme.digit_value d <=? 6)).
Proof.
  split; [|split].
  - intros v Hv. unfold Theme.isDarkHex.
    destruct (Theme.parseHexColor v) as [c|] eqn:E; [|reflexivity].
    destruct (parseHexColor_number_sign v c E) as (str & hex & -> & _).
    discriminate Hv.
  - intros str Hno. unfold Theme.isDarkHex.
    destruct (Theme.parseHexColor (VStr str)) as [c|] eqn:E; [|reflexivity].
    destruct (parseHexColor_number_sign _ c E) as (str' & hex & Hs & Ht).
    injection Hs as <-. exfalso. apply (Hno hex Ht).
  - intros Hd.
    unfold Theme.isDarkHex.
    rewrite parseHexColor_six, parseHexColor_three by exact Hd.
    cbn [Theme.r Theme.g Theme.b].
    assert (Hr : 0 <= Theme.digit_value d <= 15).
    { unfold Theme.digit_value, Theme.is_hex in *.
      destruct (Theme.hex_value d) as [x|] eqn:E; [|discriminate].
      apply (hex_value_range _ _ E). }
    split.
    + destruct (Theme.digit_value d <=? 6) eqn:E.
      * apply Z.leb_le in E. apply Z.ltb_lt. lia.
      * apply Z.leb_gt in E. apply Z.ltb_ge. lia.
    + destruct (Theme.digit_value d <=? 6) eqn:E.
      * apply Z.leb_le in E. apply Z.ltb_lt. lia.
      * apply Z.leb_gt in E. apply Z.ltb_ge. lia.
Qed.

Lemma property_after_app (name : string) (l1 l2 : list Theme.root_call) :
  Theme.property_after name (l1 ++ l2) =
  match Theme.property_after name l2 with
  | Some v => Some v
  | None => Theme.property_after name l1
  end.
Proof.
  induction l1 as [|c l1 IH]; simpl.
  - destruct (Theme.property_after name l2); reflexivity.
  - rewrite IH. destruct (Theme.property_after name l2); reflexivity.
Qed.

Lemma property_after_set_if (name n : string) (v : jsval) :
  Theme.property_after name (Theme.set_if n v) =
  if truthy v && String.eqb n name then Some (ToString v) else None.
Proof.
  unfold Theme.set_if. destruct (truthy v); simpl; [|reflexivity].
  destruct (String.eqb n name); reflexivity.
Qed.

(** X22.  [applyThemeParams] does nothing for missing params.  Otherwise
    it sets the mode once, to dark exactly when the background or the
    secondary background is dark, and the [data-theme] attribute to the
    same word; the field colours are those of that mode, given or not the
    params name any colour; and the two spellings of each aliased property
    always end up with one value. *)
Theorem applyThemeParams_is_coherent (params : jsval) :
  (truthy params = false -> Theme.applyThemeParams params = []) /\
  (truthy params = true ->
   let dark := Theme.isDarkHex (get_opt params "bg_color")
               || Theme.isDarkHex (get_opt params "secondary_bg_color") in
   let mode := if dark then "dark" else "light" in
   let calls := Theme.applyThemeParams params in
   List.filter (fun c => match c with Theme.SetProperty _ _ => false | _ => true end) calls
     = [Theme.SetMode mode; Theme.SetDataTheme mode] /\
   Theme.property_after "--field" calls =
     Some (if dark then "rgba(255,255,255,0.10)" else "rgba(255,255,255,0.92)") /\
   Theme.property_after "--fieldBorder" calls =
     Some (if dark then "rgba(255,255,255,0.28)" else "rgba(0,0,0,0.22)") /\
   Theme.property_after "--field-border" calls
     = Theme.property_after "--fieldBorder" calls /\
   Theme.property_after "--accent-text" calls
     = Theme.property_after "--accentText" calls /\
   Theme.property_after "--fieldText" calls
     = Theme.property_after "--text" calls).
Proof.
  split.
  - intros H. unfold Theme.applyThemeParams. rewrite H. reflexivity.
  - intros H. cbv zeta. unfold Theme.applyThemeParams. rewrite H. cbn [negb].
    set (dark := Theme.isDarkHex (get_opt params "bg_color")
                 || Theme.isDarkHex (get_opt params "secondary_bg_color")).
    split.
    { unfold Theme.set_if.
      destruct (truthy (get_opt params "bg_color")),
               (truthy (get_opt params "text_color")),
               (truthy (get_opt params "hint_color")),
               (truthy (get_opt params "secondary_bg_color")),
               (truthy (get_opt params "button_color")),
               (truthy (get_opt params "button_text_color")),
               dark; reflexivity. }
    rewrite !property_after_app, !property_after_set_if.
    cbn [String.eqb Ascii.eqb Bool.eqb].
    rewrite ?andb_false_r, ?andb_true_r.
    destruct (truthy (get_opt params "text_color")),
             (truthy (get_opt params "button_text_color")),
             dark; simpl; repeat split; reflexivity.
Qed.

Lemma applyThemeParams_is_coherent_witness :
  Theme.applyThemeParams VUndefined = [] /\
  Theme.property_after "--field"
    (Theme.applyThemeParams (VObj [("bg_color", VStr "#17212b")]))
    = Some "rgba(255,255,255,0.10)".
Proof.
  destruct (applyThemeParams_is_coherent VUndefined) as [H _].
  split; [exact (H eq_refl)|].
  destruct (applyThemeParams_is_coherent (VObj [("bg_color", VStr "#17212b")]))
    as [_ H2].
  destruct (H2 eq_refl) as (_ & Hf & _). exact Hf.
Defined.

(** *** The description editor *)





(** X23.  The description editor's save button validates nothing: a click
    sends one PATCH whose body is the text area's content as it is, empty
    or not.  When the request fails an error is shown (the message of the
    error [api] threw, which the model has for every answer but a status
    outside 200..299 with a JSON body without [detail]), the button is
    released, and nothing is sent to the host and no way back is
    scheduled.  When it succeeds the success message is shown, the host is
    told once (when there is one), and one return to the main editor is
    scheduled. *)
Theorem description_save_click_outcomes (s : Description.editor) :
  exists q k,
    Description.on_save_click s
      = Description.Suspended q (Description.save_started s) k /\
    req_method q = PATCH /\
    req_path q = "/api/webapp/recipes/" +:+ NumberToString (Description.recipeId s) /\
    req_body q = Some (Json (VObj [("description", VStr (Description.text_value s))])) /\
    forall r s',
      (forall e, api_result r = Throw e ->
         exists msg,
           k r s' = Description.Finished (Normal tt)
                      (Description.set_busy false
                         (Description.set_messages msg "" s')) /\
           (body_is_the_message r = false -> msg = exn_text e)) /\
      (forall updated, api_result r = Normal updated ->
         exists s'',
           k r s' = Description.Finished (Normal tt) s'' /\
           Description.busy s'' = false /\
           Description.err_text s'' = "" /\
           Description.ok_text s'' = "Сохранено" /\
           Description.text_value s'' = Description.text_value s' /\
           Description.replaced s'' = Description.replaced s' /\
           Description.back_timers s''
             = (Description.back_timers s' ++ [Description.nextId updated s'])%list /\
           Description.sent s'' =
             match Description.tg s' with
             | Some _ =>
                 (Description.sent s' ++
                  [Json (VObj [ ("type", VStr "recipe_updated");
                                ("recipe_id",
                                 if Number_isFinite (Description.recipeId s')
                                 then VNum (Description.recipeId s') else VNull) ])])%list
             | None => Description.sent s'
             end).
Proof.
  eexists. eexists. split; [reflexivity|].
  split; [reflexivity|]. split; [reflexivity|]. split; [reflexivity|].
  intros r s'. split.
  - intros e He. exists (exn_text e). simpl. rewrite He.
    split; [reflexivity|]. intros _. reflexivity.
  - intros updated Hu. simpl. rewrite Hu. simpl.
    eexists. split; [reflexivity|].
    destruct (Description.tg s'); simpl;
      repeat split; try reflexivity.
    destruct (Description.recipeId s') as [|[]|z]; reflexivity.
Qed.



